(** * OTR2.0: risk sizing and the trailing-stop position supervisor

    A shallow embedding of [src/risk_management.py] and of the position
    lifecycle code of [src/simple_trading_bot.py] (class
    [EnhancedTradingBot]), with the properties the specification states
    about them, and of the order sizing, retry and cache helpers of the
    same class.

    Conventions of the embedding.
    - Python floats are read as exact rationals ([Q]); float equality is
      [Qeq] ([==]).  Rounding, NaN and overflow are outside the model.
      Division raises on a zero divisor, as it does on Python floats; a
      value read from a frame is a [numpy.float64], for which a zero divisor
      gives inf or nan instead, so inside [adaptive_risk_management] a
      closing price or a balance of 0 is outside the model as well.
    - A Python exception is a value [Raise e] of the type [result]; a
      [try/except Exception] is a [match] on it.
    - Calls that leave this repository (exchange client, indicator module,
      position module) are parameters: Section variables or explicit
      oracle arguments carrying what the call returned.
    - Console output and logging are dropped. *)

From Stdlib Require Import QArith Qabs Qround ZArith List String Ascii Bool Sorted Lia Lqa.
From Stdlib Require Import DecimalString.
Import ListNotations.
Open Scope Q_scope.

(** ** Python prelude *)

Module Py.

Inductive exn : Type :=
| ZeroDivisionError
| KeyError (key : string)
| IndexError
| ExternalError (msg : string).

Inductive result (A : Type) : Type :=
| Ok (a : A)
| Raise (e : exn).

Arguments Ok {A} a.
Arguments Raise {A} e.

Definition bind {A B : Type} (m : result A) (k : A -> result B) : result B :=
  match m with
  | Ok a => k a
  | Raise e => Raise e
  end.

Definition is_ok {A : Type} (m : result A) : bool :=
  match m with Ok _ => true | Raise _ => false end.

(** Float comparisons [<], [<=], [==]. *)
Definition ltb (x y : Q) : bool :=
  match x ?= y with Lt => true | _ => false end.

Definition leb (x y : Q) : bool :=
  match x ?= y with Gt => false | _ => true end.

Definition eqb (x y : Q) : bool :=
  match x ?= y with Eq => true | _ => false end.

(** [x / y]: float division raises on a zero divisor. *)
Definition div (x y : Q) : result Q :=
  if eqb y 0 then Raise ZeroDivisionError else Ok (x / y).

(** [max(a, b)] and [min(a, b)] of two floats. *)
Definition max2 (a b : Q) : Q := if ltb a b then b else a.
Definition min2 (a b : Q) : Q := if ltb b a then b else a.

(** [max(l)] and [min(l)] of a non-empty list; [None] stands for the empty
    list, which the callers test before calling. *)
Fixpoint max_list (l : list Q) : option Q :=
  match l with
  | [] => None
  | x :: tl => match max_list tl with
               | None => Some x
               | Some m => Some (max2 x m)
               end
  end.

Fixpoint min_list (l : list Q) : option Q :=
  match l with
  | [] => None
  | x :: tl => match min_list tl with
               | None => Some x
               | Some m => Some (min2 x m)
               end
  end.

(** [str.upper()] on ASCII letters. *)
Definition upper_ascii (c : ascii) : ascii :=
  let n := nat_of_ascii c in
  if (Nat.leb 97 n && Nat.leb n 122)%bool then ascii_of_nat (n - 32) else c.

Fixpoint upper (s : string) : string :=
  match s with
  | EmptyString => EmptyString
  | String c tl => String (upper_ascii c) (upper tl)
  end.

(** Truthiness of an optional float: [None] and [0.0] are false. *)
Definition truthy (o : option Q) : bool :=
  match o with
  | None => false
  | Some x => negb (eqb x 0)
  end.

End Py.

Declare Scope py_scope.
Delimit Scope py_scope with py.
Notation "x <- m ;; k" := (Py.bind m (fun x => k))
  (at level 61, m at next level, right associativity) : py_scope.
Notation "' p <- m ;; k" := (Py.bind m (fun x => match x with p => k end))
  (at level 61, p pattern, m at next level, right associativity) : py_scope.
Open Scope py_scope.
Open Scope string_scope.

(** ** [risk_management.py] *)

Module RiskManagement.
Import Py.

(** A [pandas.DataFrame] as far as the module reads it: its number of rows
    ([len(df)]) and its named columns. *)
Record DataFrame : Type := {
  nrows : nat;
  columns : list (string * list Q)
}.

Definition has_column (df : DataFrame) (name : string) : bool :=
  existsb (fun c => String.eqb (fst c) name) (columns df).

(** [df[name]] *)
Definition column (df : DataFrame) (name : string) : result (list Q) :=
  match find (fun c => String.eqb (fst c) name) (columns df) with
  | Some c => Ok (snd c)
  | None => Raise (KeyError name)
  end.

(** [series.iloc[-1]] *)
Definition iloc_last (s : list Q) : result Q :=
  match rev s with
  | x :: _ => Ok x
  | [] => Raise IndexError
  end.

(** [trend_info] as returned by [get_smc_trend_and_duration]: the one key the
    module reads; [None] is a dictionary without the key. *)
Record TrendInfo : Type := {
  confidence : option string
}.

Definition get_confidence (ti : TrendInfo) : result string :=
  match confidence ti with
  | Some c => Ok c
  | None => Raise (KeyError "confidence")
  end.

(** The dictionary returned by [advanced_smc_stop_loss]; the optional fields
    are the keys only one of its return statements sets. *)
Record StopResult : Type := {
  sr_stop_loss : Q;
  sr_take_profit : Q;
  sr_method : string;
  sr_risk_reward_ratio : Q;
  sr_base_stop : option Q;
  sr_stop_loss_pct : option Q;
  sr_trend : option string;
  sr_trend_confidence : option string;
  sr_error : option exn
}.

(** The dictionary returned by [calculate_trailing_stop_params]. *)
Record TrailingParams : Type := {
  tp_activation_pct : Q;
  tp_callback_pct : Q;
  tp_quality_score : Q;
  tp_trend : string
}.

(** The dictionary returned by [calculate_position_size]. *)
Record PositionResult : Type := {
  pr_position_size : Q;
  pr_position_value : Q;
  pr_risk_amount : Q;
  pr_risk_percent : Q;
  pr_unit_risk : Q;
  pr_leverage : Z
}.

(** The dictionary [adaptive_risk_management] builds on its normal path. *)
Record RiskDecision : Type := {
  rd_entry_price : Q;
  rd_stop_loss : Q;
  rd_take_profit : Q;
  rd_position_size : Q;
  rd_position_value : Q;
  rd_max_risk_percent : Q;
  rd_actual_risk_percent : Q;
  rd_risk_level : string;
  rd_leverage : Z;
  rd_risk_reward_ratio : Q;
  rd_trailing_stop : TrailingParams;
  rd_quality_score : Q;
  rd_trend : string;
  rd_trend_confidence : string;
  rd_vortex_adjustment : Q;
  rd_recommendation : string;
  rd_recommendation_reason : string
}.

(** What [adaptive_risk_management] returns: the full dictionary, or the
    three-key dictionary of its exception handler. *)
Inductive AdaptiveResult : Type :=
| Analysis (r : RiskDecision)
| Failure (error : exn) (recommendation : string) (recommendation_reason : string).

Definition recommendation_of (a : AdaptiveResult) : string :=
  match a with
  | Analysis r => rd_recommendation r
  | Failure _ rec _ => rec
  end.

Section Risk.

(** [leverage ** 0.5] on an [int] leverage. *)
Variable pow_half : Z -> Q.

(** The functions imported from [indicators_module]. *)
Variable find_swing_points : DataFrame -> result (list Q * list Q).
Variable get_smc_trend_and_duration : DataFrame -> result (string * Q * TrendInfo).
Variable calculate_fibonacci_retracements : DataFrame -> result (list Q).

Definition is_buy (side : string) : bool := String.eqb (upper side) "BUY".

Definition calculate_leveraged_stop_loss
    (entry_price : Q) (leverage : Z) (base_stop_loss_pct : Q) (side : string)
    : result Q :=
  adjusted_stop_loss_pct <- div base_stop_loss_pct (pow_half leverage) ;;
  if is_buy side
  then Ok (entry_price * (1 - adjusted_stop_loss_pct))
  else Ok (entry_price * (1 + adjusted_stop_loss_pct)).

Definition calculate_dynamic_take_profit
    (entry_price stop_loss min_risk_reward : Q) (side : string) : Q :=
  if is_buy side
  then let risk := entry_price - stop_loss in
       entry_price + risk * min_risk_reward
  else let risk := stop_loss - entry_price in
       entry_price - risk * min_risk_reward.

(** The default stop both fallback returns of [advanced_smc_stop_loss]
    compute (lines 107-116 and 230-240). *)
Definition default_leveraged
    (entry_price : Q) (leverage : Z) (side : string) (err : option exn)
    : result StopResult :=
  let default_stop_pct := 0.03 in
  stop_loss <- calculate_leveraged_stop_loss entry_price leverage default_stop_pct side ;;
  let take_profit := calculate_dynamic_take_profit entry_price stop_loss 2.0 side in
  Ok {| sr_stop_loss := stop_loss;
        sr_take_profit := take_profit;
        sr_method := "default_leveraged";
        sr_risk_reward_ratio := 2.0;
        sr_base_stop := None;
        sr_stop_loss_pct := None;
        sr_trend := None;
        sr_trend_confidence := None;
        sr_error := err |}.

(** [o and o > bound] / [o and o < bound] on an optional level: the level
    when the test passes. *)
Definition accept_above (o : option Q) (bound : Q) : option Q :=
  match o with
  | Some s => if (truthy o && ltb bound s)%bool then Some s else None
  | None => None
  end.

Definition accept_below (o : option Q) (bound : Q) : option Q :=
  match o with
  | Some s => if (truthy o && ltb s bound)%bool then Some s else None
  | None => None
  end.

(** Choice of the base stop and of its method tag (lines 131-177). *)
Definition choose_base_stop
    (entry_price : Q) (side : string) (swing_highs swing_lows fib_levels : list Q)
    : Q * string :=
  if is_buy side then
    let relevant_swings := filter (fun low => ltb low entry_price) swing_lows in
    let structure_stop := max_list relevant_swings in
    let relevant_fibs := filter (fun level => ltb level entry_price) fib_levels in
    let fib_stop := max_list relevant_fibs in
    let default_stop := entry_price * 0.97 in
    match accept_above structure_stop (entry_price * 0.90) with
    | Some s => (s, "structure")
    | None =>
      match accept_above fib_stop (entry_price * 0.90) with
      | Some f => (f, "fibonacci")
      | None => (default_stop, "percentage")
      end
    end
  else
    let relevant_swings := filter (fun high => ltb entry_price high) swing_highs in
    let structure_stop := min_list relevant_swings in
    let relevant_fibs := filter (fun level => ltb entry_price level) fib_levels in
    let fib_stop := min_list relevant_fibs in
    let default_stop := entry_price * 1.03 in
    match accept_below structure_stop (entry_price * 1.10) with
    | Some s => (s, "structure")
    | None =>
      match accept_below fib_stop (entry_price * 1.10) with
      | Some f => (f, "fibonacci")
      | None => (default_stop, "percentage")
      end
    end.

(** Risk-reward ratio by trend confidence (lines 191-198). *)
Definition risk_reward_of_confidence (c : string) : Q :=
  if String.eqb c "高" then 3.0
  else if String.eqb c "中高" then 2.5
  else if String.eqb c "中" then 2.0
  else 1.5.

(** The [try] block of [advanced_smc_stop_loss] (lines 103-226). *)
Definition advanced_smc_stop_loss_try
    (df : option DataFrame) (entry_price : Q) (leverage : Z) (side : string)
    : result StopResult :=
  match df with
  | None => default_leveraged entry_price leverage side None
  | Some d =>
    if Nat.ltb (nrows d) 20 then default_leveraged entry_price leverage side None
    else
      '(swing_highs, swing_lows) <- find_swing_points d ;;
      '(trend, _, trend_info) <- get_smc_trend_and_duration d ;;
      fib_levels <- calculate_fibonacci_retracements d ;;
      close <- column d "close" ;;
      current_price <- iloc_last close ;;
      let '(base_stop, stop_method) :=
        choose_base_stop entry_price side swing_highs swing_lows fib_levels in
      stop_loss_pct <- div (Qabs (base_stop - entry_price)) entry_price ;;
      leveraged_stop_loss <-
        calculate_leveraged_stop_loss entry_price leverage stop_loss_pct side ;;
      conf <- get_confidence trend_info ;;
      let risk_reward_ratio := risk_reward_of_confidence conf in
      let take_profit :=
        calculate_dynamic_take_profit entry_price leveraged_stop_loss
                                      risk_reward_ratio side in
      Ok {| sr_stop_loss := leveraged_stop_loss;
            sr_take_profit := take_profit;
            sr_method := stop_method;
            sr_risk_reward_ratio := risk_reward_ratio;
            sr_base_stop := Some base_stop;
            sr_stop_loss_pct := Some (stop_loss_pct * 100);
            sr_trend := Some trend;
            sr_trend_confidence := Some conf;
            sr_error := None |}
  end.

(** [advanced_smc_stop_loss]: the [try] block, and on any exception the
    handler of lines 227-240, which recomputes the default stop. *)
Definition advanced_smc_stop_loss
    (df : option DataFrame) (entry_price : Q) (leverage : Z) (side : string)
    : result StopResult :=
  match advanced_smc_stop_loss_try df entry_price leverage side with
  | Ok r => Ok r
  | Raise e => default_leveraged entry_price leverage side (Some e)
  end.

(** [calculate_trailing_stop_params]; [environment] is the value of
    [market_conditions["environment"]], [None] when the key is absent. *)
Definition calculate_trailing_stop_params
    (quality_score : Q) (trend : string) (environment : option string)
    : TrailingParams :=
  let activation_pct :=
    if leb 8.0 quality_score then 2.0
    else if leb 6.0 quality_score then 3.0
    else 4.0 in
  let callback_pct :=
    if leb 8.0 quality_score then 1.0
    else if leb 6.0 quality_score then 1.5
    else 2.0 in
  let '(activation_pct, callback_pct) :=
    if (String.eqb trend "UP" || String.eqb trend "DOWN")%bool
    then (activation_pct, callback_pct * 0.8)
    else (activation_pct * 1.2, callback_pct * 1.2) in
  let '(activation_pct, callback_pct) :=
    match environment with
    | Some env =>
        if String.eqb env "trending" then (activation_pct, callback_pct * 0.8)
        else if String.eqb env "ranging" then (activation_pct * 1.3, callback_pct * 1.5)
        else if String.eqb env "breakout" then (activation_pct * 0.7, callback_pct * 1.2)
        else if String.eqb env "extreme_volatility"
             then (activation_pct * 1.5, callback_pct * 2.0)
        else (activation_pct, callback_pct)
    | None => (activation_pct, callback_pct)
    end in
  let activation_pct := max2 1.0 (min2 10.0 activation_pct) in
  let callback_pct := max2 0.5 (min2 5.0 callback_pct) in
  {| tp_activation_pct := activation_pct;
     tp_callback_pct := callback_pct;
     tp_quality_score := quality_score;
     tp_trend := trend |}.

Definition calculate_position_size
    (account_balance entry_price stop_loss max_risk_percent : Q) (leverage : Z)
    : result PositionResult :=
  let unit_risk := Qabs (entry_price - stop_loss) in
  let max_risk_amount := account_balance * (max_risk_percent / 100) in
  position_size <- div max_risk_amount unit_risk ;;
  let leveraged_position_size := position_size * inject_Z leverage in
  let position_value := leveraged_position_size * entry_price in
  units <- div position_value entry_price ;;
  unleveraged <- div units (inject_Z leverage) ;;
  let actual_risk_amount := unit_risk * unleveraged in
  risk_fraction <- div actual_risk_amount account_balance ;;
  let actual_risk_percent := risk_fraction * 100 in
  Ok {| pr_position_size := leveraged_position_size;
        pr_position_value := position_value;
        pr_risk_amount := actual_risk_amount;
        pr_risk_percent := actual_risk_percent;
        pr_unit_risk := unit_risk;
        pr_leverage := leverage |}.

(** [df[name].iloc[-1] if name in df.columns else 0] *)
Definition last_or_zero (df : DataFrame) (name : string) : result Q :=
  if has_column df name
  then (c <- column df name ;; iloc_last c)
  else Ok 0.

(** The Vortex adjustment of the risk budget (lines 410-440). *)
Definition vortex_adjustment_of (df : DataFrame) (side : string) : result Q :=
  if (has_column df "VI_plus" && has_column df "VI_minus")%bool then
    plus <- column df "VI_plus" ;;
    vi_plus <- iloc_last plus ;;
    minus <- column df "VI_minus" ;;
    vi_minus <- iloc_last minus ;;
    vi_diff <-
      (if has_column df "VI_diff"
       then (c <- column df "VI_diff" ;; d <- iloc_last c ;; Ok (Qabs d))
       else Ok (Qabs (vi_plus - vi_minus))) ;;
    let vortex_trend := if ltb vi_minus vi_plus then 1%Z else (-1)%Z in
    let trade_trend := if is_buy side then 1%Z else (-1)%Z in
    let vortex_adjustment :=
      if Z.eqb vortex_trend trade_trend then
        let strength := vi_diff * 10 in
        if ltb 1.5 strength then 1.2
        else if ltb 0.8 strength then 1.1
        else 1.0
      else 0.8 in
    cross_up <- last_or_zero df "Vortex_Cross_Up" ;;
    cross_down <- last_or_zero df "Vortex_Cross_Down" ;;
    if ((truthy (Some cross_up) && is_buy side)
        || (truthy (Some cross_down) && String.eqb (upper side) "SELL"))%bool
    then Ok (vortex_adjustment * 1.1)
    else Ok vortex_adjustment
  else Ok 1.0.

(** The risk level (lines 477-478). *)
Definition risk_level_of (risk_percent : Q) : string :=
  if leb risk_percent 1.0 then "低"
  else if leb risk_percent 2.0 then "中"
  else "高".

(** The recommendation cascade (lines 499-511). *)
Definition recommend
    (risk_level : string) (quality_score : Q) (leverage : Z) (position_value : Q)
    : string * string :=
  if (String.eqb risk_level "高" && ltb quality_score 7.0)%bool
  then ("AVOID", "风险较高但质量评分不足")
  else if (Z.ltb 10 leverage && ltb quality_score 8.0)%bool
  then ("REDUCE_LEVERAGE", "杠杆过高但质量评分不足，建议降低杠杆")
  else if ltb position_value 10.0
  then ("INCREASE_SIZE", "仓位价值过小，建议增加仓位或选择其他交易机会")
  else ("PROCEED", "风险参数合理，可以执行交易").

(** The [try] block of [adaptive_risk_management] (lines 389-519). *)
Definition adaptive_risk_management_try
    (df : DataFrame) (account_balance quality_score : Q) (side : string)
    (leverage : Z) : result RiskDecision :=
  close <- column df "close" ;;
  current_price <- iloc_last close ;;
  '(trend, _, trend_info) <- get_smc_trend_and_duration df ;;
  let max_risk_percent :=
    if leb 8.0 quality_score then 3.0
    else if leb 6.0 quality_score then 2.5
    else 2.0 in
  conf <- get_confidence trend_info ;;
  let max_risk_percent :=
    if String.eqb conf "高" then max_risk_percent * 1.2
    else if String.eqb conf "低" then max_risk_percent * 0.8
    else max_risk_percent in
  vortex_adjustment <- vortex_adjustment_of df side ;;
  let max_risk_percent := max_risk_percent * vortex_adjustment in
  stop_loss_result <- advanced_smc_stop_loss (Some df) current_price leverage side ;;
  let stop_loss := sr_stop_loss stop_loss_result in
  let take_profit := sr_take_profit stop_loss_result in
  position_result <-
    calculate_position_size account_balance current_price stop_loss
                            max_risk_percent leverage ;;
  let min_position_value := 50.0 in
  position_result <-
    (if ltb (pr_position_value position_result) min_position_value then
       position_size <- div min_position_value current_price ;;
       Ok {| pr_position_size := position_size;
             pr_position_value := min_position_value;
             pr_risk_amount := pr_risk_amount position_result;
             pr_risk_percent := pr_risk_percent position_result;
             pr_unit_risk := pr_unit_risk position_result;
             pr_leverage := pr_leverage position_result |}
     else Ok position_result) ;;
  let environment := if String.eqb trend "NEUTRAL" then "ranging" else "trending" in
  let trailing_stop_params :=
    calculate_trailing_stop_params quality_score trend (Some environment) in
  let risk_level := risk_level_of (pr_risk_percent position_result) in
  let '(recommendation, reason) :=
    recommend risk_level quality_score leverage
              (pr_position_value position_result) in
  Ok {| rd_entry_price := current_price;
        rd_stop_loss := stop_loss;
        rd_take_profit := take_profit;
        rd_position_size := pr_position_size position_result;
        rd_position_value := pr_position_value position_result;
        rd_max_risk_percent := max_risk_percent;
        rd_actual_risk_percent := pr_risk_percent position_result;
        rd_risk_level := risk_level;
        rd_leverage := leverage;
        rd_risk_reward_ratio := sr_risk_reward_ratio stop_loss_result;
        rd_trailing_stop := trailing_stop_params;
        rd_quality_score := quality_score;
        rd_trend := trend;
        rd_trend_confidence := conf;
        rd_vortex_adjustment := vortex_adjustment;
        rd_recommendation := recommendation;
        rd_recommendation_reason := reason |}.

(** [adaptive_risk_management]: the handler of lines 520-526 turns every
    exception into an AVOID dictionary, so the function itself never raises. *)
Definition adaptive_risk_management
    (df : DataFrame) (account_balance quality_score : Q) (side : string)
    (leverage : Z) : AdaptiveResult :=
  match adaptive_risk_management_try df account_balance quality_score side leverage with
  | Ok r => Analysis r
  | Raise e => Failure e "AVOID" "风险分析失败，建议避免交易"
  end.

End Risk.

End RiskManagement.

(** ** [simple_trading_bot.py]: the position lifecycle of [EnhancedTradingBot] *)

Module TradingBot.
Import Py.

(** A float that may be [float('inf')]: the [lowest_price] of a LONG record. *)
Inductive xfloat : Type :=
| Finite (q : Q)
| Infinity.

(** A position dictionary of [self.open_positions].  [symbol], [entry_price]
    and [quantity] are read with [pos[...]]; every other key is read with
    [pos.get(key, default)], so it is optional here.  [position_id] keeps the
    three parts of the formatted string. *)
Record Position : Type := {
  symbol : string;
  side : option string;
  position_side : option string;
  entry_price : Q;
  quantity : Q;
  open_time : option Q;
  last_update_time : option Q;
  max_profit : option Q;
  initial_stop_loss : option Q;
  trailing_activation : option Q;
  trailing_distance : option Q;
  trailing_active : option bool;
  highest_price : option Q;
  lowest_price : option xfloat;
  current_stop_level : option Q;
  position_id : option (string * string * Z)
}.

(** *** Reading a record the way the supervisor does (lines 1755-1767) *)

Definition get_position_side (pos : Position) : string :=
  match position_side pos with Some s => s | None => "LONG" end.

Definition is_long (pos : Position) : bool :=
  String.eqb (get_position_side pos) "LONG".

Definition get_initial_stop_loss (pos : Position) : Q :=
  match initial_stop_loss pos with Some x => x | None => - 0.0175 end.

Definition get_trailing_activation (pos : Position) : Q :=
  match trailing_activation pos with Some x => x | None => 0.012 end.

Definition get_trailing_distance (pos : Position) : Q :=
  match trailing_distance pos with Some x => x | None => 0.003 end.

Definition get_trailing_active (pos : Position) : bool :=
  match trailing_active pos with Some b => b | None => false end.

Definition get_highest_price (pos : Position) : Q :=
  match highest_price pos with
  | Some x => x
  | None => if is_long pos then entry_price pos else 0
  end.

Definition get_lowest_price (pos : Position) : xfloat :=
  match lowest_price pos with
  | Some x => x
  | None =>
      if String.eqb (get_position_side pos) "SHORT"
      then Finite (entry_price pos)
      else Infinity
  end.

Definition get_current_stop_level (pos : Position) : Q :=
  match current_stop_level pos with
  | Some x => x
  | None =>
      if is_long pos
      then entry_price pos * (1 + get_initial_stop_loss pos)
      else entry_price pos * (1 - get_initial_stop_loss pos)
  end.

(** *** Writing a key: [pos[key] = value] *)

Definition set_highest_price (pos : Position) (v : Q) : Position :=
  {| symbol := symbol pos; side := side pos; position_side := position_side pos;
     entry_price := entry_price pos; quantity := quantity pos;
     open_time := open_time pos; last_update_time := last_update_time pos;
     max_profit := max_profit pos; initial_stop_loss := initial_stop_loss pos;
     trailing_activation := trailing_activation pos;
     trailing_distance := trailing_distance pos;
     trailing_active := trailing_active pos;
     highest_price := Some v;
     lowest_price := lowest_price pos;
     current_stop_level := current_stop_level pos;
     position_id := position_id pos |}.

Definition set_lowest_price (pos : Position) (v : Q) : Position :=
  {| symbol := symbol pos; side := side pos; position_side := position_side pos;
     entry_price := entry_price pos; quantity := quantity pos;
     open_time := open_time pos; last_update_time := last_update_time pos;
     max_profit := max_profit pos; initial_stop_loss := initial_stop_loss pos;
     trailing_activation := trailing_activation pos;
     trailing_distance := trailing_distance pos;
     trailing_active := trailing_active pos;
     highest_price := highest_price pos;
     lowest_price := Some (Finite v);
     current_stop_level := current_stop_level pos;
     position_id := position_id pos |}.

Definition set_trailing_active (pos : Position) (v : bool) : Position :=
  {| symbol := symbol pos; side := side pos; position_side := position_side pos;
     entry_price := entry_price pos; quantity := quantity pos;
     open_time := open_time pos; last_update_time := last_update_time pos;
     max_profit := max_profit pos; initial_stop_loss := initial_stop_loss pos;
     trailing_activation := trailing_activation pos;
     trailing_distance := trailing_distance pos;
     trailing_active := Some v;
     highest_price := highest_price pos;
     lowest_price := lowest_price pos;
     current_stop_level := current_stop_level pos;
     position_id := position_id pos |}.

Definition set_current_stop_level (pos : Position) (v : Q) : Position :=
  {| symbol := symbol pos; side := side pos; position_side := position_side pos;
     entry_price := entry_price pos; quantity := quantity pos;
     open_time := open_time pos; last_update_time := last_update_time pos;
     max_profit := max_profit pos; initial_stop_loss := initial_stop_loss pos;
     trailing_activation := trailing_activation pos;
     trailing_distance := trailing_distance pos;
     trailing_active := trailing_active pos;
     highest_price := highest_price pos;
     lowest_price := lowest_price pos;
     current_stop_level := Some v;
     position_id := position_id pos |}.

(** [current_price < lowest_price] and [lowest_price == 0] on a possibly
    infinite [lowest_price]. *)
Definition lt_xfloat (x : Q) (y : xfloat) : bool :=
  match y with Finite q => ltb x q | Infinity => true end.

Definition xfloat_is_zero (y : xfloat) : bool :=
  match y with Finite q => eqb q 0 | Infinity => false end.

(** *** The body of the supervisor loop for one position

    Lines 1777-1805 (LONG) and 1820-1847 (SHORT) of the second definition of
    [manage_open_positions], the one the class ends up with; the body of the
    second [active_position_monitor] (lines 1922-1950 and 1966-1993) performs
    the same reads, tests and writes.  The result is the record after the
    writes and whether the stop test asks for a close. *)
Definition process_position (pos : Position) (current_price : Q)
    : result (Position * bool) :=
  let entry_price := entry_price pos in
  let trailing_activation := get_trailing_activation pos in
  let trailing_distance := get_trailing_distance pos in
  let trailing_active := get_trailing_active pos in
  let highest_price := get_highest_price pos in
  let lowest_price := get_lowest_price pos in
  let current_stop_level := get_current_stop_level pos in
  if is_long pos then
    profit_pct <- div (current_price - entry_price) entry_price ;;
    let '(pos, current_stop_level) :=
      if ltb highest_price current_price then
        let highest_price := current_price in
        let pos := set_highest_price pos highest_price in
        let '(pos, trailing_active) :=
          if (negb trailing_active && leb trailing_activation profit_pct)%bool
          then (set_trailing_active pos true, true)
          else (pos, trailing_active) in
        if trailing_active then
          let new_stop_level := highest_price * (1 - trailing_distance) in
          if ltb current_stop_level new_stop_level
          then (set_current_stop_level pos new_stop_level, new_stop_level)
          else (pos, current_stop_level)
        else (pos, current_stop_level)
      else (pos, current_stop_level) in
    Ok (pos, leb current_price current_stop_level)
  else
    profit_pct <- div (entry_price - current_price) entry_price ;;
    let '(pos, current_stop_level) :=
      if (lt_xfloat current_price lowest_price || xfloat_is_zero lowest_price)%bool then
        let lowest_price := current_price in
        let pos := set_lowest_price pos lowest_price in
        let '(pos, trailing_active) :=
          if (negb trailing_active && leb trailing_activation profit_pct)%bool
          then (set_trailing_active pos true, true)
          else (pos, trailing_active) in
        if trailing_active then
          let new_stop_level := lowest_price * (1 + trailing_distance) in
          if (ltb new_stop_level current_stop_level || eqb current_stop_level 0)%bool
          then (set_current_stop_level pos new_stop_level, new_stop_level)
          else (pos, current_stop_level)
        else (pos, current_stop_level)
      else (pos, current_stop_level) in
    Ok (pos, (leb current_stop_level current_price && ltb 0 current_stop_level)%bool).

(** The same loop body in the first definitions of [manage_open_positions]
    (lines 132-156 and 173-196) and [active_position_monitor] (lines 340-366
    and 383-408), which the later definitions of the same names replace: the
    activation test comes first, outside the new-extreme branch. *)
Definition process_position_shadowed (pos : Position) (current_price : Q)
    : result (Position * bool) :=
  let entry_price := entry_price pos in
  let trailing_activation := get_trailing_activation pos in
  let trailing_distance := get_trailing_distance pos in
  let trailing_active := get_trailing_active pos in
  let highest_price := get_highest_price pos in
  let lowest_price := get_lowest_price pos in
  let current_stop_level := get_current_stop_level pos in
  if is_long pos then
    profit_pct <- div (current_price - entry_price) entry_price ;;
    let '(pos, trailing_active) :=
      if (negb trailing_active && leb trailing_activation profit_pct)%bool
      then (set_trailing_active pos true, true)
      else (pos, trailing_active) in
    let '(pos, current_stop_level) :=
      if ltb highest_price current_price then
        let pos := set_highest_price pos current_price in
        let highest_price := current_price in
        if trailing_active then
          let new_stop_level := highest_price * (1 - trailing_distance) in
          if ltb current_stop_level new_stop_level
          then (set_current_stop_level pos new_stop_level, new_stop_level)
          else (pos, current_stop_level)
        else (pos, current_stop_level)
      else (pos, current_stop_level) in
    Ok (pos, leb current_price current_stop_level)
  else
    profit_pct <- div (entry_price - current_price) entry_price ;;
    let '(pos, trailing_active) :=
      if (negb trailing_active && leb trailing_activation profit_pct)%bool
      then (set_trailing_active pos true, true)
      else (pos, trailing_active) in
    let '(pos, current_stop_level) :=
      if (lt_xfloat current_price lowest_price || xfloat_is_zero lowest_price)%bool then
        let pos := set_lowest_price pos current_price in
        let lowest_price := current_price in
        if trailing_active then
          let new_stop_level := lowest_price * (1 + trailing_distance) in
          if (ltb new_stop_level current_stop_level || eqb current_stop_level 0)%bool
          then (set_current_stop_level pos new_stop_level, new_stop_level)
          else (pos, current_stop_level)
        else (pos, current_stop_level)
      else (pos, current_stop_level) in
    Ok (pos, (leb current_stop_level current_price && ltb 0 current_stop_level)%bool).

(** *** Equality of position dictionaries ([pos in list], [list.remove(pos)]) *)

Definition eqb_option {A : Type} (e : A -> A -> bool) (x y : option A) : bool :=
  match x, y with
  | Some a, Some b => e a b
  | None, None => true
  | _, _ => false
  end.

Definition eqb_xfloat (x y : xfloat) : bool :=
  match x, y with
  | Finite a, Finite b => eqb a b
  | Infinity, Infinity => true
  | _, _ => false
  end.

Definition eqb_id (x y : string * string * Z) : bool :=
  let '(a, b, c) := x in
  let '(a', b', c') := y in
  (String.eqb a a' && String.eqb b b' && Z.eqb c c')%bool.

Definition Position_eqb (a b : Position) : bool :=
  (String.eqb (symbol a) (symbol b)
   && eqb_option String.eqb (side a) (side b)
   && eqb_option String.eqb (position_side a) (position_side b)
   && eqb (entry_price a) (entry_price b)
   && eqb (quantity a) (quantity b)
   && eqb_option eqb (open_time a) (open_time b)
   && eqb_option eqb (last_update_time a) (last_update_time b)
   && eqb_option eqb (max_profit a) (max_profit b)
   && eqb_option eqb (initial_stop_loss a) (initial_stop_loss b)
   && eqb_option eqb (trailing_activation a) (trailing_activation b)
   && eqb_option eqb (trailing_distance a) (trailing_distance b)
   && eqb_option Bool.eqb (trailing_active a) (trailing_active b)
   && eqb_option eqb (highest_price a) (highest_price b)
   && eqb_option eqb_xfloat (lowest_price a) (lowest_price b)
   && eqb_option eqb (current_stop_level a) (current_stop_level b)
   && eqb_option eqb_id (position_id a) (position_id b))%bool.

(** [if pos in l: l.remove(pos)]: drops the first element equal to [pos]. *)
Fixpoint remove_first (pos : Position) (l : list Position) : list Position :=
  match l with
  | [] => []
  | x :: tl => if Position_eqb x pos then tl else x :: remove_first pos tl
  end.

Definition remove_all (gone l : list Position) : list Position :=
  fold_left (fun acc pos => remove_first pos acc) gone l.

(** *** [record_position_with_trailing_stop] (lines 1663-1741)

    [now] is the value of [time.time()]; the calls made while one position is
    recorded are read as one instant. *)

Definition position_side_of (side : string) : string :=
  if String.eqb (upper side) "BUY" then "LONG" else "SHORT".

(** The merge of a fill into the record of the same pair (lines 1683-1697). *)
Definition merge_position
    (pos : Position) (position_side' : string)
    (entry_price' quantity' initial_stop_loss' trailing_activation'
     trailing_distance' now : Q) : result Position :=
  let total_qty := quantity pos + quantity' in
  new_entry <- div (entry_price pos * quantity pos + entry_price' * quantity') total_qty ;;
  Ok {| symbol := symbol pos;
        side := side pos;
        position_side := position_side pos;
        entry_price := new_entry;
        quantity := total_qty;
        open_time := open_time pos;
        last_update_time := Some now;
        max_profit := max_profit pos;
        initial_stop_loss := Some initial_stop_loss';
        trailing_activation := Some trailing_activation';
        trailing_distance := Some trailing_distance';
        trailing_active := Some false;
        highest_price :=
          Some (if String.eqb position_side' "LONG" then new_entry else 0);
        lowest_price :=
          Some (if String.eqb position_side' "SHORT" then Finite new_entry else Infinity);
        current_stop_level :=
          Some (if String.eqb position_side' "LONG"
                then new_entry * (1 + initial_stop_loss')
                else new_entry * (1 - initial_stop_loss'));
        position_id := position_id pos |}.

(** The dictionary of a new position (lines 1709-1730). *)
Definition new_position
    (symbol' side' position_side' : string)
    (entry_price' quantity' initial_stop_loss' trailing_activation'
     trailing_distance' now : Q) : Position :=
  let initial_stop_price :=
    if String.eqb position_side' "LONG"
    then entry_price' * (1 + initial_stop_loss')
    else entry_price' * (1 - initial_stop_loss') in
  {| symbol := symbol';
     side := Some side';
     position_side := Some position_side';
     entry_price := entry_price';
     quantity := quantity';
     open_time := Some now;
     last_update_time := Some now;
     max_profit := Some 0.0;
     initial_stop_loss := Some initial_stop_loss';
     trailing_activation := Some trailing_activation';
     trailing_distance := Some trailing_distance';
     trailing_active := Some false;
     highest_price := Some (if String.eqb position_side' "LONG" then entry_price' else 0);
     lowest_price :=
       Some (if String.eqb position_side' "SHORT" then Finite entry_price' else Infinity);
     current_stop_level := Some initial_stop_price;
     position_id := Some (symbol', position_side', Qfloor now) |}.

(** [pos["symbol"] == symbol and pos.get("position_side", None) == position_side] *)
Definition same_pair (pos : Position) (symbol' position_side' : string) : bool :=
  (String.eqb (symbol pos) symbol'
   && eqb_option String.eqb (position_side pos) (Some position_side'))%bool.

(** The scan of [self.open_positions]: the first record of the pair is
    rewritten in place and the function returns; without one the new record
    is appended.  [Raise] leaves the list as it was (the division precedes
    every write). *)
Fixpoint record_scan
    (open_positions : list Position) (symbol' side' position_side' : string)
    (entry_price' quantity' initial_stop_loss' trailing_activation'
     trailing_distance' now : Q) : result (list Position) :=
  match open_positions with
  | [] =>
      Ok [new_position symbol' side' position_side' entry_price' quantity'
                       initial_stop_loss' trailing_activation'
                       trailing_distance' now]
  | pos :: tl =>
      if same_pair pos symbol' position_side' then
        merged <- merge_position pos position_side' entry_price' quantity'
                                 initial_stop_loss' trailing_activation'
                                 trailing_distance' now ;;
        Ok (merged :: tl)
      else
        tl' <- record_scan tl symbol' side' position_side' entry_price' quantity'
                           initial_stop_loss' trailing_activation'
                           trailing_distance' now ;;
        Ok (pos :: tl')
  end.

Definition record_position_with_trailing_stop
    (open_positions : list Position) (symbol' side' : string)
    (entry_price' quantity' initial_stop_loss' trailing_activation'
     trailing_distance' now : Q) : result (list Position) :=
  let position_side' := position_side_of side' in
  record_scan open_positions symbol' side' position_side' entry_price' quantity'
              initial_stop_loss' trailing_activation' trailing_distance' now.

(** *** [place_futures_order_usdc], once the market order is accepted

    The trailing parameters of lines 1136-1148 and the recording call of
    lines 1314-1322.  [current_price] and [quantity'] are the ticker price and
    the rounded quantity of the order, [upside_potential] the value of
    [calculate_upside_potential]. *)
Definition place_futures_order_usdc_filled
    (open_positions : list Position) (symbol' side' : string)
    (current_price quantity' upside_potential now : Q)
    : result (list Position) :=
  let initial_stop_loss := 0.008 in
  let trailing_activation_threshold := 0.012 in
  let trailing_distance := if ltb 0.05 upside_potential then 0.004 else 0.002 in
  record_position_with_trailing_stop open_positions symbol' side' current_price quantity'
    (if String.eqb (upper side') "SELL" then initial_stop_loss else - initial_stop_loss)
    trailing_activation_threshold trailing_distance now.

(** *** [close_position] (lines 2135-2237) *)

(** The positions [close_position] selects (lines 2140-2143). *)
Definition selected (symbol' : string) (position_side' : option string)
    (pos : Position) : bool :=
  (String.eqb (symbol pos) symbol'
   && match position_side' with
      | None => true
      | Some s => String.eqb (get_position_side pos) s
      end)%bool.

(** The inner [try] for one position (lines 2161-2222).  [fill pos] is what
    the exchange calls produced: the exit price when the lot-size query, the
    market order and the ticker query all returned, [None] when one of them
    raised.  The profit computation that follows divides by the entry price;
    a failure there is caught by the same handler. *)
Definition close_succeeds (fill : Position -> option Q) (pos : Position) : bool :=
  match fill pos with
  | None => false
  | Some exit_price =>
      if is_long pos
      then is_ok (div (exit_price - entry_price pos) (entry_price pos))
      else is_ok (div (entry_price pos - exit_price) (entry_price pos))
  end.

Record CloseOutcome : Type := {
  co_list : list Position;
  co_reloaded : option (list Position);
  co_success : bool;
  co_closed : list Position
}.

(** [co_list] is the list object [self.open_positions] named at the call,
    after the removals of lines 2225-2227; [co_reloaded] is the list
    [load_positions] returned at line 2230, to which [self.open_positions] is
    then rebound ([None]: the reload did not run or raised); [co_success] and
    [co_closed] are the returned pair. *)
Definition close_position
    (open_positions : list Position) (symbol' : string)
    (position_side' : option string)
    (fill : Position -> option Q) (reload : result (list Position))
    : CloseOutcome :=
  let positions_to_close := filter (selected symbol' position_side') open_positions in
  match positions_to_close with
  | [] => {| co_list := open_positions; co_reloaded := None;
             co_success := false; co_closed := [] |}
  | _ :: _ =>
      let closed_positions := filter (close_succeeds fill) positions_to_close in
      let success := match closed_positions with [] => false | _ :: _ => true end in
      let remaining := remove_all closed_positions open_positions in
      match reload with
      | Ok loaded => {| co_list := remaining; co_reloaded := Some loaded;
                        co_success := success; co_closed := closed_positions |}
      | Raise _ => {| co_list := remaining; co_reloaded := None;
                      co_success := false; co_closed := [] |}
      end
  end.

(** [self.open_positions] after the call. *)
Definition open_positions_after (co : CloseOutcome) : list Position :=
  match co_reloaded co with
  | Some loaded => loaded
  | None => co_list co
  end.

(** *** [manage_open_positions] (lines 1743-1877)

    What the exchange and the position module answer during one call: the
    two reloads of lines 1745 and 1877, and for the iteration that visits
    index [i] of the walked list the ticker answer ([None]: the query
    raised), the answers to the close orders and the reload inside
    [close_position]. *)
Record Env : Type := {
  load_start : result (list Position);
  price_at : nat -> option Q;
  fill_at : nat -> Position -> option Q;
  reload_at : nat -> result (list Position);
  load_end : result (list Position)
}.

(** The loop walks the list object bound at line 1754.  [close_position]
    removes from that object only while [self.open_positions] still names it;
    after its reload the attribute names another list ([rebound]). *)
Record Loop : Type := {
  walk : list Position;
  rebound : option (list Position);
  positions_to_remove : list Position
}.

Definition self_open_positions (st : Loop) : list Position :=
  match rebound st with
  | Some l => l
  | None => walk st
  end.

(** [l[i] = pos'] for the record the loop variable names. *)
Fixpoint write_at (l : list Position) (i : nat) (pos' : Position) : list Position :=
  match l, i with
  | [], _ => []
  | _ :: tl, O => pos' :: tl
  | x :: tl, S j => x :: write_at tl j pos'
  end.

(** The writes of the loop body land in the record at index [i] of the
    walked list. *)
Definition write_back (st : Loop) (i : nat) (pos' : Position) : Loop :=
  {| walk := write_at (walk st) i pos';
     rebound := rebound st;
     positions_to_remove := positions_to_remove st |}.

(** One iteration, at index [i] (lines 1754-1869). *)
Definition manage_step (env : Env) (i : nat) (pos : Position) (st : Loop)
    : result Loop :=
  match price_at env i with
  | None => Ok st
  | Some current_price =>
      '(pos', triggered) <- process_position pos current_price ;;
      let st := write_back st i pos' in
      if triggered then
        let co := close_position (self_open_positions st) (symbol pos')
                                 (Some (get_position_side pos'))
                                 (fill_at env i) (reload_at env i) in
        let to_remove :=
          if co_success co
          then (positions_to_remove st ++ [pos'])%list
          else positions_to_remove st in
        match rebound st with
        | None => Ok {| walk := co_list co;
                        rebound := co_reloaded co;
                        positions_to_remove := to_remove |}
        | Some _ => Ok {| walk := walk st;
                          rebound := Some (open_positions_after co);
                          positions_to_remove := to_remove |}
        end
      else Ok st
  end.

(** The [for] loop from index [i] on; [fuel] bounds the iterations by the
    length of the walked list, which never grows. *)
Fixpoint manage_loop (env : Env) (fuel i : nat) (st : Loop) : Loop * option exn :=
  match fuel with
  | O => (st, None)
  | S fuel' =>
      match nth_error (walk st) i with
      | None => (st, None)
      | Some pos =>
          match manage_step env i pos st with
          | Ok st' => manage_loop env fuel' (S i) st'
          | Raise e => (st, Some e)
          end
      end
  end.

(** [self.open_positions] when the call ends, and the exception it ends
    with, if any. *)
Definition manage_open_positions (env : Env) (open_positions : list Position)
    : list Position * option exn :=
  match load_start env with
  | Raise e => (open_positions, Some e)
  | Ok [] => ([], None)
  | Ok l0 =>
      match manage_loop env (List.length l0) 0
                        {| walk := l0; rebound := None; positions_to_remove := [] |} with
      | (st, Some e) => (self_open_positions st, Some e)
      | (st, None) =>
          let kept := remove_all (positions_to_remove st) (self_open_positions st) in
          match load_end env with
          | Ok l => (l, None)
          | Raise e => (kept, Some e)
          end
      end
  end.

(** *** Successive ticks on one record

    The records one position goes through when the loop body runs on it at
    the prices [prices], one after the other, and nothing else writes to it
    in between.  A tick whose profit computation raises leaves the record as
    it was: the division precedes every write. *)
Definition tick (pos : Position) (current_price : Q) : Position :=
  match process_position pos current_price with
  | Ok (pos', _) => pos'
  | Raise _ => pos
  end.

Fixpoint supervise (pos : Position) (prices : list Q) : list Position :=
  match prices with
  | [] => []
  | current_price :: later =>
      let pos' := tick pos current_price in
      pos' :: supervise pos' later
  end.

(** *** The loop body in two steps: two schedules on one record

    [trade] starts [active_position_monitor] in a thread of its own (lines
    1355-1357) and then runs [manage_open_positions] in its loop; no lock is
    taken anywhere.  Each of the two reloads and rebinds
    [self.open_positions] and then walks it (lines 1745 and 1754; 1893-1898,
    over a shallow copy), so both can walk the same dictionaries.  On one
    record the loop body first reads the record into local variables (lines
    1755-1767; 1899-1912), then waits for the exchange to answer the ticker
    query (lines 1770-1772; 1915-1917), and only then compares and writes:
    the tests read the locals, the writes go to the record (lines 1777-1847;
    1922-1993). *)
Record Locals : Type := {
  local_position_side : string;
  local_entry_price : Q;
  local_trailing_activation : Q;
  local_trailing_distance : Q;
  local_trailing_active : bool;
  local_highest_price : Q;
  local_lowest_price : xfloat;
  local_current_stop_level : Q
}.

(** The reads of lines 1755-1767 (1899-1912). *)
Definition read_locals (pos : Position) : Locals :=
  {| local_position_side := get_position_side pos;
     local_entry_price := entry_price pos;
     local_trailing_activation := get_trailing_activation pos;
     local_trailing_distance := get_trailing_distance pos;
     local_trailing_active := get_trailing_active pos;
     local_highest_price := get_highest_price pos;
     local_lowest_price := get_lowest_price pos;
     local_current_stop_level := get_current_stop_level pos |}.

(** Lines 1777-1847 (1922-1993), run with the locals read earlier on the
    record as it is by now. *)
Definition compare_and_write
    (locals : Locals) (pos : Position) (current_price : Q)
    : result (Position * bool) :=
  let entry_price := local_entry_price locals in
  let trailing_activation := local_trailing_activation locals in
  let trailing_distance := local_trailing_distance locals in
  let trailing_active := local_trailing_active locals in
  let highest_price := local_highest_price locals in
  let lowest_price := local_lowest_price locals in
  let current_stop_level := local_current_stop_level locals in
  if String.eqb (local_position_side locals) "LONG" then
    profit_pct <- div (current_price - entry_price) entry_price ;;
    let '(pos, current_stop_level) :=
      if ltb highest_price current_price then
        let highest_price := current_price in
        let pos := set_highest_price pos highest_price in
        let '(pos, trailing_active) :=
          if (negb trailing_active && leb trailing_activation profit_pct)%bool
          then (set_trailing_active pos true, true)
          else (pos, trailing_active) in
        if trailing_active then
          let new_stop_level := highest_price * (1 - trailing_distance) in
          if ltb current_stop_level new_stop_level
          then (set_current_stop_level pos new_stop_level, new_stop_level)
          else (pos, current_stop_level)
        else (pos, current_stop_level)
      else (pos, current_stop_level) in
    Ok (pos, leb current_price current_stop_level)
  else
    profit_pct <- div (entry_price - current_price) entry_price ;;
    let '(pos, current_stop_level) :=
      if (lt_xfloat current_price lowest_price || xfloat_is_zero lowest_price)%bool then
        let lowest_price := current_price in
        let pos := set_lowest_price pos lowest_price in
        let '(pos, trailing_active) :=
          if (negb trailing_active && leb trailing_activation profit_pct)%bool
          then (set_trailing_active pos true, true)
          else (pos, trailing_active) in
        if trailing_active then
          let new_stop_level := lowest_price * (1 + trailing_distance) in
          if (ltb new_stop_level current_stop_level || eqb current_stop_level 0)%bool
          then (set_current_stop_level pos new_stop_level, new_stop_level)
          else (pos, current_stop_level)
        else (pos, current_stop_level)
      else (pos, current_stop_level) in
    Ok (pos, (leb current_stop_level current_price && ltb 0 current_stop_level)%bool).

(** The candidate stop a tick computes from its locals when it stores a new
    extreme on an armed record (lines 1796 and 1838). *)
Definition candidate_stop (locals : Locals) (current_price : Q) : Q :=
  if String.eqb (local_position_side locals) "LONG"
  then current_price * (1 - local_trailing_distance locals)
  else current_price * (1 + local_trailing_distance locals).

(** Two ticks of the two schedules on one record, one after the other: the
    second reads the record after the writes of the first. *)
Definition serial_ticks (pos : Position) (first_price second_price : Q)
    : result Position :=
  '(pos1, _) <- compare_and_write (read_locals pos) pos first_price ;;
  '(pos2, _) <- compare_and_write (read_locals pos1) pos1 second_price ;;
  Ok pos2.

(** The same two ticks when both schedules have read the record before
    either writes: the second compares with locals read before the writes of
    the first, and writes to the record the first has written. *)
Definition interleaved_ticks (pos : Position) (first_price second_price : Q)
    : result Position :=
  let first_locals := read_locals pos in
  let second_locals := read_locals pos in
  '(pos1, _) <- compare_and_write first_locals pos first_price ;;
  '(pos2, _) <- compare_and_write second_locals pos1 second_price ;;
  Ok pos2.

End TradingBot.

(** ** [simple_trading_bot.py]: sizing, retry and cache helpers *)

Module BotUtilities.
Import Py RiskManagement.

(** *** [calculate_leverage_from_quality] (lines 1081-1096) *)
Definition calculate_leverage_from_quality (quality_score : Q) : Z :=
  if leb 9.0 quality_score then 20
  else if leb 8.0 quality_score then 15
  else if leb 7.0 quality_score then 10
  else if leb 6.0 quality_score then 8
  else if leb 5.0 quality_score then 5
  else if leb 4.0 quality_score then 3
  else 2.

(** *** [calculate_dynamic_order_amount] (lines 229-255) *)
Definition calculate_dynamic_order_amount (risk account_balance : Q) : Q :=
  let base_pct := 5.0 in
  let adjusted_pct :=
    if ltb 0.05 risk then base_pct * 0.6
    else if ltb 0.03 risk then base_pct * 0.8
    else if ltb risk 0.01 then base_pct * 1.2
    else base_pct in
  let order_amount := account_balance * (adjusted_pct / 100) in
  let min_amount := 5.0 in
  let max_amount := account_balance * 0.1 in
  max2 min_amount (min2 order_amount max_amount).

(** *** The amount limits of [place_futures_order_usdc] (lines 1150-1161)

    [min_amount] is the configured [MIN_NOTIONAL] (5 when absent). *)
Definition place_futures_order_usdc_amount
    (amount account_balance min_amount : Q) : Q :=
  let max_allowed_amount := account_balance * 0.05 in
  let amount :=
    if ltb max_allowed_amount amount then max_allowed_amount else amount in
  if (ltb amount min_amount && leb min_amount account_balance)%bool
  then min_amount
  else amount.

(** *** The margin check of [place_futures_order_usdc] (lines 1225-1229)

    [false] is the early [return False]. *)
Definition margin_sufficient
    (amount : Q) (leverage : Z) (account_balance : Q) : result bool :=
  margin_required <- div amount (inject_Z leverage) ;;
  Ok (negb (ltb account_balance margin_required)).

(** *** [is_near_resistance] and [is_near_support] (lines 443-456, 693-706) *)

(** [for level in levels: if abs(price - level) / price < threshold: return
    True]; [Ok false] when the loop finds none. *)
Fixpoint near_any (price threshold : Q) (levels : list Q) : result bool :=
  match levels with
  | [] => Ok false
  | level :: later =>
      distance <- div (Qabs (price - level)) price ;;
      if ltb distance threshold then Ok true
      else near_any price threshold later
  end.

(** [fib_levels] may be [None]; an empty list is false as well. *)
Definition is_near_resistance
    (price : Q) (swing_highs : list Q) (fib_levels : option (list Q))
    (threshold : Q) : result bool :=
  near_swing <- near_any price threshold swing_highs ;;
  if near_swing then Ok true
  else
    match fib_levels with
    | Some (l :: tl) =>
        if Nat.leb 3 (List.length (l :: tl))
        then near_any price threshold (l :: tl)
        else Ok false
    | _ => Ok false
    end.

Definition is_near_support
    (price : Q) (swing_lows : list Q) (fib_levels : option (list Q))
    (threshold : Q) : result bool :=
  near_swing <- near_any price threshold swing_lows ;;
  if near_swing then Ok true
  else
    match fib_levels with
    | Some (l :: tl) =>
        if Nat.leb 3 (List.length (l :: tl))
        then near_any price threshold (l :: tl)
        else Ok false
    | _ => Ok false
    end.

(** *** [execute_with_retry] (lines 2382-2394)

    [func k] is what the call made at attempt [k] did.  The outcome is what
    the function did, the number of calls made and the seconds slept between
    them, in order.  [Ok (Some v)] is the [return func(...)] of line 2386
    with the call's value [v], whatever it is (Python's [None] included);
    [Ok None] is the end of the loop without any call, after which the
    function returns [None] as well; [Raise e] is the [raise] of line
    2394. *)
Record RetryOutcome (A : Type) : Type := {
  returned : result (option A);
  calls : nat;
  slept : list Z
}.

Arguments returned {A} _.
Arguments calls {A} _.
Arguments slept {A} _.

(** The loop from attempt [attempt] on, with [remaining] attempts left of
    [range(max_retries)]. *)
Fixpoint retry_loop {A : Type} (func : nat -> result A)
    (remaining attempt : nat) : RetryOutcome A :=
  match remaining with
  | O => {| returned := Ok None; calls := 0; slept := [] |}
  | S rest =>
      match func attempt with
      | Ok v => {| returned := Ok (Some v); calls := 1; slept := [] |}
      | Raise e =>
          match rest with
          | O => {| returned := Raise e; calls := 1; slept := [] |}
          | S _ =>
              let later := retry_loop func rest (S attempt) in
              {| returned := returned later;
                 calls := S (calls later);
                 slept := (2 ^ Z.of_nat attempt)%Z :: slept later |}
          end
      end
  end.

Definition execute_with_retry {A : Type} (func : nat -> result A)
    (max_retries : Z) : RetryOutcome A :=
  retry_loop func (Z.to_nat max_retries) 0.

(** *** [check_and_reconnect_api] (lines 257-294)

    [ping] is whether the first [self.client.ping()] returned;
    [has_credentials] whether the object has the attributes [api_key] and
    [api_secret] that the reconnection reads; [reconnect k] whether building
    a client and pinging it returned at attempt [k].  The result is the value
    returned and the seconds slept. *)
Fixpoint reconnect_loop (has_credentials : bool) (reconnect : nat -> bool)
    (remaining attempt : nat) : bool * list Z :=
  match remaining with
  | O => (false, [])
  | S rest =>
      if (has_credentials && reconnect attempt)%bool then (true, [])
      else
        let '(reconnected, naps) :=
          reconnect_loop has_credentials reconnect rest (S attempt) in
        (reconnected, (5 * (Z.of_nat attempt + 1))%Z :: naps)
  end.

Definition check_and_reconnect_api
    (ping has_credentials : bool) (reconnect : nat -> bool) : bool * list Z :=
  if ping then (true, [])
  else
    let retry_count := 3%nat in
    reconnect_loop has_credentials reconnect retry_count 0.

(** [__init__] (lines 46-95) builds the client from the two keys and keeps
    the client only: the object it leaves has no [api_key] attribute. *)
Definition init_has_credentials : bool := false.

(** *** [get_historical_data_with_cache] (lines 772-806) *)

Record CacheItem : Type := {
  data : DataFrame;
  timestamp : Q
}.

(** [self.historical_data_cache]: a dictionary keyed by strings. *)
Definition Cache : Type := list (string * CacheItem).

Fixpoint cache_get (cache : Cache) (key : string) : option CacheItem :=
  match cache with
  | [] => None
  | (k, item) :: later =>
      if String.eqb k key then Some item else cache_get later key
  end.

(** [cache[key] = item] *)
Fixpoint cache_set (cache : Cache) (key : string) (item : CacheItem) : Cache :=
  match cache with
  | [] => [(key, item)]
  | (k, old) :: later =>
      if String.eqb k key then (k, item) :: later
      else (k, old) :: cache_set later key item
  end.

(** [f"{symbol}_{interval}_{limit}"] *)
Definition cache_key (symbol interval : string) (limit : Z) : string :=
  symbol ++ "_" ++ interval ++ "_" ++ NilZero.string_of_int (Z.to_int limit).

(** [df.empty]: no row or no column. *)
Definition frame_empty (df : DataFrame) : bool :=
  (Nat.eqb (nrows df) 0
   || match columns df with [] => true | _ :: _ => false end)%bool.

(** [fetched] is what [get_historical_data] did when it is called; the
    result is the frame returned and the cache afterwards. *)
Definition get_historical_data_with_cache
    (cache : Cache) (trade_cycle : Z) (symbol interval : string) (limit : Z)
    (force_refresh : bool) (current_time : Q)
    (fetched : result (option DataFrame)) : option DataFrame * Cache :=
  let key := cache_key symbol interval limit in
  let cache_ttl := 300 in
  let hourly_force_refresh := Z.eqb (trade_cycle mod 12) 0 in
  let fetch :=
    match fetched with
    | Ok (Some df) =>
        if negb (frame_empty df)
        then (Some df,
              cache_set cache key {| data := df; timestamp := current_time |})
        else (None, cache)
    | Ok None => (None, cache)
    | Raise _ => (None, cache)
    end in
  if (negb force_refresh && negb hourly_force_refresh)%bool then
    match cache_get cache key with
    | Some cache_item =>
        if ltb (current_time - timestamp cache_item) cache_ttl
        then (Some (data cache_item), cache)
        else fetch
    | None => fetch
    end
  else fetch.

End BotUtilities.

(** ** Instances of the parameters, for the closed examples *)

Module Instances.
Import Py RiskManagement TradingBot.

(** [n ** 0.5] truncated to 15 decimals: exact on perfect squares.  A
    negative [n], for which Python answers with a complex number, is outside
    the model. *)
Definition pow_half_15 (n : Z) : Q :=
  Qred (Qmake (Z.sqrt (n * 10 ^ 30)) (10 ^ 15)).

(** An indicator module that finds no swing point and no Fibonacci level
    and reports a rising trend of medium confidence. *)
Definition no_swing_points (_ : DataFrame) : result (list Q * list Q) :=
  Ok ([], []).

Definition trend_up_medium (_ : DataFrame) : result (string * Q * TrendInfo) :=
  Ok ("UP", 0, {| confidence := Some "中" |}).

Definition no_fibonacci (_ : DataFrame) : result (list Q) := Ok [].

(** An indicator module whose every call raises. *)
Definition swing_points_fail (_ : DataFrame) : result (list Q * list Q) :=
  Raise (ExternalError "find_swing_points").

(** A one-row frame with a closing price of 100. *)
Definition one_row_frame : DataFrame :=
  {| nrows := 1; columns := [("close", [100])] |}.

(** Twenty rows of the same closing price. *)
Definition flat_frame : DataFrame :=
  {| nrows := 20; columns := [("close", repeat 100 20)] |}.

(** A LONG record that has seen 110 from an entry at 100 without being
    armed: [highest_price] is above the entry and [trailing_active] is false. *)
Definition unarmed_long_110 : Position :=
  {| symbol := "BTCUSDT";
     side := Some "BUY";
     position_side := Some "LONG";
     entry_price := 100;
     quantity := 1;
     open_time := Some 1000;
     last_update_time := Some 1000;
     max_profit := Some 0.0;
     initial_stop_loss := Some (-0.008);
     trailing_activation := Some 0.012;
     trailing_distance := Some 0.003;
     trailing_active := Some false;
     highest_price := Some 110;
     lowest_price := Some Infinity;
     current_stop_level := Some 99.2;
     position_id := Some ("BTCUSDT", "LONG", 1000%Z) |}.

(** An exchange on which every ticker query answers [price], every close
    order is rejected, and the position module reports [reported] from then
    on. *)
Definition rejecting_exchange
    (held : list Position) (price : Q) (reported : list Position) : Env :=
  {| load_start := Ok held;
     price_at := fun _ => Some price;
     fill_at := fun _ _ => None;
     reload_at := fun _ => Ok reported;
     load_end := Ok reported |}.

(** A LONG record as [place_futures_order_usdc] leaves it for a BUY fill
    of 1 unit at 100. *)
Definition fresh_long_100 : Position :=
  new_position "BTCUSDT" "BUY" "LONG" 100 1 (-0.008) 0.012 0.002 1000.

(** A SHORT record for a SELL fill of 1 unit at 100. *)
Definition short_eth_100 : Position :=
  new_position "ETHUSDT" "SELL" "SHORT" 100 1 0.008 0.012 0.002 1000.

(** A record whose entry price is 0. *)
Definition zero_entry_record : Position :=
  new_position "XRPUSDT" "BUY" "LONG" 0 1 (-0.008) 0.012 0.002 1000.

(** An exchange on which every ticker query answers [price], every close
    order is filled at [price], and the position module reports [reported]
    from then on. *)
Definition accepting_exchange
    (held : list Position) (price : Q) (reported : list Position) : Env :=
  {| load_start := Ok held;
     price_at := fun _ => Some price;
     fill_at := fun _ _ => Some price;
     reload_at := fun _ => Ok reported;
     load_end := Ok reported |}.

End Instances.

(** ** The statements of the specification, in its own words *)

Module Spec.
Import Py RiskManagement TradingBot.

(** The default fallback of the stop calculator, in the words of the
    specification: the 3% offset is adjusted by the leverage ([adjustedPct =
    basePct / sqrt(leverage)]), the stop lies that fraction of the entry away
    on the protective side, the target twice that risk away on the other side
    ([takeProfit = entry +/- risk * multiplier]), and the result carries the
    tag [default_leveraged] and the ratio 2.0. *)
Definition is_default_fallback
    (pow_half : Z -> Q) (entry_price : Q) (leverage : Z) (side : string)
    (r : StopResult) : Prop :=
  let adjusted_pct := 0.03 / pow_half leverage in
  let risk := entry_price * adjusted_pct in
  (if is_buy side
   then sr_stop_loss r == entry_price - risk /\
        sr_take_profit r == entry_price + risk * 2
   else sr_stop_loss r == entry_price + risk /\
        sr_take_profit r == entry_price - risk * 2) /\
  sr_method r = "default_leveraged" /\
  sr_risk_reward_ratio r == 2.

(** A usable stop/target pair for an entry: the stop on the protective side
    of the entry price (below it for a buy, above it otherwise) and the
    target on the other side. *)
Definition usable_pair (entry_price : Q) (side : string) (r : StopResult)
  : Prop :=
  if is_buy side
  then sr_stop_loss r < entry_price /\ entry_price < sr_take_profit r
  else sr_take_profit r < entry_price /\ entry_price < sr_stop_loss r.

(** Structural data absent or insufficient: no frame, or fewer than 20
    observations. *)
Definition insufficient (df : option DataFrame) : Prop :=
  match df with
  | None => True
  | Some d => (nrows d < 20)%nat
  end.

(** The recommendation rules, first match wins: high risk (more than 2% of
    the balance) with quality below 7 avoids; leverage above 10 with quality
    below 8 reduces leverage; a position value below the floor of 10 asks for
    a larger size; anything else proceeds. *)
Definition first_matching_rule
    (actual_risk_percent quality_score : Q) (leverage : Z) (position_value : Q)
    : string :=
  match Qlt_le_dec 2 actual_risk_percent, Qlt_le_dec quality_score 7 with
  | left _, left _ => "AVOID"
  | _, _ =>
    match Z_lt_dec 10 leverage, Qlt_le_dec quality_score 8 with
    | left _, left _ => "REDUCE_LEVERAGE"
    | _, _ =>
      if Qlt_le_dec position_value 10 then "INCREASE_SIZE" else "PROCEED"
    end
  end.

(** A tick writes [highest_price], [lowest_price], [trailing_active] and
    [current_stop_level] only. *)
Definition same_contract (pos pos' : Position) : Prop :=
  symbol pos' = symbol pos /\
  position_side pos' = position_side pos /\
  entry_price pos' = entry_price pos /\
  quantity pos' = quantity pos /\
  initial_stop_loss pos' = initial_stop_loss pos /\
  trailing_activation pos' = trailing_activation pos /\
  trailing_distance pos' = trailing_distance pos.

(** The unrealized-profit fraction of a record at a price. *)
Definition profit_fraction (pos : Position) (current_price : Q) : result Q :=
  if is_long pos
  then div (current_price - entry_price pos) (entry_price pos)
  else div (entry_price pos - current_price) (entry_price pos).


(** The stop levels of a list of records. *)
Definition stop_levels (l : list Position) : list Q :=
  map get_current_stop_level l.

(** The levels a SHORT run may write: none of them is the unset value 0. *)
Definition writes_nonzero (pos : Position) (prices : list Q) : Prop :=
  Forall (fun p => ~ p * (1 + get_trailing_distance pos) == 0) prices.

(** Once a record is armed its stop trails the recorded extreme by at most
    the trailing distance. *)
Definition armed_stop_bound (pos : Position) : Prop :=
  get_trailing_active pos = true ->
  if is_long pos
  then get_highest_price pos * (1 - get_trailing_distance pos)
       <= get_current_stop_level pos
  else match get_lowest_price pos with
       | Finite lowest =>
           get_current_stop_level pos
           <= lowest * (1 + get_trailing_distance pos)
       | Infinity => True
       end.

(** The record after the loop body has run on it at each of [prices]. *)
Definition after_ticks (pos : Position) (prices : list Q) : Position :=
  fold_left tick prices pos.

(** A record with a positive entry price and threshold that, while unarmed,
    has not yet seen a price whose profit fraction reaches the threshold. *)
Definition below_threshold (pos : Position) : Prop :=
  0 < entry_price pos /\
  0 < get_trailing_activation pos /\
  (get_trailing_active pos = false ->
   if is_long pos
   then get_highest_price pos - entry_price pos
        < get_trailing_activation pos * entry_price pos
   else match get_lowest_price pos with
        | Finite lowest =>
            entry_price pos - lowest
            < get_trailing_activation pos * entry_price pos
        | Infinity => False
        end).

(** The number of records of a (symbol, position side) pair. *)
Definition pair_count (l : list Position) (symbol' position_side' : string) : nat :=
  List.length (filter (fun pos => same_pair pos symbol' position_side') l).

Definition one_record_per_pair (l : list Position) : Prop :=
  forall s p : string, (pair_count l s p <= 1)%nat.

(** The levels [is_near_resistance] and [is_near_support] examine: the swing
    points, then the Fibonacci levels when there are at least three. *)
Definition examined_levels (swings : list Q) (fib_levels : option (list Q))
  : list Q :=
  (swings ++
   match fib_levels with
   | Some levels => if Nat.leb 3 (List.length levels) then levels else []
   | None => []
   end)%list.

(** The waits of an exponential backoff: 1, 2, 4, ... seconds, [k] of them. *)
Definition backoff (k : nat) : list Z :=
  map (fun attempt => (2 ^ Z.of_nat attempt)%Z) (seq 0 k).

(** No frame kept in the cache is empty. *)
Definition holds_no_empty_frame (cache : BotUtilities.Cache) : Prop :=
  Forall (fun entry =>
            BotUtilities.frame_empty (BotUtilities.data (snd entry)) = false)
         cache.

End Spec.

(** * Properties *)

Import Py RiskManagement TradingBot Instances Spec.
Open Scope list_scope.
Open Scope Q_scope.

(** ** Comparisons and division *)

Lemma ltb_true (x y : Q) : ltb x y = true <-> x < y.
Proof.
  unfold ltb. rewrite Qlt_alt. destruct (x ?= y); split; congruence.
Qed.

Lemma ltb_false (x y : Q) : ltb x y = false <-> y <= x.
Proof.
  unfold ltb. rewrite Qle_alt.
  rewrite <- (Qcompare_antisym x y).
  destruct (x ?= y); simpl; split; congruence.
Qed.

Lemma leb_true (x y : Q) : leb x y = true <-> x <= y.
Proof.
  unfold leb. rewrite Qle_alt. destruct (x ?= y); split; congruence.
Qed.

Lemma leb_false (x y : Q) : leb x y = false <-> y < x.
Proof.
  unfold leb. rewrite Qlt_alt.
  rewrite <- (Qcompare_antisym x y).
  destruct (x ?= y); simpl; split; congruence.
Qed.

Lemma eqb_true (x y : Q) : eqb x y = true <-> x == y.
Proof.
  unfold eqb. rewrite Qeq_alt. destruct (x ?= y); split; congruence.
Qed.

Lemma eqb_false (x y : Q) : eqb x y = false <-> ~ x == y.
Proof.
  rewrite <- eqb_true. destruct (eqb x y); split; congruence.
Qed.

(** Turns every float test of the goal into the order fact it decides. *)
Ltac cmp_cases :=
  repeat match goal with
  | |- context [ltb ?a ?b] =>
      let E := fresh "C" in
      destruct (ltb a b) eqn:E;
      [apply ltb_true in E | apply ltb_false in E]
  | |- context [leb ?a ?b] =>
      let E := fresh "C" in
      destruct (leb a b) eqn:E;
      [apply leb_true in E | apply leb_false in E]
  | |- context [eqb ?a ?b] =>
      let E := fresh "C" in
      destruct (eqb a b) eqn:E;
      [apply eqb_true in E | apply eqb_false in E]
  end.

Lemma div_ok (x y : Q) : ~ y == 0 -> div x y = Ok (x / y).
Proof.
  intros H. unfold div. apply eqb_false in H. now rewrite H.
Qed.

Lemma div_zero (x y : Q) : y == 0 -> div x y = Raise ZeroDivisionError.
Proof.
  intros H. unfold div. apply eqb_true in H. now rewrite H.
Qed.

Lemma div_inv (x y q : Q) : div x y = Ok q -> ~ y == 0 /\ q = x / y.
Proof.
  unfold div. destruct (eqb y 0) eqn:E; [discriminate|].
  intros [= <-]. split; [now apply eqb_false|reflexivity].
Qed.

Lemma le_div_mult (a x e : Q) : 0 < e -> a <= x / e -> a * e <= x.
Proof.
  intros He H.
  assert (Hx : x / e * e == x) by (field; lra).
  rewrite <- Hx. apply Qmult_le_compat_r; lra.
Qed.

Lemma lt_div_mult (a x e : Q) : 0 < e -> x / e < a -> x < a * e.
Proof.
  intros He H.
  assert (Hx : x / e * e == x) by (field; lra).
  rewrite <- Hx. apply Qmult_lt_compat_r; lra.
Qed.

(** Peels the first call of a chain of calls that returned. *)
Tactic Notation "bind_inv" hyp(H) "as" ident(v) ident(E) :=
  match type of H with
  | bind ?m _ = Ok _ =>
      destruct m as [v|] eqn:E; cbn [bind] in H; [|discriminate H]
  end.

(** ** The stop and target calculator and the position sizer *)

Lemma is_buy_BUY : is_buy "BUY" = true.
Proof. reflexivity. Qed.

(** C9.  With entry 100, leverage 4, base stop fraction 0.03 and side BUY the
    leverage-adjusted stop is 100 * (1 - 0.03 / 2) = 98.5, and the take-profit
    derived from that stop with risk-reward 2.0 is 100 + (100 - 98.5) * 2 =
    103.  The square root of 4 is the one fact used about [leverage ** 0.5]. *)
Theorem C9_leveraged_stop_and_take_profit (pow_half : Z -> Q) :
  pow_half 4%Z == 2 ->
  exists stop : Q,
    calculate_leveraged_stop_loss pow_half 100 4 0.03 "BUY" = Ok stop /\
    stop == 98.5 /\
    calculate_dynamic_take_profit 100 stop 2.0 "BUY" == 103.0.
Proof.
  intros Hroot.
  assert (Hnz : ~ pow_half 4%Z == 0) by (rewrite Hroot; discriminate).
  unfold calculate_leveraged_stop_loss.
  rewrite (div_ok _ _ Hnz). cbn [bind]. rewrite is_buy_BUY.
  eexists. split; [reflexivity|].
  unfold calculate_dynamic_take_profit. rewrite is_buy_BUY.
  split; rewrite Hroot; reflexivity.
Qed.

Lemma C9_witness :
  pow_half_15 4%Z == 2 /\
  exists stop : Q,
    calculate_leveraged_stop_loss pow_half_15 100 4 0.03 "BUY" = Ok stop /\
    stop == 98.5 /\
    calculate_dynamic_take_profit 100 stop 2.0 "BUY" == 103.0.
Proof.
  split; [reflexivity|].
  apply (C9_leveraged_stop_and_take_profit pow_half_15). reflexivity.
Defined.

Lemma inject_Z_pos (n : Z) : (0 < n)%Z -> 0 < inject_Z n.
Proof.
  intros H. change 0 with (inject_Z 0). now rewrite <- Zlt_Qlt.
Qed.

Lemma Qdiv_pos (x y : Q) : 0 < x -> 0 < y -> 0 < x / y.
Proof.
  intros Hx Hy. unfold Qdiv.
  apply Qmult_lt_0_compat; [assumption|now apply Qinv_lt_0_compat].
Qed.

(** [calculate_position_size] returns exactly when none of its four divisors
    is zero, and then with the sizing formulas of the specification. *)
Lemma calculate_position_size_returns
    (account_balance entry_price stop_loss max_risk_percent : Q) (leverage : Z) :
  ~ Qabs (entry_price - stop_loss) == 0 ->
  ~ entry_price == 0 ->
  leverage <> 0%Z ->
  ~ account_balance == 0 ->
  exists r : PositionResult,
    calculate_position_size account_balance entry_price stop_loss
                            max_risk_percent leverage = Ok r /\
    pr_unit_risk r = Qabs (entry_price - stop_loss) /\
    pr_position_size r =
      account_balance * (max_risk_percent / 100)
      / Qabs (entry_price - stop_loss) * inject_Z leverage /\
    pr_position_value r = pr_position_size r * entry_price.
Proof.
  intros Hu He Hl Hb.
  assert (Hl' : ~ inject_Z leverage == 0).
  { intros E. apply Hl. unfold Qeq in E. simpl in E. lia. }
  unfold calculate_position_size.
  rewrite (div_ok _ _ Hu). cbn [bind].
  rewrite (div_ok _ _ He). cbn [bind].
  rewrite (div_ok _ _ Hl'). cbn [bind].
  rewrite (div_ok _ _ Hb). cbn [bind].
  eexists. split; [reflexivity|]. cbn. repeat split.
Qed.

(** C8 (amended).  [calculate_position_size] computes unitRisk = |entry -
    stop|, maxRiskAmount = balance * maxRiskPercent / 100, leveragedSize =
    maxRiskAmount / unitRisk * leverage and positionValue = leveragedSize *
    entry; at balance 1000, entry 100, stop 98.5, maxRiskPercent 2, leverage
    5 it returns unitRisk 1.5, a risk amount of 20, a size within 0.01 of
    66.67 and a value within 1 of 6667; and for every input with unitRisk >
    0, a positive balance, a positive risk percent, a positive leverage and a
    non-zero entry price it returns a strictly positive size. *)
Theorem C8_position_size :
  (exists r : PositionResult,
     calculate_position_size 1000 100 98.5 2 5 = Ok r /\
     pr_unit_risk r == 1.5 /\
     1000 * (2 / 100) == 20 /\
     pr_risk_amount r == 20 /\
     pr_position_size r == 200 / 3 /\
     Qabs (pr_position_size r - 66.67) < 0.01 /\
     pr_position_value r == 20000 / 3 /\
     Qabs (pr_position_value r - 6667) < 1) /\
  (forall (account_balance entry_price stop_loss max_risk_percent : Q)
          (leverage : Z),
     0 < Qabs (entry_price - stop_loss) ->
     0 < account_balance ->
     0 < max_risk_percent ->
     (0 < leverage)%Z ->
     ~ entry_price == 0 ->
     exists r : PositionResult,
       calculate_position_size account_balance entry_price stop_loss
                               max_risk_percent leverage = Ok r /\
       pr_unit_risk r = Qabs (entry_price - stop_loss) /\
       pr_position_size r =
         account_balance * (max_risk_percent / 100)
         / Qabs (entry_price - stop_loss) * inject_Z leverage /\
       pr_position_value r = pr_position_size r * entry_price /\
       0 < pr_position_size r).
Proof.
  split.
  - eexists. split; [vm_compute; reflexivity|].
    repeat split; vm_compute; reflexivity.
  - intros b e s m l Hu Hb Hm Hl He.
    destruct (calculate_position_size_returns b e s m l) as (r & Hr & H1 & H2 & H3).
    + intros E. rewrite E in Hu. discriminate.
    + assumption.
    + lia.
    + intros E. rewrite E in Hb. discriminate.
    + exists r. repeat split; try assumption.
      rewrite H2.
      apply Qmult_lt_0_compat; [|now apply inject_Z_pos].
      apply Qdiv_pos; [|assumption].
      apply Qmult_lt_0_compat; [assumption|].
      apply Qdiv_pos; [assumption|reflexivity].
Qed.

Lemma C8_witness :
  0 < Qabs (100 - 98.5) /\ 0 < 1000 /\ 0 < 2 /\ (0 < 5)%Z /\ ~ 100 == 0 /\
  exists r : PositionResult,
    calculate_position_size 1000 100 98.5 2 5 = Ok r /\
    pr_unit_risk r = Qabs (100 - 98.5) /\
    pr_position_size r = 1000 * (2 / 100) / Qabs (100 - 98.5) * inject_Z 5 /\
    pr_position_value r = pr_position_size r * 100 /\
    0 < pr_position_size r.
Proof.
  assert (H1 : 0 < Qabs (100 - 98.5)) by reflexivity.
  assert (H2 : 0 < 1000) by reflexivity.
  assert (H3 : 0 < 2) by reflexivity.
  assert (H4 : (0 < 5)%Z) by reflexivity.
  assert (H5 : ~ 100 == 0) by discriminate.
  repeat (split; [assumption|]).
  exact (proj2 C8_position_size 1000 100 98.5 2 5%Z H1 H2 H3 H4 H5).
Defined.

(** C8 as stated fails: with a risk percent of 0 the unit risk is 1.5 > 0
    and the function returns the size 0, which is not strictly positive. *)
Lemma C8_counterexample :
  exists r : PositionResult,
    calculate_position_size 1000 100 98.5 0 5 = Ok r /\
    0 < pr_unit_risk r /\
    ~ 0 < pr_position_size r.
Proof.
  eexists. split; [vm_compute; reflexivity|].
  split; [reflexivity|]. vm_compute. discriminate.
Qed.

Section StopCalculator.

Variable pow_half : Z -> Q.
Variable find_swing_points : DataFrame -> result (list Q * list Q).
Variable get_smc_trend_and_duration : DataFrame -> result (string * Q * TrendInfo).
Variable calculate_fibonacci_retracements : DataFrame -> result (list Q).

Let smc_try :=
  advanced_smc_stop_loss_try pow_half find_swing_points
    get_smc_trend_and_duration calculate_fibonacci_retracements.

Let smc :=
  advanced_smc_stop_loss pow_half find_swing_points
    get_smc_trend_and_duration calculate_fibonacci_retracements.

Lemma leveraged_stop_loss_returns
    (entry_price : Q) (leverage : Z) (pct : Q) (side : string) :
  ~ pow_half leverage == 0 ->
  exists stop : Q,
    calculate_leveraged_stop_loss pow_half entry_price leverage pct side = Ok stop.
Proof.
  intros Hnz. unfold calculate_leveraged_stop_loss.
  rewrite (div_ok _ _ Hnz). cbn [bind].
  destruct (is_buy side); eexists; reflexivity.
Qed.

(** The record both fallback returns build on a default stop has the
    values the specification gives for the fallback. *)
Lemma default_stop_values
    (entry_price : Q) (leverage : Z) (side : string) (err : option exn)
    (stop : Q) :
  calculate_leveraged_stop_loss pow_half entry_price leverage 0.03 side
    = Ok stop ->
  is_default_fallback pow_half entry_price leverage side
    {| sr_stop_loss := stop;
       sr_take_profit :=
         calculate_dynamic_take_profit entry_price stop 2.0 side;
       sr_method := "default_leveraged";
       sr_risk_reward_ratio := 2.0;
       sr_base_stop := None;
       sr_stop_loss_pct := None;
       sr_trend := None;
       sr_trend_confidence := None;
       sr_error := err |}.
Proof.
  unfold calculate_leveraged_stop_loss, is_default_fallback. intros H.
  bind_inv H as adjusted Eadj. apply div_inv in Eadj.
  destruct Eadj as [Hnz ->].
  cbn [sr_stop_loss sr_take_profit sr_method sr_risk_reward_ratio].
  unfold calculate_dynamic_take_profit.
  split; [|split; reflexivity].
  destruct (is_buy side); injection H as <-; split; field; exact Hnz.
Qed.

Lemma default_leveraged_returns
    (entry_price : Q) (leverage : Z) (side : string) (err : option exn) :
  ~ pow_half leverage == 0 ->
  exists r : StopResult,
    default_leveraged pow_half entry_price leverage side err = Ok r /\
    is_default_fallback pow_half entry_price leverage side r /\
    sr_error r = err.
Proof.
  intros Hnz.
  destruct (leveraged_stop_loss_returns entry_price leverage 0.03 side Hnz)
    as [stop Hstop].
  unfold default_leveraged. rewrite Hstop. cbn [bind].
  eexists. split; [reflexivity|]. split; [|reflexivity].
  apply (default_stop_values _ _ _ _ _ Hstop).
Qed.

Lemma default_leveraged_inv
    (entry_price : Q) (leverage : Z) (side : string) (err : option exn)
    (r : StopResult) :
  default_leveraged pow_half entry_price leverage side err = Ok r ->
  is_default_fallback pow_half entry_price leverage side r.
Proof.
  unfold default_leveraged.
  destruct (calculate_leveraged_stop_loss pow_half entry_price leverage 0.03 side)
    as [stop|e] eqn:Hstop; cbn [bind]; [|discriminate].
  intros [= <-]. apply (default_stop_values _ _ _ _ _ Hstop).
Qed.

Lemma smc_try_insufficient
    (df : option DataFrame) (entry_price : Q) (leverage : Z) (side : string) :
  insufficient df ->
  smc_try df entry_price leverage side
    = default_leveraged pow_half entry_price leverage side None.
Proof.
  unfold smc_try, advanced_smc_stop_loss_try, insufficient.
  destruct df as [d|]; [|reflexivity].
  intros H. apply Nat.ltb_lt in H. now rewrite H.
Qed.

End StopCalculator.

Lemma pow_half_15_pos (n : Z) : (1 <= n)%Z -> 0 < pow_half_15 n.
Proof.
  intros H. unfold pow_half_15. rewrite Qred_correct.
  unfold Qlt. cbn [Qnum Qden]. rewrite Z.mul_1_r, Z.mul_0_l.
  apply Z.sqrt_pos. lia.
Qed.

(** ** The adaptive risk orchestrator *)

Lemma risk_level_high (p : Q) :
  String.eqb (risk_level_of p) "高" = ltb 2 p.
Proof.
  unfold risk_level_of.
  destruct (leb p 1.0) eqn:C1.
  - apply leb_true in C1. symmetry. apply ltb_false. lra.
  - destruct (leb p 2.0) eqn:C2.
    + apply leb_true in C2. symmetry. apply ltb_false. lra.
    + apply leb_false in C2. symmetry. apply ltb_true. lra.
Qed.

Lemma recommend_first_matching_rule
    (p quality_score : Q) (leverage : Z) (position_value : Q) :
  fst (recommend (risk_level_of p) quality_score leverage position_value)
  = first_matching_rule p quality_score leverage position_value.
Proof.
  unfold recommend, first_matching_rule. rewrite risk_level_high.
  destruct (Qlt_le_dec 2 p), (Qlt_le_dec quality_score 7),
           (Z_lt_dec 10 leverage), (Qlt_le_dec quality_score 8),
           (Qlt_le_dec position_value 10);
    cmp_cases; destruct (Z.ltb_spec 10 leverage); cbn;
    try reflexivity; try (exfalso; lra); exfalso; lia.
Qed.

Section Orchestrator.

Variable pow_half : Z -> Q.
Variable find_swing_points : DataFrame -> result (list Q * list Q).
Variable get_smc_trend_and_duration : DataFrame -> result (string * Q * TrendInfo).
Variable calculate_fibonacci_retracements : DataFrame -> result (list Q).

Let arm :=
  adaptive_risk_management pow_half find_swing_points
    get_smc_trend_and_duration calculate_fibonacci_retracements.

Let arm_try :=
  adaptive_risk_management_try pow_half find_swing_points
    get_smc_trend_and_duration calculate_fibonacci_retracements.

(** What a completed analysis reports: the recommendation is the cascade on
    the reported risk percent and position value, and that value has been
    raised to the 50 USDC minimum. *)
Lemma analysis_shape
    (df : DataFrame) (account_balance quality_score : Q) (side : string)
    (leverage : Z) (r : RiskDecision) :
  arm_try df account_balance quality_score side leverage = Ok r ->
  rd_recommendation r
    = fst (recommend (risk_level_of (rd_actual_risk_percent r)) quality_score
                     leverage (rd_position_value r)) /\
  50 <= rd_position_value r.
Proof.
  unfold arm_try, adaptive_risk_management_try. intros H.
  bind_inv H as close Eclose. bind_inv H as current_price Eprice.
  bind_inv H as smc_trend Etrend.
  destruct smc_trend as [[trend duration] trend_info].
  bind_inv H as conf Econf. bind_inv H as vortex Evortex.
  bind_inv H as stop_loss_result Estop.
  bind_inv H as sized Esized. bind_inv H as floored Efloored.
  match type of H with
  | context [recommend ?a ?b ?c ?d] =>
      destruct (recommend a b c d) as [rec reason] eqn:Hrec
  end.
  injection H as <-. cbn [rd_recommendation rd_actual_risk_percent rd_position_value].
  assert (Hpct : pr_risk_percent floored = pr_risk_percent sized
                 /\ 50 <= pr_position_value floored).
  { destruct (ltb (pr_position_value sized) 50.0) eqn:Hlow.
    - bind_inv Efloored as size Esize. injection Efloored as <-. cbn.
      split; [reflexivity|]. lra.
    - injection Efloored as <-. apply ltb_false in Hlow.
      split; [reflexivity|]. lra. }
  destruct Hpct as [Hpct Hval]. split; [|exact Hval].
  now rewrite Hrec.
Qed.

(** C7.  When the analysis completes, the recommendation is the first
    matching rule, in this order: actual risk percent above 2 with quality
    below 7 gives AVOID; otherwise leverage above 10 with quality below 8
    gives REDUCE_LEVERAGE; otherwise a position value below the floor gives
    INCREASE_SIZE; otherwise PROCEED. *)
Theorem C7_recommendation_order
    (df : DataFrame) (account_balance quality_score : Q) (side : string)
    (leverage : Z) (r : RiskDecision) :
  arm df account_balance quality_score side leverage = Analysis r ->
  rd_recommendation r
  = first_matching_rule (rd_actual_risk_percent r) quality_score leverage
                        (rd_position_value r).
Proof.
  unfold arm, adaptive_risk_management. fold arm_try.
  destruct (arm_try df account_balance quality_score side leverage)
    as [r0|e] eqn:Htry; [|discriminate].
  intros [= <-]. apply analysis_shape in Htry. destruct Htry as [Hrec _].
  rewrite Hrec. apply recommend_first_matching_rule.
Qed.

(** The third rule never fires: the position value was raised to 50 before
    the cascade reads it. *)
Remark increase_size_unreachable
    (df : DataFrame) (account_balance quality_score : Q) (side : string)
    (leverage : Z) (r : RiskDecision) :
  arm df account_balance quality_score side leverage = Analysis r ->
  rd_recommendation r <> "INCREASE_SIZE".
Proof.
  unfold arm, adaptive_risk_management. fold arm_try.
  destruct (arm_try df account_balance quality_score side leverage)
    as [r0|e] eqn:Htry; [|discriminate].
  intros [= <-]. apply analysis_shape in Htry. destruct Htry as [Hrec Hval].
  rewrite Hrec. unfold recommend.
  assert (Hv : ltb (rd_position_value r0) 10.0 = false) by (apply ltb_false; lra).
  rewrite Hv.
  destruct (String.eqb _ "高" && _)%bool; [discriminate|].
  destruct (Z.ltb 10 leverage && _)%bool; discriminate.
Qed.

End Orchestrator.

Lemma C7_witness :
  exists r : RiskDecision,
    adaptive_risk_management pow_half_15 no_swing_points trend_up_medium
                             no_fibonacci flat_frame 1000 5 "BUY" 20
      = Analysis r /\
    rd_recommendation r
    = first_matching_rule (rd_actual_risk_percent r) 5 20 (rd_position_value r) /\
    rd_recommendation r = "REDUCE_LEVERAGE".
Proof.
  eexists. split; [vm_compute; reflexivity|]. split; [|reflexivity].
  apply (C7_recommendation_order pow_half_15 no_swing_points trend_up_medium
           no_fibonacci flat_frame 1000 5 "BUY" 20).
  vm_compute. reflexivity.
Defined.

(** ** The trailing-stop supervisor: one tick on one record *)

Lemma stop_set_highest (pos : Position) (v : Q) :
  get_current_stop_level (set_highest_price pos v) = get_current_stop_level pos.
Proof. reflexivity. Qed.

Lemma stop_set_lowest (pos : Position) (v : Q) :
  get_current_stop_level (set_lowest_price pos v) = get_current_stop_level pos.
Proof. reflexivity. Qed.

Lemma stop_set_active (pos : Position) (v : bool) :
  get_current_stop_level (set_trailing_active pos v) = get_current_stop_level pos.
Proof. reflexivity. Qed.

Lemma stop_set_stop (pos : Position) (v : Q) :
  get_current_stop_level (set_current_stop_level pos v) = v.
Proof. reflexivity. Qed.

Lemma same_contract_refl (pos : Position) : same_contract pos pos.
Proof. repeat split. Qed.

Lemma process_position_same_contract
    (pos : Position) (current_price : Q) (pos' : Position) (triggered : bool) :
  process_position pos current_price = Ok (pos', triggered) ->
  same_contract pos pos'.
Proof.
  unfold process_position. intros H.
  destruct (is_long pos);
    match type of H with
    | bind ?m _ = _ => destruct m as [profit|]; cbn [bind] in H; [|discriminate H]
    end;
    revert H;
    destruct (get_trailing_active pos);
    repeat match goal with
           | |- context [if ?b then _ else _] => destruct b
           end;
    intros [= <- <-]; repeat split.
Qed.

Lemma long_stop_step
    (pos : Position) (current_price : Q) (pos' : Position) (triggered : bool) :
  is_long pos = true ->
  process_position pos current_price = Ok (pos', triggered) ->
  get_current_stop_level pos <= get_current_stop_level pos'.
Proof.
  intros Hlong H. unfold process_position in H. rewrite Hlong in H.
  destruct (div (current_price - entry_price pos) (entry_price pos))
    as [profit|] eqn:Hdiv; cbn [bind] in H; [|discriminate].
  revert H.
  destruct (get_trailing_active pos); cbn [negb andb]; cmp_cases;
    intros [= <- <-];
    rewrite ?stop_set_stop, ?stop_set_active, ?stop_set_highest; lra.
Qed.

Lemma short_stop_step
    (pos : Position) (current_price : Q) (pos' : Position) (triggered : bool) :
  is_long pos = false ->
  process_position pos current_price = Ok (pos', triggered) ->
  get_current_stop_level pos' <= get_current_stop_level pos
  \/ get_current_stop_level pos == 0.
Proof.
  intros Hlong H. unfold process_position in H. rewrite Hlong in H.
  destruct (div (entry_price pos - current_price) (entry_price pos))
    as [profit|] eqn:Hdiv; cbn [bind] in H; [|discriminate].
  revert H.
  destruct (get_trailing_active pos),
           (lt_xfloat current_price (get_lowest_price pos)),
           (xfloat_is_zero (get_lowest_price pos));
    cbn [negb andb orb]; cmp_cases; cbn [orb];
    intros [= <- <-];
    rewrite ?stop_set_stop, ?stop_set_active, ?stop_set_lowest;
    try (left; lra); try (right; assumption).
Qed.

Lemma is_long_same_contract (pos pos' : Position) :
  same_contract pos pos' -> is_long pos' = is_long pos.
Proof.
  intros (_ & Hside & _). unfold is_long, get_position_side. now rewrite Hside.
Qed.

(** C1 (amended).  Each run of the supervisor's loop body on a position
    record ratchets: for a LONG record the stop level after the tick is at
    least the level before it; for a SHORT record it is at most the level
    before it, unless that level was 0, which the code reads as not set.  The
    tick leaves the side of the record as it was. *)
Theorem C1_stop_ratchets_on_ticks
    (pos : Position) (current_price : Q) (pos' : Position) (triggered : bool) :
  process_position pos current_price = Ok (pos', triggered) ->
  is_long pos' = is_long pos /\
  (is_long pos = true ->
   get_current_stop_level pos <= get_current_stop_level pos') /\
  (is_long pos = false ->
   ~ get_current_stop_level pos == 0 ->
   get_current_stop_level pos' <= get_current_stop_level pos).
Proof.
  intros H. split; [|split].
  - apply is_long_same_contract.
    exact (process_position_same_contract _ _ _ _ H).
  - intros Hlong. eapply long_stop_step; eassumption.
  - intros Hshort Hnz.
    destruct (short_stop_step _ _ _ _ Hshort H) as [Hle|Hz];
      [exact Hle|contradiction].
Qed.

Lemma C1_witness :
  exists (pos' : Position) (triggered : bool),
    process_position unarmed_long_110 120 = Ok (pos', triggered) /\
    is_long pos' = is_long unarmed_long_110 /\
    (is_long unarmed_long_110 = true ->
     get_current_stop_level unarmed_long_110 <= get_current_stop_level pos') /\
    (is_long unarmed_long_110 = false ->
     ~ get_current_stop_level unarmed_long_110 == 0 ->
     get_current_stop_level pos' <= get_current_stop_level unarmed_long_110).
Proof.
  eexists. eexists. split; [vm_compute; reflexivity|].
  eapply (C1_stop_ratchets_on_ticks unarmed_long_110 120).
  vm_compute. reflexivity.
Defined.

(** *** Runs of ticks *)

Lemma tick_cases (pos : Position) (current_price : Q) :
  tick pos current_price = pos \/
  exists triggered : bool,
    process_position pos current_price = Ok (tick pos current_price, triggered).
Proof.
  unfold tick.
  destruct (process_position pos current_price) as [[pos' t]|e];
    [right; exists t; reflexivity|left; reflexivity].
Qed.

Lemma tick_same_contract (pos : Position) (current_price : Q) :
  same_contract pos (tick pos current_price).
Proof.
  destruct (tick_cases pos current_price) as [-> | [t H]].
  - apply same_contract_refl.
  - exact (process_position_same_contract _ _ _ _ H).
Qed.

Lemma tick_long (pos : Position) (current_price : Q) :
  is_long pos = true ->
  is_long (tick pos current_price) = true /\
  get_current_stop_level pos <= get_current_stop_level (tick pos current_price).
Proof.
  intros Hlong. split.
  - rewrite (is_long_same_contract _ _ (tick_same_contract pos current_price)).
    exact Hlong.
  - destruct (tick_cases pos current_price) as [-> | [t H]]; [lra|].
    exact (long_stop_step _ _ _ _ Hlong H).
Qed.

Lemma supervise_long_above (prices : list Q) :
  forall pos : Position,
    is_long pos = true ->
    Forall (fun level => get_current_stop_level pos <= level)
           (stop_levels (supervise pos prices)).
Proof.
  induction prices as [|p later IH]; intros pos Hlong; cbn; [constructor|].
  destruct (tick_long pos p Hlong) as [Hlong' Hle].
  constructor; [exact Hle|].
  specialize (IH _ Hlong').
  eapply Forall_impl; [|exact IH]. cbn. intros level Hlevel. lra.
Qed.

(** Over any run of ticks on a LONG record the stop levels form a
    non-decreasing sequence. *)
Corollary long_stop_run (prices : list Q) :
  forall pos : Position,
    is_long pos = true ->
    StronglySorted Qle (stop_levels (pos :: supervise pos prices)).
Proof.
  induction prices as [|p later IH]; intros pos Hlong.
  - cbn. constructor; constructor.
  - constructor.
    + destruct (tick_long pos p Hlong) as [Hlong' _].
      exact (IH _ Hlong').
    + exact (supervise_long_above (p :: later) pos Hlong).
Qed.

Lemma short_stop_value
    (pos : Position) (current_price : Q) (pos' : Position) (triggered : bool) :
  is_long pos = false ->
  process_position pos current_price = Ok (pos', triggered) ->
  get_current_stop_level pos' = get_current_stop_level pos \/
  get_current_stop_level pos' = current_price * (1 + get_trailing_distance pos).
Proof.
  intros Hlong H. unfold process_position in H. rewrite Hlong in H.
  destruct (div (entry_price pos - current_price) (entry_price pos))
    as [profit|] eqn:Hdiv; cbn [bind] in H; [|discriminate].
  revert H.
  destruct (get_trailing_active pos);
    repeat match goal with
           | |- context [if ?b then _ else _] => destruct b
           end;
    intros [= <- <-];
    rewrite ?stop_set_stop, ?stop_set_active, ?stop_set_lowest; auto.
Qed.

Lemma tick_short (pos : Position) (current_price : Q) :
  is_long pos = false ->
  ~ get_current_stop_level pos == 0 ->
  ~ current_price * (1 + get_trailing_distance pos) == 0 ->
  is_long (tick pos current_price) = false /\
  ~ get_current_stop_level (tick pos current_price) == 0 /\
  get_trailing_distance (tick pos current_price) = get_trailing_distance pos /\
  get_current_stop_level (tick pos current_price) <= get_current_stop_level pos.
Proof.
  intros Hshort Hnz Hwrite.
  pose proof (tick_same_contract pos current_price) as Hsame.
  split; [rewrite (is_long_same_contract _ _ Hsame); exact Hshort|].
  assert (Htd : get_trailing_distance (tick pos current_price)
                = get_trailing_distance pos).
  { destruct Hsame as (_ & _ & _ & _ & _ & _ & Htd).
    unfold get_trailing_distance. now rewrite Htd. }
  destruct (tick_cases pos current_price) as [-> | [t H]].
  - repeat split; [exact Hnz|lra].
  - split; [|split; [exact Htd|]].
    + destruct (short_stop_value _ _ _ _ Hshort H) as [-> | ->]; assumption.
    + destruct (short_stop_step _ _ _ _ Hshort H) as [Hle|Hz];
        [exact Hle|contradiction].
Qed.

Lemma supervise_short_below (prices : list Q) :
  forall pos : Position,
    is_long pos = false ->
    ~ get_current_stop_level pos == 0 ->
    writes_nonzero pos prices ->
    Forall (fun level => level <= get_current_stop_level pos)
           (stop_levels (supervise pos prices)).
Proof.
  induction prices as [|p later IH]; intros pos Hshort Hnz Hw; cbn; [constructor|].
  inversion Hw as [|? ? Hp Hlater]; subst.
  destruct (tick_short pos p Hshort Hnz Hp) as (Hshort' & Hnz' & Htd & Hle).
  constructor; [exact Hle|].
  assert (Hw' : writes_nonzero (tick pos p) later).
  { unfold writes_nonzero. now rewrite Htd. }
  specialize (IH _ Hshort' Hnz' Hw').
  eapply Forall_impl; [|exact IH]. cbn. intros level Hlevel. lra.
Qed.

(** Over any run of ticks on a SHORT record whose stop level is set, and
    stays set, the stop levels form a non-increasing sequence. *)
Corollary short_stop_run (prices : list Q) :
  forall pos : Position,
    is_long pos = false ->
    ~ get_current_stop_level pos == 0 ->
    writes_nonzero pos prices ->
    StronglySorted (fun a b => b <= a) (stop_levels (pos :: supervise pos prices)).
Proof.
  induction prices as [|p later IH]; intros pos Hshort Hnz Hw.
  - cbn. constructor; constructor.
  - constructor; [|exact (supervise_short_below (p :: later) pos Hshort Hnz Hw)].
    inversion Hw as [|? ? Hp Hlater]; subst.
    destruct (tick_short pos p Hshort Hnz Hp) as (Hshort' & Hnz' & Htd & _).
    apply IH; [exact Hshort'|exact Hnz'|].
    unfold writes_nonzero. now rewrite Htd.
Qed.

(** C1 as stated fails on a re-entry: a LONG position opened at 100 is armed
    by a tick at 110, which lifts its stop to 109.78; a second fill at 110
    merges into it and rewrites the stop to 104.16.  It also fails on a SHORT
    record whose stop is the unset value 0: the first armed tick raises it. *)
Lemma C1_counterexample :
  (exists opened armed merged : Position,
     place_futures_order_usdc_filled [] "BTCUSDT" "BUY" 100 1 0.03 1000
       = Ok [opened] /\
     process_position opened 110 = Ok (armed, false) /\
     place_futures_order_usdc_filled [armed] "BTCUSDT" "BUY" 110 1 0.03 2000
       = Ok [merged] /\
     is_long armed = true /\
     get_current_stop_level armed == 109.78 /\
     get_current_stop_level merged == 104.16 /\
     get_current_stop_level merged < get_current_stop_level armed) /\
  (exists opened ticked : Position,
     record_position_with_trailing_stop [] "ETHUSDT" "SELL" 100 1 1 0.012 0.003 1000
       = Ok [opened] /\
     process_position opened 98 = Ok (ticked, false) /\
     is_long opened = false /\
     get_current_stop_level opened == 0 /\
     get_current_stop_level opened < get_current_stop_level ticked).
Proof.
  split.
  - do 3 eexists.
    split; [vm_compute; reflexivity|].
    split; [vm_compute; reflexivity|].
    split; [vm_compute; reflexivity|].
    repeat split; vm_compute; reflexivity.
  - do 2 eexists.
    split; [vm_compute; reflexivity|].
    split; [vm_compute; reflexivity|].
    repeat split; vm_compute; reflexivity.
Qed.

(** *** Two schedules on one record *)

(** A tick that reads and writes without another tick in between is the
    loop body. *)
Lemma compare_and_write_own_locals (pos : Position) (current_price : Q) :
  compare_and_write (read_locals pos) pos current_price
  = process_position pos current_price.
Proof. reflexivity. Qed.

(** Two ticks run one after the other are a run of the loop body. *)
Lemma serial_ticks_after_ticks
    (pos : Position) (first_price second_price : Q) (pos2 : Position) :
  serial_ticks pos first_price second_price = Ok pos2 ->
  pos2 = after_ticks pos [first_price; second_price].
Proof.
  unfold serial_ticks, after_ticks. cbn [fold_left]. unfold tick.
  rewrite compare_and_write_own_locals.
  destruct (process_position pos first_price) as [[pos1 t1]|e];
    cbn [bind]; [|discriminate].
  rewrite compare_and_write_own_locals.
  destruct (process_position pos1 second_price) as [[pos2' t2]|e];
    cbn [bind]; [|discriminate].
  intros [= <-]. reflexivity.
Qed.

Lemma after_ticks_long (prices : list Q) :
  forall pos : Position,
    is_long pos = true ->
    Forall (fun level => level <= get_current_stop_level (after_ticks pos prices))
           (stop_levels (pos :: supervise pos prices)).
Proof.
  induction prices as [|p later IH]; intros pos Hlong.
  - cbn. constructor; [lra | constructor].
  - destruct (tick_long pos p Hlong) as [Hlong' Hle].
    specialize (IH _ Hlong').
    change (after_ticks pos (p :: later)) with (after_ticks (tick pos p) later).
    change (supervise pos (p :: later))
      with (tick pos p :: supervise (tick pos p) later).
    constructor; [|exact IH].
    inversion IH as [|? ? Hhead _]; subst. lra.
Qed.

Lemma after_ticks_short (prices : list Q) :
  forall pos : Position,
    is_long pos = false ->
    ~ get_current_stop_level pos == 0 ->
    writes_nonzero pos prices ->
    Forall (fun level => get_current_stop_level (after_ticks pos prices) <= level)
           (stop_levels (pos :: supervise pos prices)).
Proof.
  induction prices as [|p later IH]; intros pos Hshort Hnz Hw.
  - cbn. constructor; [lra | constructor].
  - inversion Hw as [|? ? Hp Hlater]; subst.
    destruct (tick_short pos p Hshort Hnz Hp) as (Hshort' & Hnz' & Htd & Hle).
    assert (Hw' : writes_nonzero (tick pos p) later).
    { unfold writes_nonzero. now rewrite Htd. }
    specialize (IH _ Hshort' Hnz' Hw').
    change (after_ticks pos (p :: later)) with (after_ticks (tick pos p) later).
    change (supervise pos (p :: later))
      with (tick pos p :: supervise (tick pos p) later).
    constructor; [|exact IH].
    inversion IH as [|? ? Hhead _]; subst. lra.
Qed.

(** C10 (amended).  When the ticks that the two schedules process for one
    record run one after the other, each reading the record after the writes
    of the one before, they are a run of the loop body and no ratchet update
    is lost: after any such run the stop level of a LONG record is at least
    every level the record had during the run, the candidates written among
    them, and the stop level of a SHORT record whose level is set and stays
    set is at most every such level. *)
Theorem C10_serial_ticks_lose_no_update (pos : Position) (prices : list Q) :
  (forall (first_price second_price : Q) (pos2 : Position),
     serial_ticks pos first_price second_price = Ok pos2 ->
     pos2 = after_ticks pos [first_price; second_price]) /\
  (is_long pos = true ->
   Forall (fun level => level <= get_current_stop_level (after_ticks pos prices))
          (stop_levels (pos :: supervise pos prices))) /\
  (is_long pos = false ->
   ~ get_current_stop_level pos == 0 ->
   writes_nonzero pos prices ->
   Forall (fun level => get_current_stop_level (after_ticks pos prices) <= level)
          (stop_levels (pos :: supervise pos prices))).
Proof.
  split; [|split].
  - apply serial_ticks_after_ticks.
  - apply after_ticks_long.
  - apply after_ticks_short.
Qed.

Lemma C10_witness :
  Forall (fun level =>
            level <= get_current_stop_level (after_ticks fresh_long_100 [120; 110]))
         (stop_levels (fresh_long_100 :: supervise fresh_long_100 [120; 110])) /\
  serial_ticks fresh_long_100 120 110
  = Ok (after_ticks fresh_long_100 [120; 110]) /\
  get_current_stop_level (after_ticks fresh_long_100 [120; 110]) == 119.76.
Proof.
  split; [|split; [vm_compute; reflexivity | vm_compute; reflexivity]].
  apply (proj1 (proj2 (C10_serial_ticks_lose_no_update fresh_long_100
                         [120; 110]))).
  reflexivity.
Defined.

(** C10 as stated fails.  Both schedules read a LONG record entered at 100
    (unarmed, stop 99.2, distance 0.002) before either writes.  The first
    gets the price 120, arms the record and writes its candidate 119.76.  The
    second gets the price 110: against the high of 100 and the stop of 99.2
    it read, 110 is a new high and its candidate 109.78 an improvement, so it
    writes both.  The record ends with the stop 109.78, the last writer's
    value, below the candidate 119.76 that was computed and written; run one
    after the other the same two ticks leave 119.76. *)
Lemma C10_counterexample :
  exists (pos1 pos2 : Position),
    compare_and_write (read_locals fresh_long_100) fresh_long_100 120
      = Ok (pos1, false) /\
    get_current_stop_level pos1
      == candidate_stop (read_locals fresh_long_100) 120 /\
    candidate_stop (read_locals fresh_long_100) 120 == 119.76 /\
    compare_and_write (read_locals fresh_long_100) pos1 110 = Ok (pos2, false) /\
    interleaved_ticks fresh_long_100 120 110 = Ok pos2 /\
    get_current_stop_level pos2 == 109.78 /\
    get_current_stop_level pos2 < candidate_stop (read_locals fresh_long_100) 120 /\
    get_highest_price pos2 == 110 /\
    exists serial : Position,
      serial_ticks fresh_long_100 120 110 = Ok serial /\
      get_current_stop_level serial == 119.76.
Proof.
  do 2 eexists.
  split; [vm_compute; reflexivity|].
  split; [vm_compute; reflexivity|].
  split; [vm_compute; reflexivity|].
  split; [vm_compute; reflexivity|].
  split; [vm_compute; reflexivity|].
  split; [vm_compute; reflexivity|].
  split; [vm_compute; reflexivity|].
  split; [vm_compute; reflexivity|].
  eexists. split; vm_compute; reflexivity.
Qed.

(** *** Arming *)

Lemma active_set_highest (pos : Position) (v : Q) :
  get_trailing_active (set_highest_price pos v) = get_trailing_active pos.
Proof. reflexivity. Qed.

Lemma active_set_lowest (pos : Position) (v : Q) :
  get_trailing_active (set_lowest_price pos v) = get_trailing_active pos.
Proof. reflexivity. Qed.

Lemma active_set_stop (pos : Position) (v : Q) :
  get_trailing_active (set_current_stop_level pos v) = get_trailing_active pos.
Proof. reflexivity. Qed.

Lemma active_set_active (pos : Position) (v : bool) :
  get_trailing_active (set_trailing_active pos v) = v.
Proof. reflexivity. Qed.

Ltac active_simpl :=
  rewrite ?active_set_stop, ?active_set_active, ?active_set_highest,
          ?active_set_lowest.


(** The loop body of the replaced definitions arms a record whenever the
    profit fraction has reached the threshold, new extreme or not. *)
Lemma process_position_shadowed_arming
    (pos : Position) (current_price profit : Q) :
  profit_fraction pos current_price = Ok profit ->
  exists (pos' : Position) (triggered : bool),
    process_position_shadowed pos current_price = Ok (pos', triggered) /\
    get_trailing_active pos' =
      (get_trailing_active pos || leb (get_trailing_activation pos) profit)%bool.
Proof.
  unfold profit_fraction, process_position_shadowed.
  destruct (is_long pos); intros ->; cbn [bind].
  - destruct (get_trailing_active pos) eqn:Hact,
             (leb (get_trailing_activation pos) profit);
      cbn [negb andb orb];
      repeat match goal with
             | |- context [if ?b then _ else _] => destruct b
             end;
      do 2 eexists; (split; [reflexivity|]); active_simpl; rewrite ?Hact; reflexivity.
  - destruct (get_trailing_active pos) eqn:Hact,
             (leb (get_trailing_activation pos) profit);
      cbn [negb andb orb];
      repeat match goal with
             | |- context [if ?b then _ else _] => destruct b
             end;
      do 2 eexists; (split; [reflexivity|]); active_simpl; rewrite ?Hact; reflexivity.
Qed.



(** ** Recording a fill *)

Lemma same_pair_inv (pos : Position) (symbol' position_side' : string) :
  same_pair pos symbol' position_side' = true ->
  symbol pos = symbol' /\ position_side pos = Some position_side'.
Proof.
  unfold same_pair. intros H. apply andb_true_iff in H. destruct H as [Hs Hp].
  apply String.eqb_eq in Hs. split; [exact Hs|].
  destruct (position_side pos) as [s|]; cbn in Hp; [|discriminate].
  apply String.eqb_eq in Hp. now subst.
Qed.

Lemma record_scan_first_match
    (before after : list Position) (pos : Position)
    (symbol' side' position_side' : string)
    (entry_price' quantity' initial_stop_loss' trailing_activation'
     trailing_distance' now : Q) :
  Forall (fun p => same_pair p symbol' position_side' = false) before ->
  same_pair pos symbol' position_side' = true ->
  record_scan (before ++ pos :: after) symbol' side' position_side'
              entry_price' quantity' initial_stop_loss' trailing_activation'
              trailing_distance' now
  = (merged <- merge_position pos position_side' entry_price' quantity'
                              initial_stop_loss' trailing_activation'
                              trailing_distance' now ;;
     Ok (before ++ merged :: after)).
Proof.
  intros Hbefore Hpos. induction Hbefore as [|p before Hp _ IH]; cbn.
  - now rewrite Hpos.
  - rewrite Hp, IH.
    destruct (merge_position pos position_side' entry_price' quantity'
                initial_stop_loss' trailing_activation' trailing_distance' now);
      reflexivity.
Qed.

Lemma position_side_of_cases (side' : string) :
  position_side_of side' = "LONG" \/ position_side_of side' = "SHORT".
Proof.
  unfold position_side_of. destruct (String.eqb (upper side') "BUY"); auto.
Qed.

(** C4.  A fill for a pair that already has a record rewrites the first such
    record in place, and the list keeps its length: the entry price becomes
    the average of the two entries weighted by quantity, the quantity the
    sum, [trailing_active] false, the three trailing parameters those of the
    new fill, and the extremes and the stop level are derived again from the
    merged entry price. *)
Theorem C4_merge_on_reentry
    (before after : list Position) (pos : Position) (symbol' side' : string)
    (entry_price' quantity' initial_stop_loss' trailing_activation'
     trailing_distance' now : Q) :
  Forall (fun p => same_pair p symbol' (position_side_of side') = false) before ->
  same_pair pos symbol' (position_side_of side') = true ->
  ~ quantity pos + quantity' == 0 ->
  exists merged : Position,
    record_position_with_trailing_stop (before ++ pos :: after) symbol' side'
      entry_price' quantity' initial_stop_loss' trailing_activation'
      trailing_distance' now
    = Ok (before ++ merged :: after) /\
    List.length (before ++ merged :: after)
    = List.length (before ++ pos :: after) /\
    symbol merged = symbol pos /\
    position_side merged = position_side pos /\
    entry_price merged
    = (entry_price pos * quantity pos + entry_price' * quantity')
      / (quantity pos + quantity') /\
    quantity merged = quantity pos + quantity' /\
    trailing_active merged = Some false /\
    initial_stop_loss merged = Some initial_stop_loss' /\
    trailing_activation merged = Some trailing_activation' /\
    trailing_distance merged = Some trailing_distance' /\
    highest_price merged
    = Some (if is_long merged then entry_price merged else 0) /\
    lowest_price merged
    = Some (if is_long merged then Infinity else Finite (entry_price merged)) /\
    current_stop_level merged
    = Some (if is_long merged
            then entry_price merged * (1 + initial_stop_loss')
            else entry_price merged * (1 - initial_stop_loss')).
Proof.
  intros Hbefore Hpos Hqty.
  unfold record_position_with_trailing_stop.
  rewrite (record_scan_first_match _ _ _ _ _ _ _ _ _ _ _ _ Hbefore Hpos).
  unfold merge_position. rewrite (div_ok _ _ Hqty). cbn [bind].
  eexists. split; [reflexivity|].
  split; [rewrite !length_app; reflexivity|].
  destruct (same_pair_inv _ _ _ Hpos) as [_ Hside].
  unfold is_long, get_position_side. cbn. rewrite Hside.
  destruct (position_side_of_cases side') as [-> | ->]; cbn; repeat split.
Qed.

Lemma C4_witness :
  Forall (fun p => same_pair p "BTCUSDT" (position_side_of "BUY") = false) [] /\
  same_pair unarmed_long_110 "BTCUSDT" (position_side_of "BUY") = true /\
  ~ quantity unarmed_long_110 + 3 == 0 /\
  exists merged : Position,
    record_position_with_trailing_stop ([] ++ unarmed_long_110 :: []) "BTCUSDT" "BUY"
      120 3 (-0.008) 0.012 0.002 2000
    = Ok ([] ++ merged :: []) /\
    entry_price merged == 115 /\
    quantity merged == 4 /\
    trailing_active merged = Some false.
Proof.
  assert (H1 : Forall (fun p => same_pair p "BTCUSDT" (position_side_of "BUY") = false) [])
    by constructor.
  assert (H2 : same_pair unarmed_long_110 "BTCUSDT" (position_side_of "BUY") = true)
    by reflexivity.
  assert (H3 : ~ quantity unarmed_long_110 + 3 == 0) by discriminate.
  split; [exact H1|]. split; [exact H2|]. split; [exact H3|].
  destruct (C4_merge_on_reentry [] [] unarmed_long_110 "BTCUSDT" "BUY"
              120 3 (-0.008) 0.012 0.002 2000 H1 H2 H3)
    as (merged & Hrec & _ & _ & _ & He & Hq & Ha & _).
  exists merged. split; [exact Hrec|].
  split; [rewrite He; reflexivity|].
  split; [rewrite Hq; reflexivity|exact Ha].
Defined.

(** Whatever the list held, a recording that returns leaves a record of the
    pair that carries the parameters of the fill, is not armed, and whose
    extremes and stop level are derived from its entry price. *)
Lemma record_scan_records
    (symbol' side' position_side' : string)
    (entry_price' quantity' initial_stop_loss' trailing_activation'
     trailing_distance' now : Q) :
  forall open_positions recorded : list Position,
    record_scan open_positions symbol' side' position_side' entry_price'
                quantity' initial_stop_loss' trailing_activation'
                trailing_distance' now = Ok recorded ->
    exists pos : Position,
      In pos recorded /\
      symbol pos = symbol' /\
      position_side pos = Some position_side' /\
      initial_stop_loss pos = Some initial_stop_loss' /\
      trailing_active pos = Some false /\
      lowest_price pos
      = Some (if String.eqb position_side' "SHORT"
              then Finite (entry_price pos) else Infinity) /\
      current_stop_level pos
      = Some (if String.eqb position_side' "LONG"
              then entry_price pos * (1 + initial_stop_loss')
              else entry_price pos * (1 - initial_stop_loss')).
Proof.
  induction open_positions as [|p tl IH]; intros recorded H; cbn in H.
  - injection H as <-. eexists. split; [left; reflexivity|].
    cbn. repeat split.
  - destruct (same_pair p symbol' position_side') eqn:Hpair.
    + bind_inv H as merged Hmerge. injection H as <-.
      exists merged. split; [left; reflexivity|].
      destruct (same_pair_inv _ _ _ Hpair) as [Hsym Hside].
      unfold merge_position in Hmerge.
      bind_inv Hmerge as new_entry Hentry. injection Hmerge as <-.
      cbn. repeat split; assumption.
    + bind_inv H as tl' Htl. injection H as <-.
      destruct (IH _ eq_refl) as (pos & Hin & Hrest).
      exists pos. split; [right; exact Hin|exact Hrest].
Qed.

(** C5.  A SELL order placed through [place_futures_order_usdc] is recorded
    with the positive stop fraction 0.008 (the sign is flipped for every other
    side), so the SHORT record's stop level is its entry price times (1 -
    0.008): strictly below a positive entry price, where the SHORT stop test
    [current_price >= current_stop_level] already holds at the entry price
    itself. *)
Theorem C5_short_stop_below_entry
    (open_positions : list Position) (symbol' side' : string)
    (current_price quantity' upside_potential now : Q)
    (recorded : list Position) :
  upper side' = "SELL" ->
  place_futures_order_usdc_filled open_positions symbol' side' current_price
                                  quantity' upside_potential now = Ok recorded ->
  exists pos : Position,
    In pos recorded /\
    symbol pos = symbol' /\
    position_side pos = Some "SHORT" /\
    initial_stop_loss pos = Some 0.008 /\
    current_stop_level pos = Some (entry_price pos * (1 - 0.008)) /\
    (0 < entry_price pos ->
     get_current_stop_level pos < entry_price pos /\
     process_position pos (entry_price pos) = Ok (pos, true)).
Proof.
  intros Hsell H.
  unfold place_futures_order_usdc_filled, record_position_with_trailing_stop,
         position_side_of in H.
  rewrite Hsell in H. cbn [String.eqb Ascii.eqb] in H.
  change (String.eqb "SELL" "BUY") with false in H.
  change (String.eqb "SELL" "SELL") with true in H.
  cbv iota in H.
  destruct (record_scan_records _ _ _ _ _ _ _ _ _ _ _ H)
    as (pos & Hin & Hsym & Hside & Hisl & Hact & Hlow & Hstop).
  change (String.eqb "SHORT" "SHORT") with true in Hlow.
  change (String.eqb "SHORT" "LONG") with false in Hstop.
  cbv iota in Hlow, Hstop.
  exists pos. repeat (split; [assumption|]).
  intros Hpos.
  assert (Hshort : is_long pos = false).
  { unfold is_long, get_position_side. now rewrite Hside. }
  assert (Hlevel : get_current_stop_level pos = entry_price pos * (1 - 0.008)).
  { unfold get_current_stop_level. now rewrite Hstop. }
  split; [rewrite Hlevel; lra|].
  unfold process_position. rewrite Hshort, Hlevel.
  assert (Hnz : ~ entry_price pos == 0) by lra.
  rewrite (div_ok _ _ Hnz). cbn [bind].
  unfold get_lowest_price. rewrite Hlow. cbn [lt_xfloat xfloat_is_zero].
  assert (C1 : ltb (entry_price pos) (entry_price pos) = false)
    by (apply ltb_false; lra).
  assert (C2 : eqb (entry_price pos) 0 = false) by (now apply eqb_false).
  assert (C3 : leb (entry_price pos * (1 - 0.008)) (entry_price pos) = true)
    by (apply leb_true; lra).
  assert (C4 : ltb 0 (entry_price pos * (1 - 0.008)) = true)
    by (apply ltb_true; lra).
  rewrite C1, C2. cbn [orb]. cbv iota beta. rewrite C3, C4. reflexivity.
Qed.

Lemma C5_witness :
  upper "sell" = "SELL" /\
  exists recorded : list Position,
    place_futures_order_usdc_filled [] "ETHUSDT" "sell" 100 1 0.03 2000
      = Ok recorded /\
    exists pos : Position,
      In pos recorded /\
      symbol pos = "ETHUSDT" /\
      position_side pos = Some "SHORT" /\
      initial_stop_loss pos = Some 0.008 /\
      current_stop_level pos = Some (entry_price pos * (1 - 0.008)) /\
      (0 < entry_price pos ->
       get_current_stop_level pos < entry_price pos /\
       process_position pos (entry_price pos) = Ok (pos, true)).
Proof.
  split; [reflexivity|].
  eexists. split; [vm_compute; reflexivity|].
  apply (C5_short_stop_below_entry [] "ETHUSDT" "sell" 100 1 0.03 2000);
    [reflexivity|vm_compute; reflexivity].
Defined.

(** ** Closing a position *)

Lemma filter_none {A : Type} (f : A -> bool) (l : list A) :
  (forall x : A, In x l -> f x = false) -> filter f l = [].
Proof.
  induction l as [|x tl IH]; intros H; cbn; [reflexivity|].
  rewrite (H x (or_introl eq_refl)). apply IH. intros y Hy. apply H. now right.
Qed.

(** When no close order of the call succeeds, [close_position] reports
    failure, returns no closed position and removes nothing from the list it
    was given; [self.open_positions] is then that list, or the list the
    position module returned. *)
Lemma close_position_all_fail
    (open_positions : list Position) (symbol' : string)
    (position_side' : option string)
    (fill : Position -> option Q) (reload : result (list Position)) :
  (forall p : Position,
     In p open_positions -> selected symbol' position_side' p = true ->
     close_succeeds fill p = false) ->
  let co := close_position open_positions symbol' position_side' fill reload in
  co_success co = false /\
  co_closed co = [] /\
  co_list co = open_positions /\
  (open_positions_after co = open_positions
   \/ reload = Ok (open_positions_after co)).
Proof.
  intros Hfail. unfold close_position.
  destruct (filter (selected symbol' position_side') open_positions)
    as [|p0 sel] eqn:Hsel.
  - cbn. repeat split. now left.
  - rewrite filter_none.
    + destruct reload as [loaded|e]; cbn; repeat split; auto.
    + intros p Hp. rewrite <- Hsel in Hp. apply filter_In in Hp.
      destruct Hp as [Hin Hs]. now apply Hfail.
Qed.

(** A record leaves the list [close_position] was given only in a call in
    which the close of a selected position succeeded. *)
Lemma close_position_removes_only_on_success
    (open_positions : list Position) (symbol' : string)
    (position_side' : option string)
    (fill : Position -> option Q) (reload : result (list Position)) :
  co_list (close_position open_positions symbol' position_side' fill reload)
    <> open_positions ->
  exists p : Position,
    In p open_positions /\ selected symbol' position_side' p = true /\
    close_succeeds fill p = true.
Proof.
  intros Hchanged.
  destruct (existsb (close_succeeds fill)
              (filter (selected symbol' position_side') open_positions)) eqn:Hex.
  - apply existsb_exists in Hex. destruct Hex as (p & Hp & Hok).
    apply filter_In in Hp. destruct Hp as [Hin Hs]. now exists p.
  - exfalso. apply Hchanged.
    apply (close_position_all_fail open_positions symbol' position_side' fill reload).
    intros p Hin Hs.
    destruct (close_succeeds fill p) eqn:Hok; [|reflexivity].
    assert (Hex' : existsb (close_succeeds fill)
                     (filter (selected symbol' position_side') open_positions) = true).
    { apply existsb_exists. exists p. split; [|exact Hok].
      apply filter_In. now split. }
    rewrite Hex' in Hex. discriminate.
Qed.

(** C3 (amended).  When the price crosses the stop of the position the loop
    is visiting and every close order of that iteration fails, the iteration
    ends with the position not scheduled for removal and still in the walked
    list, carrying the writes of the tick; [self.open_positions] is the list
    it was, with those writes, or the list the position module returned when
    [close_position] reloaded. *)
Theorem C3_failed_close_keeps_position
    (env : Env) (i : nat) (pos : Position) (st : Loop)
    (current_price : Q) (pos' : Position) :
  price_at env i = Some current_price ->
  process_position pos current_price = Ok (pos', true) ->
  (forall p : Position, close_succeeds (fill_at env i) p = false) ->
  exists st' : Loop,
    manage_step env i pos st = Ok st' /\
    positions_to_remove st' = positions_to_remove st /\
    walk st' = write_at (walk st) i pos' /\
    (self_open_positions st' = self_open_positions (write_back st i pos')
     \/ reload_at env i = Ok (self_open_positions st')).
Proof.
  intros Hprice Htick Hfail.
  unfold manage_step. rewrite Hprice, Htick. cbn [bind].
  set (st1 := write_back st i pos').
  set (co := close_position (self_open_positions st1) (symbol pos')
                            (Some (get_position_side pos'))
                            (fill_at env i) (reload_at env i)).
  destruct (close_position_all_fail
              (self_open_positions st1) (symbol pos')
              (Some (get_position_side pos')) (fill_at env i) (reload_at env i)
              (fun p _ _ => Hfail p)) as (Hsucc & _ & Hlist & Hafter).
  fold co in Hsucc, Hlist, Hafter. rewrite Hsucc.
  destruct (rebound st1) as [l|] eqn:Hreb.
  - eexists. split; [reflexivity|].
    cbn [walk rebound positions_to_remove].
    split; [reflexivity|]. split; [reflexivity|].
    exact Hafter.
  - assert (Hself : self_open_positions st1 = walk st1).
    { unfold self_open_positions. now rewrite Hreb. }
    eexists. split; [reflexivity|].
    cbn [walk rebound positions_to_remove].
    split; [reflexivity|].
    split; [rewrite Hlist; exact Hself|].
    exact Hafter.
Qed.

Lemma C3_witness :
  exists opened ticked : Position,
    place_futures_order_usdc_filled [] "BTCUSDT" "BUY" 100 1 0.03 1000
      = Ok [opened] /\
    price_at (rejecting_exchange [opened] 99 [opened]) 0 = Some 99 /\
    process_position opened 99 = Ok (ticked, true) /\
    (forall p : Position,
       close_succeeds (fill_at (rejecting_exchange [opened] 99 [opened]) 0) p
       = false) /\
    exists st' : Loop,
      manage_step (rejecting_exchange [opened] 99 [opened]) 0 opened
        {| walk := [opened]; rebound := None; positions_to_remove := [] |}
      = Ok st' /\
      positions_to_remove st' = [] /\
      walk st' = [ticked].
Proof.
  do 2 eexists.
  split; [vm_compute; reflexivity|].
  split; [reflexivity|].
  split; [vm_compute; reflexivity|].
  split; [intros p; reflexivity|].
  match goal with
  | |- exists st', manage_step ?env ?i ?pos ?st = _ /\ _ /\ walk st' = [?t] =>
      assert (Htick : process_position pos 99 = Ok (t, true))
        by (vm_compute; reflexivity);
      destruct (C3_failed_close_keeps_position env i pos st 99 t
                  eq_refl Htick (fun p => eq_refl))
        as (st' & Hstep & Hrem & Hwalk & _)
  end.
  exists st'. split; [exact Hstep|]. split; [exact Hrem|exact Hwalk].
Defined.

(** C3 as stated fails: a LONG position opened at 100 has its stop at 99.2;
    at a price of 99 the close order is rejected, and the reload that ends
    [close_position] installs what the position module reports, here no
    position: the record has left [self.open_positions] although no close
    succeeded. *)
Lemma C3_counterexample :
  exists opened : Position,
    place_futures_order_usdc_filled [] "BTCUSDT" "BUY" 100 1 0.03 1000
      = Ok [opened] /\
    (forall p : Position, close_succeeds (fun _ => None) p = false) /\
    (let co := close_position [opened] "BTCUSDT" (Some "LONG")
                              (fun _ => None) (Ok []) in
     co_success co = false /\ open_positions_after co = []) /\
    manage_open_positions (rejecting_exchange [opened] 99 []) [opened]
    = ([], None).
Proof.
  eexists.
  split; [vm_compute; reflexivity|].
  split; [intros p; reflexivity|].
  split; vm_compute; auto.
Qed.

(** * Further properties of the code *)

(** ** Further properties of the risk module *)

Lemma clamp_bounds (lo hi x : Q) :
  lo <= hi -> lo <= max2 lo (min2 hi x) /\ max2 lo (min2 hi x) <= hi.
Proof.
  intros H. unfold max2, min2. cmp_cases; split; lra.
Qed.

(** X1.  Whatever the score, the trend and the market environment, the
    trailing parameters come out clamped: the activation percent between 1
    and 10, the callback percent between 0.5 and 5. *)
Theorem trailing_stop_params_bounds
    (quality_score : Q) (trend : string) (environment : option string) :
  let r := calculate_trailing_stop_params quality_score trend environment in
  1 <= tp_activation_pct r /\ tp_activation_pct r <= 10 /\
  0.5 <= tp_callback_pct r /\ tp_callback_pct r <= 5.
Proof.
  unfold calculate_trailing_stop_params.
  repeat match goal with
         | |- context [let '(a, b) := ?e in _] => destruct e as [? ?]
         end.
  cbn.
  match goal with
  | |- _ <= max2 _ (min2 _ ?a) /\ _ /\ _ <= max2 _ (min2 _ ?c) /\ _ =>
      destruct (clamp_bounds 1.0 10.0 a) as [H1 H2]; [lra|];
      destruct (clamp_bounds 0.5 5.0 c) as [H3 H4]; [lra|]
  end.
  repeat split; lra.
Qed.

(** On the exact arithmetic of the model the sizer hands its budget back:
    the risk percent it recomputes from the size is the percent it was
    given.  (In doubles the two differ by rounding.) *)
Lemma position_size_round_trip
    (account_balance entry_price stop_loss max_risk_percent : Q) (leverage : Z)
    (r : PositionResult) :
  calculate_position_size account_balance entry_price stop_loss
                          max_risk_percent leverage = Ok r ->
  pr_risk_amount r == account_balance * (max_risk_percent / 100) /\
  pr_risk_percent r == max_risk_percent /\
  pr_position_value r == pr_position_size r * entry_price.
Proof.
  unfold calculate_position_size. intros H. cbv zeta in H.
  set (u := Qabs (entry_price - stop_loss)) in H.
  bind_inv H as size Esize. bind_inv H as units Eunits.
  bind_inv H as unlev Eunlev. bind_inv H as frac Efrac.
  injection H as <-.
  cbn [pr_risk_amount pr_risk_percent pr_position_value pr_position_size].
  apply div_inv in Esize, Eunits, Eunlev, Efrac.
  destruct Esize as [Hu ->], Eunits as [He ->], Eunlev as [Hl ->],
           Efrac as [Hb ->].
  split; [|split; [|reflexivity]]; field; auto.
Qed.

(** X3.  With a positive entry price, stop fraction, risk-reward ratio and
    square root of the leverage, the leverage-adjusted stop and the target
    derived from it lie on opposite sides of the entry: stop below and target
    above for BUY, the reverse for any other side; the target's distance is
    the ratio times the stop's distance. *)
Theorem stop_and_target_sides
    (pow_half : Z -> Q) (entry_price : Q) (leverage : Z)
    (base_stop_loss_pct min_risk_reward : Q) (side : string) :
  0 < pow_half leverage ->
  0 < entry_price ->
  0 < base_stop_loss_pct ->
  0 < min_risk_reward ->
  exists stop : Q,
    calculate_leveraged_stop_loss pow_half entry_price leverage
                                  base_stop_loss_pct side = Ok stop /\
    let target :=
      calculate_dynamic_take_profit entry_price stop min_risk_reward side in
    (is_buy side = true ->
     stop < entry_price /\ entry_price < target /\
     target - entry_price == min_risk_reward * (entry_price - stop)) /\
    (is_buy side = false ->
     target < entry_price /\ entry_price < stop /\
     entry_price - target == min_risk_reward * (stop - entry_price)).
Proof.
  intros Hroot Hentry Hpct Hrr.
  assert (Hnz : ~ pow_half leverage == 0) by lra.
  assert (Hadj : 0 < base_stop_loss_pct / pow_half leverage)
    by (apply Qdiv_pos; assumption).
  unfold calculate_leveraged_stop_loss, calculate_dynamic_take_profit.
  rewrite (div_ok _ _ Hnz). cbn [bind].
  set (adj := base_stop_loss_pct / pow_half leverage) in *.
  assert (Hmove : 0 < entry_price * adj) by (apply Qmult_lt_0_compat; assumption).
  assert (Hgain : 0 < (entry_price * adj) * min_risk_reward)
    by (apply Qmult_lt_0_compat; assumption).
  destruct (is_buy side); eexists; (split; [reflexivity|]); cbv zeta.
  - split; [intros _|intros H; discriminate H].
    split; [lra|]. split; [lra|ring].
  - split; [intros H; discriminate H|intros _].
    split; [lra|]. split; [lra|ring].
Qed.

Lemma max_list_in (l : list Q) (m : Q) : max_list l = Some m -> In m l.
Proof.
  revert m. induction l as [|x tl IH]; intros m H; cbn in H; [discriminate|].
  destruct (max_list tl) as [m'|].
  - injection H as <-. unfold max2. destruct (ltb x m'); [right; now apply IH|now left].
  - injection H as <-. now left.
Qed.

Lemma min_list_in (l : list Q) (m : Q) : min_list l = Some m -> In m l.
Proof.
  revert m. induction l as [|x tl IH]; intros m H; cbn in H; [discriminate|].
  destruct (min_list tl) as [m'|].
  - injection H as <-. unfold min2. destruct (ltb m' x); [right; now apply IH|now left].
  - injection H as <-. now left.
Qed.

Lemma accept_above_inv (o : option Q) (bound s : Q) :
  accept_above o bound = Some s -> o = Some s /\ bound < s.
Proof.
  unfold accept_above. destruct o as [x|]; [|discriminate].
  destruct (truthy (Some x)); cbn [andb]; [|discriminate].
  destruct (ltb bound x) eqn:C; [|discriminate].
  intros [= <-]. apply ltb_true in C. now split.
Qed.

Lemma accept_below_inv (o : option Q) (bound s : Q) :
  accept_below o bound = Some s -> o = Some s /\ s < bound.
Proof.
  unfold accept_below. destruct o as [x|]; [|discriminate].
  destruct (truthy (Some x)); cbn [andb]; [|discriminate].
  destruct (ltb x bound) eqn:C; [|discriminate].
  intros [= <-]. apply ltb_true in C. now split.
Qed.

Lemma max_filter_below (l : list Q) (entry_price m : Q) :
  max_list (filter (fun x => ltb x entry_price) l) = Some m -> m < entry_price.
Proof.
  intros H. apply max_list_in in H. apply filter_In in H.
  destruct H as [_ H]. now apply ltb_true in H.
Qed.

Lemma min_filter_above (l : list Q) (entry_price m : Q) :
  min_list (filter (fun x => ltb entry_price x) l) = Some m -> entry_price < m.
Proof.
  intros H. apply min_list_in in H. apply filter_In in H.
  destruct H as [_ H]. now apply ltb_true in H.
Qed.

Lemma choose_base_stop_band
    (entry_price : Q) (side : string) (swing_highs swing_lows fib_levels : list Q)
    (base_stop : Q) (stop_method : string) :
  0 < entry_price ->
  choose_base_stop entry_price side swing_highs swing_lows fib_levels
    = (base_stop, stop_method) ->
  (is_buy side = true ->
   entry_price * 0.9 < base_stop /\ base_stop < entry_price) /\
  (is_buy side = false ->
   entry_price < base_stop /\ base_stop < entry_price * 1.1) /\
  (stop_method = "structure" \/ stop_method = "fibonacci"
   \/ stop_method = "percentage").
Proof.
  intros Hentry. unfold choose_base_stop.
  destruct (is_buy side); cbv zeta.
  - destruct (accept_above (max_list (filter _ swing_lows)) _) as [s|] eqn:Hs.
    + intros [= <- <-]. apply accept_above_inv in Hs. destruct Hs as [Hm Hb].
      apply max_filter_below in Hm.
      split; [intros _; split; lra|]. split; [discriminate|auto].
    + destruct (accept_above (max_list (filter _ fib_levels)) _) as [f|] eqn:Hf.
      * intros [= <- <-]. apply accept_above_inv in Hf. destruct Hf as [Hm Hb].
        apply max_filter_below in Hm.
        split; [intros _; split; lra|]. split; [discriminate|auto].
      * intros [= <- <-].
        split; [intros _; split; lra|]. split; [discriminate|auto].
  - destruct (accept_below (min_list (filter _ swing_highs)) _) as [s|] eqn:Hs.
    + intros [= <- <-]. apply accept_below_inv in Hs. destruct Hs as [Hm Hb].
      apply min_filter_above in Hm.
      split; [discriminate|]. split; [intros _; split; lra|auto].
    + destruct (accept_below (min_list (filter _ fib_levels)) _) as [f|] eqn:Hf.
      * intros [= <- <-]. apply accept_below_inv in Hf. destruct Hf as [Hm Hb].
        apply min_filter_above in Hm.
        split; [discriminate|]. split; [intros _; split; lra|auto].
      * intros [= <- <-].
        split; [discriminate|]. split; [intros _; split; lra|auto].
Qed.

Lemma risk_reward_of_confidence_values (c : string) :
  risk_reward_of_confidence c = 3.0 \/ risk_reward_of_confidence c = 2.5 \/
  risk_reward_of_confidence c = 2.0 \/ risk_reward_of_confidence c = 1.5.
Proof.
  unfold risk_reward_of_confidence.
  repeat match goal with
         | |- context [if ?b then _ else _] => destruct b
         end; auto.
Qed.

Lemma risk_reward_of_confidence_pos (c : string) :
  0 < risk_reward_of_confidence c.
Proof.
  destruct (risk_reward_of_confidence_values c) as [-> | [-> | [-> | ->]]];
    reflexivity.
Qed.

Lemma shrink_by_root (x root : Q) :
  0 < x -> 1 <= root -> 0 < x / root /\ x / root <= x.
Proof.
  intros Hx Hroot. split.
  - apply Qdiv_pos; lra.
  - apply Qle_shift_div_r; [lra|]. nra.
Qed.

Section StructuralStop.

Variable pow_half : Z -> Q.
Variable find_swing_points : DataFrame -> result (list Q * list Q).
Variable get_smc_trend_and_duration : DataFrame -> result (string * Q * TrendInfo).
Variable calculate_fibonacci_retracements : DataFrame -> result (list Q).

(** X4.  On a frame of at least 20 rows with a positive entry price, a
    result of the [try] block carries a base stop inside the 10% band on the
    protective side of the entry, tagged structure, fibonacci or percentage;
    when the square root of the leverage is at least 1 the final stop lies
    between the base stop and the entry, and the target on the other side of
    the entry. *)
Theorem structural_stop_within_band
    (d : DataFrame) (entry_price : Q) (leverage : Z) (side : string)
    (r : StopResult) :
  (20 <= nrows d)%nat ->
  0 < entry_price ->
  1 <= pow_half leverage ->
  advanced_smc_stop_loss_try pow_half find_swing_points
    get_smc_trend_and_duration calculate_fibonacci_retracements
    (Some d) entry_price leverage side = Ok r ->
  exists base_stop : Q,
    sr_base_stop r = Some base_stop /\
    (sr_method r = "structure" \/ sr_method r = "fibonacci"
     \/ sr_method r = "percentage") /\
    (is_buy side = true ->
     entry_price * 0.9 < base_stop /\ base_stop <= sr_stop_loss r /\
     sr_stop_loss r < entry_price /\ entry_price < sr_take_profit r) /\
    (is_buy side = false ->
     sr_take_profit r < entry_price /\ entry_price < sr_stop_loss r /\
     sr_stop_loss r <= base_stop /\ base_stop < entry_price * 1.1).
Proof.
  intros Hrows Hentry Hroot H.
  unfold advanced_smc_stop_loss_try in H.
  assert (Hlt : Nat.ltb (nrows d) 20 = false) by (apply Nat.ltb_ge; exact Hrows).
  rewrite Hlt in H.
  bind_inv H as swings Eswings. destruct swings as [swing_highs swing_lows].
  bind_inv H as smc_trend Etrend.
  destruct smc_trend as [[trend duration] trend_info].
  bind_inv H as fib_levels Efib.
  bind_inv H as close Eclose. bind_inv H as current_price Eprice.
  destruct (choose_base_stop entry_price side swing_highs swing_lows fib_levels)
    as [base_stop stop_method] eqn:Hchoose.
  bind_inv H as stop_loss_pct Epct.
  bind_inv H as leveraged Estop.
  bind_inv H as conf Econf.
  injection H as <-.
  cbn [sr_base_stop sr_method sr_stop_loss sr_take_profit].
  destruct (choose_base_stop_band _ _ _ _ _ _ _ Hentry Hchoose)
    as (Hbuy & Hsell & Htag).
  apply div_inv in Epct. destruct Epct as [_ ->].
  unfold calculate_leveraged_stop_loss in Estop.
  bind_inv Estop as adjusted Eadj.
  apply div_inv in Eadj. destruct Eadj as [_ ->].
  pose proof (risk_reward_of_confidence_pos conf) as Hrr.
  unfold calculate_dynamic_take_profit.
  exists base_stop. split; [reflexivity|]. split; [exact Htag|].
  destruct (is_buy side).
  - injection Estop as <-.
    split; [intros _|intros Hf; discriminate Hf].
    destruct (Hbuy eq_refl) as [Hlow Hhigh].
    assert (Habs : Qabs (base_stop - entry_price) == entry_price - base_stop).
    { rewrite Qabs_neg by lra. ring. }
    destruct (shrink_by_root (entry_price - base_stop) (pow_half leverage))
      as [Hpos Hle]; [lra|exact Hroot|].
    assert (Hstop : entry_price
                    * (1 - Qabs (base_stop - entry_price) / entry_price
                           / pow_half leverage)
                    == entry_price - (entry_price - base_stop) / pow_half leverage).
    { rewrite Habs. field. split; lra. }
    split; [exact Hlow|]. rewrite Hstop.
    split; [lra|]. split; [lra|].
    assert (Hgain : 0 < (entry_price - base_stop) / pow_half leverage
                        * risk_reward_of_confidence conf)
      by (apply Qmult_lt_0_compat; assumption).
    lra.
  - injection Estop as <-.
    split; [intros Hf; discriminate Hf|intros _].
    destruct (Hsell eq_refl) as [Hlow Hhigh].
    assert (Habs : Qabs (base_stop - entry_price) == base_stop - entry_price).
    { rewrite Qabs_pos by lra. reflexivity. }
    destruct (shrink_by_root (base_stop - entry_price) (pow_half leverage))
      as [Hpos Hle]; [lra|exact Hroot|].
    assert (Hstop : entry_price
                    * (1 + Qabs (base_stop - entry_price) / entry_price
                           / pow_half leverage)
                    == entry_price + (base_stop - entry_price) / pow_half leverage).
    { rewrite Habs. field. split; lra. }
    rewrite Hstop.
    assert (Hgain : 0 < (base_stop - entry_price) / pow_half leverage
                        * risk_reward_of_confidence conf)
      by (apply Qmult_lt_0_compat; assumption).
    split; [lra|]. split; [lra|]. split; [lra|exact Hhigh].
Qed.

End StructuralStop.

(** ** Totality of the stop calculator *)

Section StopCalculatorTotal.

Variable pow_half : Z -> Q.
Variable find_swing_points : DataFrame -> result (list Q * list Q).
Variable get_smc_trend_and_duration : DataFrame -> result (string * Q * TrendInfo).
Variable calculate_fibonacci_retracements : DataFrame -> result (list Q).

(** The fallback pair is usable for a positive entry price. *)
Lemma default_fallback_usable
    (entry_price : Q) (leverage : Z) (side : string) (r : StopResult) :
  0 < entry_price ->
  0 < pow_half leverage ->
  is_default_fallback pow_half entry_price leverage side r ->
  usable_pair entry_price side r.
Proof.
  intros Hentry Hroot (Hpair & _ & _). unfold usable_pair.
  assert (Hrisk : 0 < entry_price * (0.03 / pow_half leverage)).
  { apply Qmult_lt_0_compat; [exact Hentry|].
    apply Qdiv_pos; [reflexivity | exact Hroot]. }
  cbv zeta in Hpair.
  set (risk := entry_price * (0.03 / pow_half leverage)) in *.
  destruct (is_buy side); destruct Hpair as [Hstop Htarget]; split; lra.
Qed.

(** So is the pair the [try] block computes from the market structure. *)
Lemma structural_pair_usable
    (d : DataFrame) (entry_price : Q) (leverage : Z) (side : string)
    (r : StopResult) :
  (20 <= nrows d)%nat ->
  0 < entry_price ->
  0 < pow_half leverage ->
  advanced_smc_stop_loss_try pow_half find_swing_points
    get_smc_trend_and_duration calculate_fibonacci_retracements
    (Some d) entry_price leverage side = Ok r ->
  usable_pair entry_price side r.
Proof.
  intros Hrows Hentry Hroot H.
  unfold advanced_smc_stop_loss_try in H.
  assert (Hlt : Nat.ltb (nrows d) 20 = false) by (apply Nat.ltb_ge; exact Hrows).
  rewrite Hlt in H.
  bind_inv H as swings Eswings. destruct swings as [swing_highs swing_lows].
  bind_inv H as smc_trend Etrend.
  destruct smc_trend as [[trend duration] trend_info].
  bind_inv H as fib_levels Efib.
  bind_inv H as close Eclose. bind_inv H as current_price Eprice.
  destruct (choose_base_stop entry_price side swing_highs swing_lows fib_levels)
    as [base_stop stop_method] eqn:Hchoose.
  bind_inv H as stop_loss_pct Epct.
  bind_inv H as leveraged Estop.
  bind_inv H as conf Econf.
  injection H as <-.
  unfold usable_pair. cbn [sr_stop_loss sr_take_profit].
  destruct (choose_base_stop_band _ _ _ _ _ _ _ Hentry Hchoose)
    as (Hbuy & Hsell & _).
  apply div_inv in Epct. destruct Epct as [_ ->].
  unfold calculate_leveraged_stop_loss in Estop.
  bind_inv Estop as adjusted Eadj.
  apply div_inv in Eadj. destruct Eadj as [_ ->].
  pose proof (risk_reward_of_confidence_pos conf) as Hrr.
  unfold calculate_dynamic_take_profit.
  destruct (is_buy side); injection Estop as <-.
  - destruct (Hbuy eq_refl) as [_ Hbelow].
    assert (Hgap : 0 < (entry_price - base_stop) / pow_half leverage)
      by (apply Qdiv_pos; lra).
    assert (Hstop : entry_price
                    * (1 - Qabs (base_stop - entry_price) / entry_price
                           / pow_half leverage)
                    == entry_price - (entry_price - base_stop) / pow_half leverage).
    { rewrite Qabs_neg by lra. field. split; lra. }
    rewrite Hstop.
    assert (Hgain : 0 < (entry_price - base_stop) / pow_half leverage
                        * risk_reward_of_confidence conf)
      by (apply Qmult_lt_0_compat; assumption).
    split; lra.
  - destruct (Hsell eq_refl) as [Habove _].
    assert (Hgap : 0 < (base_stop - entry_price) / pow_half leverage)
      by (apply Qdiv_pos; lra).
    assert (Hstop : entry_price
                    * (1 + Qabs (base_stop - entry_price) / entry_price
                           / pow_half leverage)
                    == entry_price + (base_stop - entry_price) / pow_half leverage).
    { rewrite Qabs_pos by lra. field. split; lra. }
    rewrite Hstop.
    assert (Hgain : 0 < (base_stop - entry_price) / pow_half leverage
                        * risk_reward_of_confidence conf)
      by (apply Qmult_lt_0_compat; assumption).
    split; lra.
Qed.

(** C6.  For every frame, entry price and side, and every leverage of the
    calculator's input domain (at least 1, where the square root is
    positive), [advanced_smc_stop_loss] returns a result and raises nothing.
    The stop and target it returns are usable for a positive entry price:
    the stop on the protective side of the entry, the target on the other.
    When the frame is None or has fewer than 20 rows, and when a computation
    of the [try] block raises, the result is the default 3% leverage-adjusted
    stop with ratio 2.0 and the method tag default_leveraged. *)
Theorem C6_advanced_smc_stop_loss_total
    (df : option DataFrame) (entry_price : Q) (leverage : Z) (side : string) :
  (1 <= leverage)%Z ->
  (forall n : Z, (1 <= n)%Z -> 0 < pow_half n) ->
  exists r : StopResult,
    advanced_smc_stop_loss pow_half find_swing_points
      get_smc_trend_and_duration calculate_fibonacci_retracements
      df entry_price leverage side = Ok r /\
    (0 < entry_price -> usable_pair entry_price side r) /\
    (insufficient df ->
     is_default_fallback pow_half entry_price leverage side r) /\
    (forall e : exn,
       advanced_smc_stop_loss_try pow_half find_swing_points
         get_smc_trend_and_duration calculate_fibonacci_retracements
         df entry_price leverage side = Raise e ->
       is_default_fallback pow_half entry_price leverage side r /\
       sr_error r = Some e).
Proof.
  intros Hlev Hpow.
  pose proof (Hpow leverage Hlev) as Hroot.
  assert (Hnz : ~ pow_half leverage == 0) by lra.
  unfold advanced_smc_stop_loss.
  destruct (advanced_smc_stop_loss_try pow_half find_swing_points
              get_smc_trend_and_duration calculate_fibonacci_retracements
              df entry_price leverage side) as [r|e] eqn:Htry.
  - exists r. split; [reflexivity|].
    assert (Hins : insufficient df ->
                   is_default_fallback pow_half entry_price leverage side r).
    { intros Hins. rewrite smc_try_insufficient in Htry by exact Hins.
      now apply default_leveraged_inv in Htry. }
    split; [|split; [exact Hins | discriminate]].
    intros Hentry.
    destruct df as [d|].
    + destruct (Nat.ltb (nrows d) 20) eqn:Hrows.
      * apply Nat.ltb_lt in Hrows.
        apply (default_fallback_usable _ leverage); auto.
      * apply Nat.ltb_ge in Hrows.
        exact (structural_pair_usable d _ _ _ _ Hrows Hentry Hroot Htry).
    + apply (default_fallback_usable _ leverage); auto. apply Hins. exact I.
  - destruct (default_leveraged_returns pow_half entry_price leverage side
                (Some e) Hnz) as (r & Hr & Hdef & Herr).
    exists r. split; [exact Hr|].
    split; [intros Hentry; apply (default_fallback_usable _ leverage); auto|].
    split; [intros _; exact Hdef|].
    intros e' [= <-]. now split.
Qed.

End StopCalculatorTotal.

Lemma C6_witness :
  exists r : StopResult,
    advanced_smc_stop_loss pow_half_15 swing_points_fail trend_up_medium
                           no_fibonacci (Some flat_frame) 100 4 "SELL" = Ok r /\
    (0 < 100 -> usable_pair 100 "SELL" r) /\
    (insufficient (Some flat_frame) ->
     is_default_fallback pow_half_15 100 4 "SELL" r) /\
    (forall e : exn,
       advanced_smc_stop_loss_try pow_half_15 swing_points_fail trend_up_medium
                                  no_fibonacci (Some flat_frame) 100 4 "SELL"
         = Raise e ->
       is_default_fallback pow_half_15 100 4 "SELL" r /\ sr_error r = Some e).
Proof.
  apply (C6_advanced_smc_stop_loss_total pow_half_15 swing_points_fail
           trend_up_medium no_fibonacci (Some flat_frame) 100 4 "SELL").
  - vm_compute. discriminate.
  - exact pow_half_15_pos.
Defined.

Lemma vortex_adjustment_bounds (df : DataFrame) (side : string) (v : Q) :
  vortex_adjustment_of df side = Ok v -> 0.8 <= v /\ v <= 1.32.
Proof.
  unfold vortex_adjustment_of.
  destruct (has_column df "VI_plus" && has_column df "VI_minus")%bool;
    [|intros [= <-]; split; lra].
  intros H.
  bind_inv H as plus Eplus. bind_inv H as vi_plus Evp.
  bind_inv H as minus Eminus. bind_inv H as vi_minus Evm.
  bind_inv H as vi_diff Ediff.
  bind_inv H as cross_up Eup. bind_inv H as cross_down Edown.
  revert H.
  repeat match goal with
         | |- context [if ?b then _ else _] => destruct b
         end;
    intros [= <-]; split; lra.
Qed.

Section Budget.

Variable pow_half : Z -> Q.
Variable find_swing_points : DataFrame -> result (list Q * list Q).
Variable get_smc_trend_and_duration : DataFrame -> result (string * Q * TrendInfo).
Variable calculate_fibonacci_retracements : DataFrame -> result (list Q).

(** X5.  In a completed analysis the composed risk budget
    [max_risk_percent] lies between 1.28 and 4.752, and the risk level is
    never the low one: the risk the sizer reports back is its budget, which
    is above the 1.0 of the low tier. *)
Theorem analysis_budget_and_risk_level
    (df : DataFrame) (account_balance quality_score : Q) (side : string)
    (leverage : Z) (r : RiskDecision) :
  adaptive_risk_management pow_half find_swing_points
    get_smc_trend_and_duration calculate_fibonacci_retracements
    df account_balance quality_score side leverage = Analysis r ->
  1.28 <= rd_max_risk_percent r /\ rd_max_risk_percent r <= 4.752 /\
  rd_risk_level r <> "低".
Proof.
  unfold adaptive_risk_management.
  destruct (adaptive_risk_management_try _ _ _ _ _ _ _ _ _) as [r0|e] eqn:H;
    [|discriminate].
  intros [= <-]. unfold adaptive_risk_management_try in H.
  bind_inv H as close Eclose. bind_inv H as current_price Eprice.
  bind_inv H as smc_trend Etrend.
  destruct smc_trend as [[trend duration] trend_info].
  bind_inv H as conf Econf. bind_inv H as vortex Evortex.
  bind_inv H as stop_loss_result Estop.
  bind_inv H as sized Esized. bind_inv H as floored Efloored.
  match type of H with
  | context [recommend ?a ?b ?c ?d] =>
      destruct (recommend a b c d) as [rec reason] eqn:Hrec
  end.
  injection H as <-.
  cbn [rd_actual_risk_percent rd_max_risk_percent rd_risk_level].
  apply position_size_round_trip in Esized.
  destruct Esized as (_ & Hpct & _).
  assert (Hkeep : pr_risk_percent floored = pr_risk_percent sized).
  { destruct (ltb (pr_position_value sized) 50.0).
    - bind_inv Efloored as size Esize. now injection Efloored as <-.
    - now injection Efloored as <-. }
  rewrite Hkeep.
  apply vortex_adjustment_bounds in Evortex. destruct Evortex as [Hv1 Hv2].
  set (budget := _ * vortex) in *.
  assert (Hbudget : 1.28 <= budget /\ budget <= 4.752).
  { subst budget.
    repeat match goal with
           | |- context [if ?b then _ else _] => destruct b
           end; split; lra. }
  split; [apply Hbudget|]. split; [apply Hbudget|].
  unfold risk_level_of.
  destruct (leb (pr_risk_percent sized) 1.0) eqn:C.
  - apply leb_true in C. exfalso. destruct Hbudget. rewrite Hpct in C. lra.
  - destruct (leb (pr_risk_percent sized) 2.0); discriminate.
Qed.

End Budget.

Lemma stop_and_target_sides_witness :
  0 < pow_half_15 4 /\ 0 < 100 /\ 0 < 0.03 /\ 0 < 2 /\
  exists stop : Q,
    calculate_leveraged_stop_loss pow_half_15 100 4 0.03 "SELL" = Ok stop /\
    let target := calculate_dynamic_take_profit 100 stop 2 "SELL" in
    (is_buy "SELL" = true ->
     stop < 100 /\ 100 < target /\ target - 100 == 2 * (100 - stop)) /\
    (is_buy "SELL" = false ->
     target < 100 /\ 100 < stop /\ 100 - target == 2 * (stop - 100)).
Proof.
  assert (H1 : 0 < pow_half_15 4) by reflexivity.
  assert (H2 : 0 < 100) by reflexivity.
  assert (H3 : 0 < 0.03) by reflexivity.
  assert (H4 : 0 < 2) by reflexivity.
  repeat (split; [assumption|]).
  exact (stop_and_target_sides pow_half_15 100 4 0.03 2 "SELL" H1 H2 H3 H4).
Defined.

Lemma structural_stop_within_band_witness :
  (20 <= nrows flat_frame)%nat /\ 0 < 100 /\ 1 <= pow_half_15 4 /\
  exists r : StopResult,
    advanced_smc_stop_loss_try pow_half_15 no_swing_points trend_up_medium
      no_fibonacci (Some flat_frame) 100 4 "BUY" = Ok r /\
    exists base_stop : Q,
      sr_base_stop r = Some base_stop /\
      (sr_method r = "structure" \/ sr_method r = "fibonacci"
       \/ sr_method r = "percentage") /\
      (is_buy "BUY" = true ->
       100 * 0.9 < base_stop /\ base_stop <= sr_stop_loss r /\
       sr_stop_loss r < 100 /\ 100 < sr_take_profit r) /\
      (is_buy "BUY" = false ->
       sr_take_profit r < 100 /\ 100 < sr_stop_loss r /\
       sr_stop_loss r <= base_stop /\ base_stop < 100 * 1.1).
Proof.
  assert (H1 : (20 <= nrows flat_frame)%nat) by (cbn; lia).
  assert (H2 : 0 < 100) by reflexivity.
  assert (H3 : 1 <= pow_half_15 4) by (vm_compute; discriminate).
  repeat (split; [assumption|]).
  eexists. split; [vm_compute; reflexivity|].
  apply (structural_stop_within_band pow_half_15 no_swing_points
           trend_up_medium no_fibonacci flat_frame 100 4 "BUY" _ H1 H2 H3).
  vm_compute. reflexivity.
Defined.

Lemma analysis_budget_and_risk_level_witness :
  exists r : RiskDecision,
    adaptive_risk_management pow_half_15 no_swing_points trend_up_medium
                             no_fibonacci flat_frame 1000 9 "BUY" 4
      = Analysis r /\
    1.28 <= rd_max_risk_percent r /\ rd_max_risk_percent r <= 4.752 /\
    rd_risk_level r <> "低".
Proof.
  eexists. split; [vm_compute; reflexivity|].
  apply (analysis_budget_and_risk_level pow_half_15 no_swing_points
           trend_up_medium no_fibonacci flat_frame 1000 9 "BUY" 4).
  vm_compute. reflexivity.
Defined.

(** X6.  [adaptive_risk_management] never recommends INCREASE_SIZE: a
    position value that compares below 50 is raised to 50 before the
    recommendation cascade reads it, so the test for a value under 10 never
    succeeds, and the handler recommends AVOID.  Whatever the input, the
    recommendation is AVOID, REDUCE_LEVERAGE or PROCEED. *)
Theorem recommendation_never_increase_size
    (pow_half : Z -> Q)
    (find_swing_points : DataFrame -> result (list Q * list Q))
    (get_smc_trend_and_duration : DataFrame -> result (string * Q * TrendInfo))
    (calculate_fibonacci_retracements : DataFrame -> result (list Q))
    (df : DataFrame) (account_balance quality_score : Q) (side : string)
    (leverage : Z) :
  let recommendation :=
    recommendation_of
      (adaptive_risk_management pow_half find_swing_points
         get_smc_trend_and_duration calculate_fibonacci_retracements
         df account_balance quality_score side leverage) in
  recommendation <> "INCREASE_SIZE" /\
  (recommendation = "AVOID" \/ recommendation = "REDUCE_LEVERAGE"
   \/ recommendation = "PROCEED").
Proof.
  cbv zeta.
  assert (Hcases :
    forall rec : string,
      rec = "AVOID" \/ rec = "REDUCE_LEVERAGE" \/ rec = "PROCEED" ->
      rec <> "INCREASE_SIZE" /\
      (rec = "AVOID" \/ rec = "REDUCE_LEVERAGE" \/ rec = "PROCEED")).
  { intros rec H. split; [|exact H].
    destruct H as [-> | [-> | ->]]; discriminate. }
  apply Hcases.
  unfold adaptive_risk_management.
  destruct (adaptive_risk_management_try pow_half find_swing_points
              get_smc_trend_and_duration calculate_fibonacci_retracements
              df account_balance quality_score side leverage)
    as [r0|e] eqn:Htry; cbn [recommendation_of]; [|left; reflexivity].
  apply analysis_shape in Htry. destruct Htry as [Hrec Hval].
  rewrite Hrec. unfold recommend.
  assert (Hv : ltb (rd_position_value r0) 10.0 = false)
    by (apply ltb_false; lra).
  rewrite Hv.
  destruct (String.eqb _ "高" && _)%bool; [left; reflexivity|].
  destruct (Z.ltb 10 leverage && _)%bool;
    [right; left; reflexivity | right; right; reflexivity].
Qed.

(** ** Further properties of the supervisor *)

Lemma highest_set_highest (pos : Position) (v : Q) :
  get_highest_price (set_highest_price pos v) = v.
Proof. reflexivity. Qed.

Lemma highest_set_active (pos : Position) (v : bool) :
  get_highest_price (set_trailing_active pos v) = get_highest_price pos.
Proof. reflexivity. Qed.

Lemma highest_set_stop (pos : Position) (v : Q) :
  get_highest_price (set_current_stop_level pos v) = get_highest_price pos.
Proof. reflexivity. Qed.

Lemma lowest_set_lowest (pos : Position) (v : Q) :
  get_lowest_price (set_lowest_price pos v) = Finite v.
Proof. reflexivity. Qed.

Lemma lowest_set_active (pos : Position) (v : bool) :
  get_lowest_price (set_trailing_active pos v) = get_lowest_price pos.
Proof. reflexivity. Qed.

Lemma lowest_set_stop (pos : Position) (v : Q) :
  get_lowest_price (set_current_stop_level pos v) = get_lowest_price pos.
Proof. reflexivity. Qed.

Lemma distance_set_highest (pos : Position) (v : Q) :
  get_trailing_distance (set_highest_price pos v) = get_trailing_distance pos.
Proof. reflexivity. Qed.

Lemma distance_set_lowest (pos : Position) (v : Q) :
  get_trailing_distance (set_lowest_price pos v) = get_trailing_distance pos.
Proof. reflexivity. Qed.

Lemma distance_set_active (pos : Position) (v : bool) :
  get_trailing_distance (set_trailing_active pos v) = get_trailing_distance pos.
Proof. reflexivity. Qed.

Lemma distance_set_stop (pos : Position) (v : Q) :
  get_trailing_distance (set_current_stop_level pos v) = get_trailing_distance pos.
Proof. reflexivity. Qed.

Lemma long_set_highest (pos : Position) (v : Q) : is_long (set_highest_price pos v) = is_long pos.
Proof. reflexivity. Qed.

Lemma long_set_lowest (pos : Position) (v : Q) : is_long (set_lowest_price pos v) = is_long pos.
Proof. reflexivity. Qed.

Lemma long_set_active (pos : Position) (v : bool) : is_long (set_trailing_active pos v) = is_long pos.
Proof. reflexivity. Qed.

Lemma long_set_stop (pos : Position) (v : Q) : is_long (set_current_stop_level pos v) = is_long pos.
Proof. reflexivity. Qed.

Ltac getters_simpl :=
  rewrite ?long_set_stop, ?long_set_active, ?long_set_highest, ?long_set_lowest,
          ?stop_set_stop, ?stop_set_active, ?stop_set_highest, ?stop_set_lowest,
          ?active_set_stop, ?active_set_active, ?active_set_highest,
          ?active_set_lowest,
          ?highest_set_stop, ?highest_set_active, ?highest_set_highest,
          ?lowest_set_stop, ?lowest_set_active, ?lowest_set_lowest,
          ?distance_set_stop, ?distance_set_active, ?distance_set_highest,
          ?distance_set_lowest.

(** One tick keeps the bound of an armed record. *)
Theorem armed_stop_bound_kept
    (pos : Position) (current_price : Q) (pos' : Position) (triggered : bool) :
  armed_stop_bound pos ->
  process_position pos current_price = Ok (pos', triggered) ->
  armed_stop_bound pos'.
Proof.
  unfold armed_stop_bound, process_position. intros Hinv H.
  destruct (is_long pos) eqn:Hlong.
  - bind_inv H as profit Eprofit. revert H.
    destruct (get_trailing_active pos) eqn:Hact; cbn [negb andb];
      cmp_cases; intros [= <- <-]; getters_simpl; rewrite Hlong;
      try rewrite Hact; intros Harmed; try discriminate Harmed;
      try (specialize (Hinv eq_refl)); try lra.
  - bind_inv H as profit Eprofit. revert H.
    destruct (get_trailing_active pos) eqn:Hact,
             (lt_xfloat current_price (get_lowest_price pos)),
             (xfloat_is_zero (get_lowest_price pos));
      cbn [negb andb orb]; cmp_cases; cbn [orb];
      intros [= <- <-]; getters_simpl; rewrite Hlong;
      try rewrite Hact; intros Harmed; try discriminate Harmed;
      try (specialize (Hinv eq_refl)); try exact Hinv; try lra.
Qed.

Lemma supervise_forall (P : Position -> Prop) :
  (forall pos p, P pos -> P (tick pos p)) ->
  forall prices pos, P pos -> Forall P (supervise pos prices).
Proof.
  intros Hstep. induction prices as [|p later IH]; intros pos H; cbn;
    [constructor|].
  constructor; [now apply Hstep|]. apply IH. now apply Hstep.
Qed.

Lemma tick_keeps (P : Position -> Prop) (pos : Position) (p : Q) :
  (forall pos' t, process_position pos p = Ok (pos', t) -> P pos') ->
  P pos -> P (tick pos p).
Proof.
  intros Hstep H. destruct (tick_cases pos p) as [-> | [t Ht]];
    [exact H|exact (Hstep _ _ Ht)].
Qed.

(** X7.  Over any run of ticks from a record that satisfies it (every
    unarmed record does), each record reached keeps the armed-stop bound:
    once armed, a LONG stop is at least highest_price * (1 -
    trailing_distance) and a SHORT stop at most lowest_price * (1 +
    trailing_distance). *)
Theorem armed_stop_bound_on_runs (pos : Position) (prices : list Q) :
  armed_stop_bound pos ->
  Forall armed_stop_bound (supervise pos prices).
Proof.
  apply supervise_forall. intros q p Hq. apply tick_keeps; [|exact Hq].
  intros pos' t Ht. exact (armed_stop_bound_kept _ _ _ _ Hq Ht).
Qed.

Lemma armed_step
    (pos : Position) (current_price : Q) (pos' : Position) (triggered : bool) :
  get_trailing_active pos = true ->
  process_position pos current_price = Ok (pos', triggered) ->
  get_trailing_active pos' = true.
Proof.
  unfold process_position. intros Hact H. rewrite Hact in H.
  destruct (is_long pos);
    bind_inv H as profit Eprofit; revert H; cbn [negb andb];
    repeat match goal with
           | |- context [if ?b then _ else _] => destruct b
           end;
    intros [= <- <-]; getters_simpl; exact Hact.
Qed.

(** X8.  An armed record stays armed over any run of ticks: no tick sets
    [trailing_active] back to false. *)
Theorem armed_stays_armed (pos : Position) (prices : list Q) :
  get_trailing_active pos = true ->
  Forall (fun later => get_trailing_active later = true) (supervise pos prices).
Proof.
  apply (supervise_forall (fun q => get_trailing_active q = true)).
  intros q p Hq. apply tick_keeps; [|exact Hq].
  intros pos' t Ht. exact (armed_step _ _ _ _ Hq Ht).
Qed.

Lemma highest_step (pos : Position) (current_price : Q) :
  is_long pos = true ->
  ~ entry_price pos == 0 ->
  is_long (tick pos current_price) = true /\
  ~ entry_price (tick pos current_price) == 0 /\
  get_highest_price pos <= get_highest_price (tick pos current_price) /\
  current_price <= get_highest_price (tick pos current_price).
Proof.
  intros Hlong Hentry.
  pose proof (tick_same_contract pos current_price) as Hsame.
  split; [rewrite (is_long_same_contract _ _ Hsame); exact Hlong|].
  split; [destruct Hsame as (_ & _ & -> & _); exact Hentry|].
  unfold tick, process_position. rewrite Hlong.
  rewrite (div_ok _ _ Hentry). cbn [bind].
  destruct (get_trailing_active pos); cbn [negb andb]; cmp_cases;
    getters_simpl; split; lra.
Qed.

(** X9.  Over any run of ticks on a LONG record with a non-zero entry
    price, the recorded [highest_price] never drops and ends at or above every
    price of the run. *)
Theorem highest_price_tracks_maximum (prices : list Q) :
  forall pos : Position,
    is_long pos = true ->
    ~ entry_price pos == 0 ->
    get_highest_price pos <= get_highest_price (after_ticks pos prices) /\
    Forall (fun p => p <= get_highest_price (after_ticks pos prices)) prices.
Proof.
  unfold after_ticks.
  induction prices as [|p later IH]; intros pos Hlong Hentry; cbn.
  - split; [lra|constructor].
  - destruct (highest_step pos p Hlong Hentry) as (Hlong' & Hentry' & Hold & Hnew).
    destruct (IH _ Hlong' Hentry') as [Hle Hall].
    split; [lra|]. constructor; [lra|exact Hall].
Qed.

(** X10.  On a record with a positive entry price and threshold that has
    not yet seen a price reaching the threshold while unarmed, the loop body
    the class runs and the body of the replaced definitions return the same
    result, and the record after the tick is again such a record. *)
Theorem live_and_replaced_bodies_agree (pos : Position) (current_price : Q) :
  below_threshold pos ->
  process_position pos current_price
  = process_position_shadowed pos current_price /\
  (forall (pos' : Position) (triggered : bool),
     process_position pos current_price = Ok (pos', triggered) ->
     below_threshold pos').
Proof.
  unfold below_threshold. intros (Hentry & Hact & Hinv).
  assert (Hnz : ~ entry_price pos == 0) by lra.
  unfold process_position, process_position_shadowed.
  destruct (is_long pos) eqn:Hlong.
  - rewrite (div_ok _ _ Hnz). cbn [bind].
    destruct (get_trailing_active pos) eqn:Harmed; cbn [negb andb].
    + split.
      * repeat match goal with
               | |- context [if ?b then _ else _] => destruct b
               end; reflexivity.
      * intros pos' t. 
        repeat match goal with
               | |- context [if ?b then _ else _] => destruct b
               end; intros [= <- <-]; cbn [entry_price];
          (split; [exact Hentry|]); (split; [exact Hact|]);
          getters_simpl; rewrite ?Harmed; intros Hf; discriminate Hf.
    + specialize (Hinv eq_refl).
      destruct (ltb (get_highest_price pos) current_price) eqn:Chigh.
      * split.
        -- repeat match goal with
                  | |- context [if ?b then _ else _] => destruct b
                  end; reflexivity.
        -- intros pos' t.
           destruct (leb (get_trailing_activation pos)
                         ((current_price - entry_price pos) / entry_price pos))
             eqn:Carm.
           ++ repeat match goal with
                     | |- context [if ?b then _ else _] => destruct b
                     end; intros [= <- <-]; cbn [entry_price];
                (split; [exact Hentry|]); (split; [exact Hact|]);
                getters_simpl; intros Hf; discriminate Hf.
           ++ apply leb_false in Carm. apply lt_div_mult in Carm; [|exact Hentry].
              intros [= <- <-]; cbn [entry_price];
                (split; [exact Hentry|]); (split; [exact Hact|]).
              getters_simpl. rewrite Hlong. intros _.
              change (get_trailing_activation (set_highest_price pos current_price))
                with (get_trailing_activation pos).
              exact Carm.
      * apply ltb_false in Chigh.
        assert (Carm : leb (get_trailing_activation pos)
                           ((current_price - entry_price pos) / entry_price pos)
                       = false).
        { apply leb_false. apply Qnot_le_lt. intros Hle.
          apply le_div_mult in Hle; [|exact Hentry]. lra. }
        rewrite Carm. split; [reflexivity|].
        intros pos' t [= <- <-].
        split; [exact Hentry|]. split; [exact Hact|].
        rewrite Hlong. intros _. exact Hinv.
  - rewrite (div_ok _ _ Hnz). cbn [bind].
    destruct (get_trailing_active pos) eqn:Harmed; cbn [negb andb].
    + split.
      * repeat match goal with
               | |- context [if ?b then _ else _] => destruct b
               end; reflexivity.
      * intros pos' t.
        repeat match goal with
               | |- context [if ?b then _ else _] => destruct b
               end; intros [= <- <-]; cbn [entry_price];
          (split; [exact Hentry|]); (split; [exact Hact|]);
          getters_simpl; rewrite ?Harmed; intros Hf; discriminate Hf.
    + specialize (Hinv eq_refl).
      destruct (lt_xfloat current_price (get_lowest_price pos)
                || xfloat_is_zero (get_lowest_price pos))%bool eqn:Clow.
      * split.
        -- repeat match goal with
                  | |- context [if ?b then _ else _] => destruct b
                  end; reflexivity.
        -- intros pos' t.
           destruct (leb (get_trailing_activation pos)
                         ((entry_price pos - current_price) / entry_price pos))
             eqn:Carm.
           ++ repeat match goal with
                     | |- context [if ?b then _ else _] => destruct b
                     end; intros [= <- <-]; cbn [entry_price];
                (split; [exact Hentry|]); (split; [exact Hact|]);
                getters_simpl; intros Hf; discriminate Hf.
           ++ apply leb_false in Carm. apply lt_div_mult in Carm; [|exact Hentry].
              intros [= <- <-]; cbn [entry_price];
                (split; [exact Hentry|]); (split; [exact Hact|]).
              getters_simpl. rewrite Hlong. intros _.
              change (get_trailing_activation (set_lowest_price pos current_price))
                with (get_trailing_activation pos).
              exact Carm.
      * apply orb_false_iff in Clow. destruct Clow as [Clt Czero].
        destruct (get_lowest_price pos) as [lowest|] eqn:Hlow;
          [|contradiction].
        cbn [lt_xfloat xfloat_is_zero] in Clt, Czero.
        apply ltb_false in Clt.
        assert (Carm : leb (get_trailing_activation pos)
                           ((entry_price pos - current_price) / entry_price pos)
                       = false).
        { apply leb_false. apply Qnot_le_lt. intros Hle.
          apply le_div_mult in Hle; [|exact Hentry]. lra. }
        rewrite Carm. split; [reflexivity|].
        intros pos' t [= <- <-].
        split; [exact Hentry|]. split; [exact Hact|].
        rewrite Hlong, Hlow. intros _. exact Hinv.
Qed.

(** ** Recording *)

Lemma same_pair_merged
    (pos merged : Position) (s p : string) :
  symbol merged = symbol pos -> position_side merged = position_side pos ->
  same_pair merged s p = same_pair pos s p.
Proof. unfold same_pair. now intros -> ->. Qed.

Lemma same_pair_new
    (symbol' side' position_side' : string) (e q isl act dist now : Q)
    (s p : string) :
  same_pair (new_position symbol' side' position_side' e q isl act dist now) s p
  = (String.eqb symbol' s && String.eqb position_side' p)%bool.
Proof. reflexivity. Qed.

Lemma merge_position_same_pair
    (pos : Position) (ps : string) (e q isl act dist now : Q) (merged : Position)
    (s p : string) :
  merge_position pos ps e q isl act dist now = Ok merged ->
  same_pair merged s p = same_pair pos s p.
Proof.
  unfold merge_position. intros H. bind_inv H as new_entry Hentry.
  injection H as <-. reflexivity.
Qed.

Lemma record_scan_pair_count
    (symbol' side' position_side' : string) (e q isl act dist now : Q)
    (s p : string) :
  forall open_positions recorded : list Position,
    record_scan open_positions symbol' side' position_side' e q isl act dist now
      = Ok recorded ->
    pair_count recorded s p
    = if (Nat.eqb (pair_count open_positions symbol' position_side') 0
          && String.eqb symbol' s && String.eqb position_side' p)%bool
      then S (pair_count open_positions s p)
      else pair_count open_positions s p.
Proof.
  unfold pair_count.
  induction open_positions as [|x tl IH]; intros recorded H; cbn in H.
  - injection H as <-. cbn [filter]. rewrite same_pair_new.
    cbn [List.length Nat.eqb andb].
    destruct (String.eqb symbol' s && String.eqb position_side' p)%bool;
      reflexivity.
  - destruct (same_pair x symbol' position_side') eqn:Hx.
    + bind_inv H as merged Hmerge. injection H as <-.
      cbn [filter]. rewrite Hx. cbn [List.length Nat.eqb andb].
      rewrite (merge_position_same_pair _ _ _ _ _ _ _ _ _ s p Hmerge).
      destruct (same_pair x s p); reflexivity.
    + bind_inv H as tl' Htl. injection H as <-.
      specialize (IH _ eq_refl).
      cbn [filter]. rewrite Hx.
      destruct (same_pair x s p) eqn:Hxs; cbn [List.length]; rewrite IH.
      * destruct (Nat.eqb _ 0 && _ && _)%bool eqn:Hc; [|reflexivity].
        exfalso. apply andb_true_iff in Hc. destruct Hc as [Hc Hp].
        apply andb_true_iff in Hc. destruct Hc as [_ Hs].
        apply String.eqb_eq in Hs, Hp. subst. congruence.
      * reflexivity.
Qed.

Lemma record_scan_length
    (symbol' side' position_side' : string) (e q isl act dist now : Q) :
  forall open_positions recorded : list Position,
    record_scan open_positions symbol' side' position_side' e q isl act dist now
      = Ok recorded ->
    List.length recorded
    = if Nat.eqb (pair_count open_positions symbol' position_side') 0
      then S (List.length open_positions) else List.length open_positions.
Proof.
  unfold pair_count.
  induction open_positions as [|x tl IH]; intros recorded H; cbn in H.
  - injection H as <-. reflexivity.
  - cbn [filter]. destruct (same_pair x symbol' position_side') eqn:Hx.
    + bind_inv H as merged Hmerge. injection H as <-. reflexivity.
    + bind_inv H as tl' Htl. injection H as <-.
      specialize (IH _ eq_refl). cbn [List.length]. rewrite IH.
      destruct (Nat.eqb _ 0); reflexivity.
Qed.

(** X12.  Recording keeps at most one record per (symbol, position side)
    pair: afterwards the pair of the fill has exactly one record, and the
    list grew by one record exactly when the pair had none. *)
Theorem recording_keeps_one_record_per_pair
    (open_positions : list Position) (symbol' side' : string)
    (e q isl act dist now : Q) (recorded : list Position) :
  one_record_per_pair open_positions ->
  record_position_with_trailing_stop open_positions symbol' side'
    e q isl act dist now = Ok recorded ->
  one_record_per_pair recorded /\
  pair_count recorded symbol' (position_side_of side') = 1%nat /\
  (List.length recorded
   = if Nat.eqb (pair_count open_positions symbol' (position_side_of side')) 0
     then S (List.length open_positions) else List.length open_positions).
Proof.
  unfold record_position_with_trailing_stop. intros Hone H.
  split; [|split].
  - intros s p.
    rewrite (record_scan_pair_count _ _ _ _ _ _ _ _ _ s p _ _ H).
    destruct (Nat.eqb _ 0 && _ && _)%bool eqn:Hc; [|apply Hone].
    apply andb_true_iff in Hc. destruct Hc as [Hc Hp].
    apply andb_true_iff in Hc. destruct Hc as [Hz Hs].
    apply String.eqb_eq in Hs, Hp. subst.
    apply Nat.eqb_eq in Hz. rewrite Hz. lia.
  - rewrite (record_scan_pair_count _ _ _ _ _ _ _ _ _ _ _ _ _ H).
    rewrite !String.eqb_refl, !andb_true_r.
    destruct (Nat.eqb _ 0) eqn:Hz.
    + apply Nat.eqb_eq in Hz. now rewrite Hz.
    + apply Nat.eqb_neq in Hz.
      specialize (Hone symbol' (position_side_of side')). lia.
  - exact (record_scan_length _ _ _ _ _ _ _ _ _ _ _ H).
Qed.

(** X13.  A merge of two positive quantities conserves the notional (merged
    entry times merged quantity is the sum of the two notionals) and puts
    the merged entry between the two entry prices. *)
Theorem merged_entry_between
    (pos : Position) (ps : string) (e q isl act dist now : Q) (merged : Position) :
  0 < quantity pos -> 0 < q ->
  merge_position pos ps e q isl act dist now = Ok merged ->
  entry_price merged * quantity merged
  == entry_price pos * quantity pos + e * q /\
  min2 (entry_price pos) e <= entry_price merged /\
  entry_price merged <= max2 (entry_price pos) e.
Proof.
  intros Hq0 Hq H. unfold merge_position in H.
  bind_inv H as new_entry Hentry. injection H as <-.
  cbn [entry_price quantity].
  apply div_inv in Hentry. destruct Hentry as [Hnz ->].
  assert (Htot : 0 < quantity pos + q) by lra.
  split; [field; lra|].
  unfold min2, max2. split.
  - apply Qle_shift_div_l; [exact Htot|]. cmp_cases; nra.
  - apply Qle_shift_div_r; [exact Htot|]. cmp_cases; nra.
Qed.

Lemma record_scan_fresh
    (symbol' side' position_side' : string)
    (e q isl act dist now : Q) :
  forall open_positions recorded : list Position,
    record_scan open_positions symbol' side' position_side' e q isl act dist now
      = Ok recorded ->
    exists pos : Position,
      In pos recorded /\
      symbol pos = symbol' /\
      position_side pos = Some position_side' /\
      initial_stop_loss pos = Some isl /\
      trailing_activation pos = Some act /\
      trailing_distance pos = Some dist /\
      trailing_active pos = Some false /\
      highest_price pos
      = Some (if String.eqb position_side' "LONG" then entry_price pos else 0) /\
      lowest_price pos
      = Some (if String.eqb position_side' "SHORT"
              then Finite (entry_price pos) else Infinity) /\
      current_stop_level pos
      = Some (if String.eqb position_side' "LONG"
              then entry_price pos * (1 + isl)
              else entry_price pos * (1 - isl)).
Proof.
  induction open_positions as [|p tl IH]; intros recorded H; cbn in H.
  - injection H as <-. eexists. split; [left; reflexivity|].
    cbn. repeat split.
  - destruct (same_pair p symbol' position_side') eqn:Hpair.
    + bind_inv H as merged Hmerge. injection H as <-.
      exists merged. split; [left; reflexivity|].
      destruct (same_pair_inv _ _ _ Hpair) as [Hsym Hside].
      unfold merge_position in Hmerge.
      bind_inv Hmerge as new_entry Hentry. injection Hmerge as <-.
      cbn. repeat split; assumption.
    + bind_inv H as tl' Htl. injection H as <-.
      destruct (IH _ eq_refl) as (pos & Hin & Hrest).
      exists pos. split; [right; exact Hin|exact Hrest].
Qed.

(** X11.  Every recording that returns leaves a record of the pair that is
    unarmed and satisfies the armed-stop bound; with a positive entry price
    and threshold it has seen no price reaching the threshold. *)
Theorem recorded_position_is_fresh
    (open_positions : list Position) (symbol' side' : string)
    (e q isl act dist now : Q) (recorded : list Position) :
  record_position_with_trailing_stop open_positions symbol' side'
    e q isl act dist now = Ok recorded ->
  exists pos : Position,
    In pos recorded /\
    symbol pos = symbol' /\
    position_side pos = Some (position_side_of side') /\
    get_trailing_active pos = false /\
    armed_stop_bound pos /\
    (0 < entry_price pos -> 0 < act -> below_threshold pos).
Proof.
  unfold record_position_with_trailing_stop. intros H.
  destruct (record_scan_fresh _ _ _ _ _ _ _ _ _ _ _ H)
    as (pos & Hin & Hsym & Hside & _ & Hact & _ & Harmed & Hhigh & Hlow & _).
  exists pos. split; [exact Hin|]. split; [exact Hsym|]. split; [exact Hside|].
  assert (Hunarmed : get_trailing_active pos = false).
  { unfold get_trailing_active. now rewrite Harmed. }
  split; [exact Hunarmed|].
  split; [unfold armed_stop_bound; rewrite Hunarmed; discriminate|].
  intros Hentry Hpos. unfold below_threshold.
  split; [exact Hentry|].
  assert (Hthr : get_trailing_activation pos = act).
  { unfold get_trailing_activation. now rewrite Hact. }
  rewrite Hthr. split; [exact Hpos|]. intros _.
  assert (Hmove : 0 < act * entry_price pos)
    by (apply Qmult_lt_0_compat; assumption).
  unfold is_long, get_position_side, get_highest_price, get_lowest_price.
  rewrite Hside, Hhigh, Hlow.
  destruct (position_side_of_cases side') as [-> | ->]; cbn; lra.
Qed.

(** X14.  A BUY order placed through [place_futures_order_usdc] is recorded
    with the stop fraction -0.008: the LONG stop is 0.8% below a positive
    entry price and the stop test does not fire at the entry price. *)
Theorem long_order_stop_below_entry
    (open_positions : list Position) (symbol' side' : string)
    (current_price quantity' upside_potential now : Q)
    (recorded : list Position) :
  upper side' = "BUY" ->
  place_futures_order_usdc_filled open_positions symbol' side' current_price
                                  quantity' upside_potential now = Ok recorded ->
  exists pos : Position,
    In pos recorded /\
    symbol pos = symbol' /\
    position_side pos = Some "LONG" /\
    initial_stop_loss pos = Some (- 0.008) /\
    current_stop_level pos = Some (entry_price pos * (1 + - 0.008)) /\
    (0 < entry_price pos ->
     get_current_stop_level pos < entry_price pos /\
     process_position pos (entry_price pos) = Ok (pos, false)).
Proof.
  intros Hbuy H.
  unfold place_futures_order_usdc_filled, record_position_with_trailing_stop,
         position_side_of in H.
  rewrite Hbuy in H.
  change (String.eqb "BUY" "BUY") with true in H.
  change (String.eqb "BUY" "SELL") with false in H.
  cbv iota in H.
  destruct (record_scan_fresh _ _ _ _ _ _ _ _ _ _ _ H)
    as (pos & Hin & Hsym & Hside & Hisl & _ & _ & _ & Hhigh & _ & Hstop).
  change (String.eqb "LONG" "LONG") with true in Hhigh, Hstop.
  cbv iota in Hhigh, Hstop.
  exists pos. repeat (split; [assumption|]).
  intros Hpos.
  assert (Hlong : is_long pos = true).
  { unfold is_long, get_position_side. now rewrite Hside. }
  assert (Hlevel : get_current_stop_level pos = entry_price pos * (1 + - 0.008)).
  { unfold get_current_stop_level. now rewrite Hstop. }
  assert (Hh : get_highest_price pos = entry_price pos).
  { unfold get_highest_price. now rewrite Hhigh. }
  split; [rewrite Hlevel; lra|].
  unfold process_position. rewrite Hlong, Hlevel, Hh.
  assert (Hnz : ~ entry_price pos == 0) by lra.
  rewrite (div_ok _ _ Hnz). cbn [bind].
  assert (C1 : ltb (entry_price pos) (entry_price pos) = false)
    by (apply ltb_false; lra).
  assert (C2 : leb (entry_price pos) (entry_price pos * (1 + - 0.008)) = false)
    by (apply leb_false; lra).
  rewrite C1. cbv iota beta. rewrite C2. reflexivity.
Qed.

(** ** Closing *)

Lemma eqb_refl (x : Q) : eqb x x = true.
Proof. apply eqb_true. reflexivity. Qed.

Lemma eqb_option_refl {A : Type} (e : A -> A -> bool) (o : option A) :
  (forall a, e a a = true) -> eqb_option e o o = true.
Proof. intros H. destruct o; cbn; auto. Qed.

Lemma eqb_xfloat_refl (x : xfloat) : eqb_xfloat x x = true.
Proof. destruct x; cbn; [apply eqb_refl|reflexivity]. Qed.

Lemma eqb_id_refl (x : string * string * Z) : eqb_id x x = true.
Proof.
  destruct x as [[a b] c]. cbn. now rewrite !String.eqb_refl, Z.eqb_refl.
Qed.

Lemma Position_eqb_refl (pos : Position) : Position_eqb pos pos = true.
Proof.
  unfold Position_eqb.
  rewrite String.eqb_refl, !eqb_refl.
  rewrite !(eqb_option_refl String.eqb) by apply String.eqb_refl.
  rewrite !(eqb_option_refl eqb) by apply eqb_refl.
  rewrite (eqb_option_refl Bool.eqb) by apply Bool.eqb_reflx.
  rewrite (eqb_option_refl eqb_xfloat) by apply eqb_xfloat_refl.
  rewrite (eqb_option_refl eqb_id) by apply eqb_id_refl.
  reflexivity.
Qed.

Lemma eqb_option_string_eq (x y : option string) :
  eqb_option String.eqb x y = true -> x = y.
Proof.
  destruct x, y; cbn; try discriminate; [|reflexivity].
  intros H. apply String.eqb_eq in H. now subst.
Qed.

Lemma Position_eqb_selected
    (a b : Position) (symbol' : string) (position_side' : option string) :
  Position_eqb a b = true ->
  selected symbol' position_side' a = selected symbol' position_side' b.
Proof.
  unfold Position_eqb. intros H.
  do 13 (apply andb_true_iff in H; destruct H as [H _]).
  apply andb_true_iff in H. destruct H as [H Hside].
  apply andb_true_iff in H. destruct H as [Hsym _].
  apply String.eqb_eq in Hsym. apply eqb_option_string_eq in Hside.
  unfold selected, get_position_side. now rewrite Hsym, Hside.
Qed.

Lemma remove_all_unselected_head
    (sel : Position -> bool) (gone : list Position) (x : Position)
    (tl : list Position) :
  (forall a b, Position_eqb a b = true -> sel a = sel b) ->
  sel x = false ->
  (forall g, In g gone -> sel g = true) ->
  remove_all gone (x :: tl) = x :: remove_all gone tl.
Proof.
  intros Hsel Hx. unfold remove_all. revert tl.
  induction gone as [|g gone IH]; intros tl Hgone; cbn; [reflexivity|].
  destruct (Position_eqb x g) eqn:Heq.
  - apply Hsel in Heq. rewrite Hx, (Hgone g (or_introl eq_refl)) in Heq.
    discriminate.
  - apply IH. intros g' Hg'. apply Hgone. now right.
Qed.

Lemma remove_all_filter (sel : Position -> bool) (l : list Position) :
  (forall a b, Position_eqb a b = true -> sel a = sel b) ->
  remove_all (filter sel l) l = filter (fun p => negb (sel p)) l.
Proof.
  intros Hsel. induction l as [|x tl IH]; [reflexivity|].
  cbn [filter]. destruct (sel x) eqn:Hx; cbn [negb].
  - unfold remove_all. cbn [fold_left remove_first].
    rewrite Position_eqb_refl. exact IH.
  - rewrite (remove_all_unselected_head sel); [now rewrite IH|exact Hsel|exact Hx|].
    intros g Hg. apply filter_In in Hg. apply Hg.
Qed.

Lemma filter_all {A : Type} (f : A -> bool) (l : list A) :
  (forall x : A, In x l -> f x = true) -> filter f l = l.
Proof.
  induction l as [|x tl IH]; intros H; cbn; [reflexivity|].
  rewrite (H x (or_introl eq_refl)). f_equal. apply IH.
  intros y Hy. apply H. now right.
Qed.

(** X15.  When every close order for the selected records succeeds, the list
    [close_position] was given keeps exactly the records it did not select,
    in order.  If the reload then returns, the call reports success with the
    selected records; if the reload raises, the records stay removed but the
    call reports failure and no closed record. *)
Theorem close_position_removes_closed
    (open_positions : list Position) (symbol' : string)
    (position_side' : option string)
    (fill : Position -> option Q) (reload : result (list Position)) :
  (forall p : Position,
     In p open_positions -> selected symbol' position_side' p = true ->
     close_succeeds fill p = true) ->
  let co := close_position open_positions symbol' position_side' fill reload in
  let kept :=
    filter (fun p => negb (selected symbol' position_side' p)) open_positions in
  let chosen := filter (selected symbol' position_side') open_positions in
  co_list co = kept /\
  (forall loaded : list Position,
     reload = Ok loaded -> chosen <> [] ->
     co_success co = true /\ co_closed co = chosen /\
     open_positions_after co = loaded) /\
  (forall e : exn,
     reload = Raise e ->
     co_success co = false /\ co_closed co = [] /\
     open_positions_after co = kept).
Proof.
  intros Hall. cbv zeta. unfold close_position.
  pose proof (remove_all_filter (selected symbol' position_side') open_positions
                (fun a b H => Position_eqb_selected a b _ _ H)) as Hrem.
  destruct (filter (selected symbol' position_side') open_positions)
    as [|p0 sel] eqn:Hsel.
  - cbn in Hrem. cbn [co_list co_success co_closed].
    split; [exact Hrem|].
    split; [intros loaded _ Hne; now contradiction Hne|].
    intros e _. unfold open_positions_after. cbn. repeat split. exact Hrem.
  - assert (Hclosed : filter (close_succeeds fill) (p0 :: sel) = p0 :: sel).
    { apply filter_all. intros p Hp. rewrite <- Hsel in Hp.
      apply filter_In in Hp. now apply Hall. }
    rewrite Hclosed.
    destruct reload as [loaded|e]; cbn [co_list co_success co_closed].
    + split; [exact Hrem|].
      split; [|intros e He; discriminate He].
      intros l [= <-] _. repeat split.
    + split; [exact Hrem|].
      split; [intros l Hl; discriminate Hl|].
      intros e' _. unfold open_positions_after. cbn. repeat split. exact Hrem.
Qed.

(** ** The scan *)

Lemma process_position_zero_entry (pos : Position) (current_price : Q) :
  entry_price pos == 0 ->
  process_position pos current_price = Raise ZeroDivisionError.
Proof.
  intros Hz. unfold process_position.
  destruct (is_long pos); rewrite (div_zero _ _ Hz); reflexivity.
Qed.

Lemma process_position_raises (pos : Position) (current_price : Q) (e : exn) :
  process_position pos current_price = Raise e ->
  e = ZeroDivisionError /\ entry_price pos == 0.
Proof.
  unfold process_position.
  destruct (is_long pos);
    (destruct (eqb (entry_price pos) 0) eqn:Hz;
     [ apply eqb_true in Hz; rewrite (div_zero _ _ Hz); cbn [bind];
       intros [= <-]; now split
     | apply eqb_false in Hz; rewrite (div_ok _ _ Hz); cbn [bind];
       repeat match goal with
              | |- context [let '(a, b) := ?x in _] => destruct x as [? ?]
              end; discriminate ]).
Qed.

(** X16.  If the first record of the reloaded list has an entry price of 0
    and its ticker query answers, [manage_open_positions] ends with
    ZeroDivisionError before any write: the list is the reloaded one and no
    other record is visited. *)
Theorem zero_entry_aborts_scan
    (env : Env) (open_positions : list Position)
    (pos : Position) (rest : list Position) (current_price : Q) :
  load_start env = Ok (pos :: rest) ->
  price_at env 0 = Some current_price ->
  entry_price pos == 0 ->
  manage_open_positions env open_positions
  = (pos :: rest, Some ZeroDivisionError).
Proof.
  intros Hload Hprice Hz. unfold manage_open_positions. rewrite Hload.
  cbn [List.length manage_loop nth_error walk].
  unfold manage_step. rewrite Hprice.
  rewrite (process_position_zero_entry _ _ Hz). reflexivity.
Qed.

Lemma nth_error_write_at_other (l : list Position) (i j : nat) (pos' : Position) :
  i <> j -> nth_error (write_at l i pos') j = nth_error l j.
Proof.
  revert i j. induction l as [|x tl IH]; intros i j Hij.
  - destruct i; reflexivity.
  - destruct i, j; cbn; try reflexivity; [contradiction|].
    apply IH. lia.
Qed.

Lemma manage_step_rebound
    (env : Env) (i : nat) (pos : Position) (st st' : Loop) (l : list Position) :
  rebound st = Some l ->
  manage_step env i pos st = Ok st' ->
  (exists l', rebound st' = Some l') /\
  (forall j, j <> i -> nth_error (walk st') j = nth_error (walk st) j).
Proof.
  unfold manage_step. intros Hreb H.
  destruct (price_at env i) as [p|].
  - bind_inv H as ticked Htick. destruct ticked as [pos' triggered].
    destruct triggered.
    + unfold write_back in H. cbn [rebound walk positions_to_remove] in H.
      rewrite Hreb in H. injection H as <-. cbn.
      split; [eexists; reflexivity|].
      intros j Hj. apply nth_error_write_at_other. auto.
    + injection H as <-. cbn. split; [now exists l|].
      intros j Hj. apply nth_error_write_at_other. auto.
  - injection H as <-. split; [now exists l|reflexivity].
Qed.

Lemma manage_loop_keeps_prefix (env : Env) (fuel : nat) :
  forall (i : nat) (st : Loop) (l : list Position),
    rebound st = Some l ->
    forall j, (j < i)%nat ->
    nth_error (walk (fst (manage_loop env fuel i st))) j = nth_error (walk st) j.
Proof.
  induction fuel as [|fuel IH]; intros i st l Hreb j Hj; cbn; [reflexivity|].
  destruct (nth_error (walk st) i) as [pos|]; [|reflexivity].
  destruct (manage_step env i pos st) as [st'|e] eqn:Hstep; [|reflexivity].
  destruct (manage_step_rebound _ _ _ _ _ _ Hreb Hstep) as [[l' Hreb'] Hkeep].
  rewrite (IH (S i) st' l' Hreb' j) by lia.
  apply Hkeep. lia.
Qed.

(** X17.  When the first close of a scan succeeds on the record being
    visited, the record is removed from the list the loop walks, so the loop
    resumes at index 1 of the shortened list: the record that followed is
    not visited in this scan and is still the first of the walked list when
    the loop ends. *)
Theorem successful_close_skips_next
    (env : Env) (pos next : Position) (rest : list Position)
    (current_price : Q) (pos' : Position) (loaded : list Position) (fuel : nat) :
  price_at env 0 = Some current_price ->
  process_position pos current_price = Ok (pos', true) ->
  close_succeeds (fill_at env 0) pos' = true ->
  filter (selected (symbol pos') (Some (get_position_side pos'))) (next :: rest)
    = [] ->
  reload_at env 0 = Ok loaded ->
  let start := {| walk := pos :: next :: rest; rebound := None;
                  positions_to_remove := [] |} in
  let resumed := {| walk := next :: rest; rebound := Some loaded;
                    positions_to_remove := [pos'] |} in
  manage_loop env (S fuel) 0 start = manage_loop env fuel 1 resumed /\
  nth_error (walk (fst (manage_loop env (S fuel) 0 start))) 0 = Some next.
Proof.
  intros Hprice Htick Hfill Hothers Hreload. cbv zeta.
  assert (Hstep :
    manage_step env 0 pos
      {| walk := pos :: next :: rest; rebound := None; positions_to_remove := [] |}
    = Ok {| walk := next :: rest; rebound := Some loaded;
            positions_to_remove := [pos'] |}).
  { unfold manage_step. rewrite Hprice, Htick. cbn [bind].
    unfold write_back. cbn [walk rebound positions_to_remove write_at].
    unfold self_open_positions. cbn [rebound walk].
    assert (Hself : selected (symbol pos') (Some (get_position_side pos')) pos'
                    = true).
    { unfold selected. now rewrite !String.eqb_refl. }
    unfold close_position.
    set (sel := selected (symbol pos') (Some (get_position_side pos'))) in *.
    change (filter sel (pos' :: next :: rest))
      with (if sel pos' then pos' :: filter sel (next :: rest)
            else filter sel (next :: rest)).
    rewrite Hself, Hothers. cbn [filter]. rewrite Hfill, Hreload.
    cbn [co_success co_list co_reloaded app].
    unfold remove_all. cbn [fold_left remove_first].
    rewrite Position_eqb_refl. reflexivity. }
  assert (Hloop :
    manage_loop env (S fuel) 0
      {| walk := pos :: next :: rest; rebound := None; positions_to_remove := [] |}
    = manage_loop env fuel 1
        {| walk := next :: rest; rebound := Some loaded;
           positions_to_remove := [pos'] |}).
  { cbn [manage_loop nth_error walk]. now rewrite Hstep. }
  split; [exact Hloop|].
  rewrite Hloop.
  exact (manage_loop_keeps_prefix env fuel 1
           {| walk := next :: rest; rebound := Some loaded;
              positions_to_remove := [pos'] |} loaded eq_refl 0 (Nat.lt_0_1)).
Qed.

(** *** Instances of the properties above *)

Lemma armed_stop_bound_on_runs_witness :
  armed_stop_bound fresh_long_100 /\
  Forall armed_stop_bound (supervise fresh_long_100 [110; 105; 120]) /\
  get_trailing_active (after_ticks fresh_long_100 [110; 105; 120]) = true.
Proof.
  assert (H : armed_stop_bound fresh_long_100).
  { unfold armed_stop_bound. intros Harmed. discriminate Harmed. }
  split; [exact H|]. split; [|reflexivity].
  exact (armed_stop_bound_on_runs fresh_long_100 [110; 105; 120] H).
Defined.

Lemma armed_stays_armed_witness :
  get_trailing_active (tick fresh_long_100 110) = true /\
  Forall (fun later => get_trailing_active later = true)
         (supervise (tick fresh_long_100 110) [90; 80]).
Proof.
  assert (H : get_trailing_active (tick fresh_long_100 110) = true)
    by reflexivity.
  split; [exact H|].
  exact (armed_stays_armed (tick fresh_long_100 110) [90; 80] H).
Defined.

Lemma highest_price_tracks_maximum_witness :
  is_long fresh_long_100 = true /\
  ~ entry_price fresh_long_100 == 0 /\
  get_highest_price fresh_long_100
  <= get_highest_price (after_ticks fresh_long_100 [110; 105; 120]) /\
  Forall (fun p => p <= get_highest_price (after_ticks fresh_long_100 [110; 105; 120]))
         [110; 105; 120].
Proof.
  assert (H1 : is_long fresh_long_100 = true) by reflexivity.
  assert (H2 : ~ entry_price fresh_long_100 == 0) by discriminate.
  split; [exact H1|]. split; [exact H2|].
  exact (highest_price_tracks_maximum [110; 105; 120] fresh_long_100 H1 H2).
Defined.

Lemma fresh_long_100_below_threshold : below_threshold fresh_long_100.
Proof.
  unfold below_threshold. split; [reflexivity|]. split; [reflexivity|].
  intros _. reflexivity.
Qed.


Lemma live_and_replaced_bodies_agree_witness :
  below_threshold fresh_long_100 /\
  process_position fresh_long_100 101
  = process_position_shadowed fresh_long_100 101 /\
  (forall (pos' : Position) (triggered : bool),
     process_position fresh_long_100 101 = Ok (pos', triggered) ->
     below_threshold pos').
Proof.
  split; [exact fresh_long_100_below_threshold|].
  exact (live_and_replaced_bodies_agree fresh_long_100 101
           fresh_long_100_below_threshold).
Defined.

Lemma recorded_position_is_fresh_witness :
  exists recorded : list Position,
    record_position_with_trailing_stop [unarmed_long_110] "BTCUSDT" "BUY"
      120 3 (-0.008) 0.012 0.002 2000 = Ok recorded /\
    exists pos : Position,
      In pos recorded /\
      symbol pos = "BTCUSDT" /\
      position_side pos = Some (position_side_of "BUY") /\
      get_trailing_active pos = false /\
      armed_stop_bound pos /\
      (0 < entry_price pos -> 0 < 0.012 -> below_threshold pos).
Proof.
  eexists. split; [vm_compute; reflexivity|].
  apply (recorded_position_is_fresh [unarmed_long_110] "BTCUSDT" "BUY"
           120 3 (-0.008) 0.012 0.002 2000).
  vm_compute. reflexivity.
Defined.

Lemma no_positions_one_record_per_pair : one_record_per_pair [].
Proof. intros s p. cbn. lia. Qed.

Lemma recording_keeps_one_record_per_pair_witness :
  one_record_per_pair [] /\
  exists recorded : list Position,
    record_position_with_trailing_stop [] "BTCUSDT" "BUY"
      100 1 (-0.008) 0.012 0.003 1000 = Ok recorded /\
    one_record_per_pair recorded /\
    pair_count recorded "BTCUSDT" (position_side_of "BUY") = 1%nat /\
    List.length recorded = 1%nat.
Proof.
  split; [exact no_positions_one_record_per_pair|].
  eexists. split; [vm_compute; reflexivity|].
  apply (recording_keeps_one_record_per_pair [] "BTCUSDT" "BUY"
           100 1 (-0.008) 0.012 0.003 1000 _ no_positions_one_record_per_pair).
  vm_compute. reflexivity.
Defined.

Lemma merged_entry_between_witness :
  0 < quantity unarmed_long_110 /\ 0 < 3 /\
  exists merged : Position,
    merge_position unarmed_long_110 "LONG" 120 3 (-0.008) 0.012 0.002 2000
      = Ok merged /\
    entry_price merged * quantity merged
    == entry_price unarmed_long_110 * quantity unarmed_long_110 + 120 * 3 /\
    min2 (entry_price unarmed_long_110) 120 <= entry_price merged /\
    entry_price merged <= max2 (entry_price unarmed_long_110) 120.
Proof.
  assert (H1 : 0 < quantity unarmed_long_110) by reflexivity.
  assert (H2 : 0 < 3) by reflexivity.
  split; [exact H1|]. split; [exact H2|].
  eexists. split; [vm_compute; reflexivity|].
  apply (merged_entry_between unarmed_long_110 "LONG" 120 3 (-0.008) 0.012
           0.002 2000 _ H1 H2).
  vm_compute. reflexivity.
Defined.

Lemma long_order_stop_below_entry_witness :
  upper "buy" = "BUY" /\
  exists recorded : list Position,
    place_futures_order_usdc_filled [] "BTCUSDT" "buy" 100 1 0.03 1000
      = Ok recorded /\
    exists pos : Position,
      In pos recorded /\
      symbol pos = "BTCUSDT" /\
      position_side pos = Some "LONG" /\
      initial_stop_loss pos = Some (- 0.008) /\
      current_stop_level pos = Some (entry_price pos * (1 + - 0.008)) /\
      (0 < entry_price pos ->
       get_current_stop_level pos < entry_price pos /\
       process_position pos (entry_price pos) = Ok (pos, false)).
Proof.
  split; [reflexivity|].
  eexists. split; [vm_compute; reflexivity|].
  apply (long_order_stop_below_entry [] "BTCUSDT" "buy" 100 1 0.03 1000);
    [reflexivity|vm_compute; reflexivity].
Defined.

Lemma close_position_removes_closed_witness :
  (forall p : Position,
     In p [fresh_long_100; short_eth_100] ->
     selected "BTCUSDT" (Some "LONG") p = true ->
     close_succeeds (fun _ => Some 99) p = true) /\
  co_list (close_position [fresh_long_100; short_eth_100] "BTCUSDT"
             (Some "LONG") (fun _ => Some 99) (Raise (ExternalError "load")))
  = [short_eth_100] /\
  co_success (close_position [fresh_long_100; short_eth_100] "BTCUSDT"
                (Some "LONG") (fun _ => Some 99) (Raise (ExternalError "load")))
  = false.
Proof.
  assert (H : forall p : Position,
            In p [fresh_long_100; short_eth_100] ->
            selected "BTCUSDT" (Some "LONG") p = true ->
            close_succeeds (fun _ => Some 99) p = true).
  { intros p [<- | [<- | []]] Hsel; [reflexivity|discriminate Hsel]. }
  split; [exact H|].
  destruct (close_position_removes_closed [fresh_long_100; short_eth_100]
              "BTCUSDT" (Some "LONG") (fun _ => Some 99)
              (Raise (ExternalError "load")) H) as (Hlist & _ & Hraise).
  split; [exact Hlist|].
  exact (proj1 (Hraise _ eq_refl)).
Defined.

Lemma zero_entry_aborts_scan_witness :
  load_start (rejecting_exchange [zero_entry_record; fresh_long_100] 99 [])
  = Ok (zero_entry_record :: [fresh_long_100]) /\
  price_at (rejecting_exchange [zero_entry_record; fresh_long_100] 99 []) 0
  = Some 99 /\
  entry_price zero_entry_record == 0 /\
  manage_open_positions
    (rejecting_exchange [zero_entry_record; fresh_long_100] 99 []) []
  = (zero_entry_record :: [fresh_long_100], Some ZeroDivisionError).
Proof.
  split; [reflexivity|]. split; [reflexivity|]. split; [reflexivity|].
  exact (zero_entry_aborts_scan
           (rejecting_exchange [zero_entry_record; fresh_long_100] 99 []) []
           zero_entry_record [fresh_long_100] 99 eq_refl eq_refl
           (Qeq_refl 0)).
Defined.

Lemma successful_close_skips_next_witness :
  exists stopped : Position,
    process_position fresh_long_100 99 = Ok (stopped, true) /\
    manage_loop (accepting_exchange [fresh_long_100; short_eth_100] 99 [])
                2 0
                {| walk := [fresh_long_100; short_eth_100]; rebound := None;
                   positions_to_remove := [] |}
    = manage_loop (accepting_exchange [fresh_long_100; short_eth_100] 99 [])
                  1 1
                  {| walk := [short_eth_100]; rebound := Some [];
                     positions_to_remove := [stopped] |}.
Proof.
  eexists. split; [vm_compute; reflexivity|].
  refine (proj1 (successful_close_skips_next
                   (accepting_exchange [fresh_long_100; short_eth_100] 99 [])
                   fresh_long_100 short_eth_100 [] 99 _ [] 1
                   eq_refl _ _ _ eq_refl)).
  - vm_compute. reflexivity.
  - reflexivity.
  - reflexivity.
Defined.

(** ** Order sizing, price levels, retries and the frame cache *)

Import BotUtilities.

(** *** Sizing an order *)

(** X18. [calculate_leverage_from_quality] returns a leverage between 2 and
    20, and a higher quality score never gets a lower leverage. *)
Theorem leverage_from_quality_monotone (q1 q2 : Q) :
  q1 <= q2 ->
  (2 <= calculate_leverage_from_quality q1)%Z /\
  (calculate_leverage_from_quality q1 <= calculate_leverage_from_quality q2)%Z /\
  (calculate_leverage_from_quality q2 <= 20)%Z.
Proof.
  intros H. unfold calculate_leverage_from_quality.
  cmp_cases; repeat split; try lia; exfalso; lra.
Qed.

(** X19. [calculate_dynamic_order_amount] never returns less than 5, and its
    result respects the cap of 10% of the balance exactly when the balance
    is at least 50: below that the floor of 5 wins over the cap.  For a risk
    of at least 0.01 and a balance of at least 100 the amount is at most 5%
    of the balance. *)
Theorem dynamic_order_amount_floor_and_cap (risk account_balance : Q) :
  let amount := calculate_dynamic_order_amount risk account_balance in
  5 <= amount /\
  (amount <= account_balance * 0.1 <-> 50 <= account_balance) /\
  (0.01 <= risk -> 100 <= account_balance -> amount <= account_balance * 0.05).
Proof.
  cbv zeta. unfold calculate_dynamic_order_amount.
  destruct (ltb 0.05 risk) eqn:C5;
    [|destruct (ltb 0.03 risk) eqn:C3;
      [|destruct (ltb risk 0.01) eqn:C1;
        [apply ltb_true in C1|]]];
    set (order_amount := account_balance * (_ / 100));
    (assert (Ho : order_amount == account_balance * 0.03
                  \/ order_amount == account_balance * 0.04
                  \/ (order_amount == account_balance * 0.06 /\ risk < 0.01)
                  \/ order_amount == account_balance * 0.05)
       by (unfold order_amount;
           first [ left; apply Qmult_comp; reflexivity
                 | right; left; apply Qmult_comp; reflexivity
                 | right; right; left; split;
                   [apply Qmult_comp; reflexivity | exact C1]
                 | right; right; right; apply Qmult_comp; reflexivity ]));
    clearbody order_amount; unfold max2, min2;
    cmp_cases; repeat split; intros; lra.
Qed.

(** X20. The amount limits of [place_futures_order_usdc], on an account
    that holds at least the minimum notional: the amount ordered is at least
    the minimum and at most the larger of the minimum and 5% of the balance;
    when 5% of the balance is less than the minimum, the amount is the
    minimum whatever was asked, above the 5% limit. *)
Theorem order_amount_limits (amount account_balance min_amount : Q) :
  min_amount <= account_balance ->
  let ordered :=
    place_futures_order_usdc_amount amount account_balance min_amount in
  min_amount <= ordered /\
  ordered <= max2 min_amount (account_balance * 0.05) /\
  (account_balance * 0.05 < min_amount -> ordered == min_amount).
Proof.
  intros H. cbv zeta. unfold place_futures_order_usdc_amount, max2.
  cmp_cases; cbn [andb]; repeat split; intros; try lra.
Qed.

(** X21. After the amount limits the margin check never rejects: for a
    balance that is not negative and a leverage of at least 1 (every value of
    [calculate_leverage_from_quality] is), the margin required for the
    limited amount is within the balance, whatever amount was asked. *)
Theorem margin_check_never_rejects
    (amount account_balance min_amount : Q) (leverage : Z) :
  0 <= account_balance ->
  (1 <= leverage)%Z ->
  margin_sufficient
    (place_futures_order_usdc_amount amount account_balance min_amount)
    leverage account_balance = Ok true.
Proof.
  intros Hb Hl.
  assert (Hq : 1 <= inject_Z leverage).
  { change 1 with (inject_Z 1). rewrite <- Zle_Qle. exact Hl. }
  unfold margin_sufficient. rewrite div_ok by lra.
  cbn [bind]. f_equal. apply negb_true_iff. apply ltb_false.
  set (ordered := place_futures_order_usdc_amount _ _ _).
  assert (Ho : ordered <= account_balance).
  { unfold ordered, place_futures_order_usdc_amount.
    destruct (ltb (account_balance * 0.05) amount) eqn:C0;
      [apply ltb_true in C0 | apply ltb_false in C0];
      cmp_cases; cbn [andb]; lra. }
  destruct (Qlt_le_dec ordered 0) as [Hneg | Hpos].
  - assert (ordered / inject_Z leverage < 0); [|lra].
    apply Qlt_shift_div_r; lra.
  - assert (ordered / inject_Z leverage <= ordered); [|lra].
    apply Qle_shift_div_r; [lra|]. nra.
Qed.

(** *** Price levels *)

Lemma near_any_positive (price threshold : Q) (levels : list Q) :
  0 < price ->
  near_any price threshold levels =
  Ok (existsb (fun level => ltb (Qabs (price - level)) (threshold * price))
        levels).
Proof.
  intros Hp. induction levels as [|level later IH]; [reflexivity|].
  cbn [near_any existsb]. rewrite div_ok by lra. cbn [bind].
  assert (E : ltb (Qabs (price - level) / price) threshold
              = ltb (Qabs (price - level)) (threshold * price)).
  { set (d := Qabs (price - level)).
    destruct (ltb d (threshold * price)) eqn:C.
    - apply ltb_true in C. apply ltb_true.
      apply Qlt_shift_div_r; assumption.
    - apply ltb_false in C. apply ltb_false.
      apply Qle_shift_div_l; assumption. }
  rewrite E. destruct (ltb _ (threshold * price)); [reflexivity | exact IH].
Qed.

Lemma near_any_zero (price threshold level : Q) (later : list Q) :
  price == 0 ->
  near_any price threshold (level :: later) = Raise ZeroDivisionError.
Proof.
  intros Hp. cbn [near_any]. now rewrite div_zero.
Qed.

(** X22. For a positive price [is_near_resistance] returns, without
    raising, whether some examined level lies within [threshold * price] of
    the price; the examined levels are the swing highs followed by the
    Fibonacci levels, which count only when there are at least three. *)
Theorem near_resistance_characterised
    (price threshold : Q) (swing_highs : list Q)
    (fib_levels : option (list Q)) :
  0 < price ->
  is_near_resistance price swing_highs fib_levels threshold =
  Ok (existsb (fun level => ltb (Qabs (price - level)) (threshold * price))
        (examined_levels swing_highs fib_levels)).
Proof.
  intros Hp. unfold is_near_resistance, examined_levels.
  rewrite existsb_app, near_any_positive by assumption. cbn [bind].
  destruct (existsb _ swing_highs); [reflexivity|]. cbn [orb].
  destruct fib_levels as [[|l tl]|]; try reflexivity.
  destruct (Nat.leb 3 (List.length (l :: tl)));
    [apply near_any_positive; assumption | reflexivity].
Qed.

(** X23. At price 0 [is_near_support] divides by the price at the first
    level it examines: it raises [ZeroDivisionError] as soon as there is a
    swing low, or at least three Fibonacci levels, and returns [False] only
    when it has no level to examine. *)
Theorem near_support_at_zero_price
    (price threshold : Q) (swing_lows : list Q)
    (fib_levels : option (list Q)) :
  price == 0 ->
  is_near_support price swing_lows fib_levels threshold =
  match examined_levels swing_lows fib_levels with
  | [] => Ok false
  | _ :: _ => Raise ZeroDivisionError
  end.
Proof.
  intros Hp. unfold is_near_support, examined_levels.
  destruct swing_lows as [|low lows].
  - destruct fib_levels as [[|l tl]|]; try reflexivity.
    destruct (Nat.leb 3 (List.length (l :: tl))); [|reflexivity].
    now rewrite (near_any_zero price threshold l tl).
  - now rewrite near_any_zero.
Qed.

(** *** Retrying a call *)

Lemma retry_loop_first_success {A : Type} (func : nat -> result A) (v : A) :
  forall (k remaining attempt : nat),
    (k < remaining)%nat ->
    (forall i, (i < k)%nat -> is_ok (func (attempt + i)%nat) = false) ->
    func (attempt + k)%nat = Ok v ->
    retry_loop func remaining attempt =
    {| returned := Ok (Some v);
       calls := S k;
       slept := map (fun a => (2 ^ Z.of_nat a)%Z) (seq attempt k) |}.
Proof.
  induction k as [|k IH]; intros remaining attempt Hk Hfail Hv.
  - destruct remaining as [|rest]; [lia|].
    cbn [retry_loop]. rewrite Nat.add_0_r in Hv. now rewrite Hv.
  - destruct remaining as [|rest]; [lia|].
    cbn [retry_loop].
    pose proof (Hfail 0%nat ltac:(lia)) as H0. rewrite Nat.add_0_r in H0.
    destruct (func attempt) as [a|e]; [discriminate H0|].
    destruct rest as [|rest']; [lia|].
    rewrite (IH (S rest') (S attempt)).
    + reflexivity.
    + lia.
    + intros i Hi. replace (S attempt + i)%nat with (attempt + S i)%nat by lia.
      apply Hfail. lia.
    + replace (S attempt + k)%nat with (attempt + S k)%nat by lia. exact Hv.
Qed.

Lemma retry_loop_exhausted {A : Type} (func : nat -> result A) :
  forall (rest attempt : nat),
    (forall i, (i <= rest)%nat -> is_ok (func (attempt + i)%nat) = false) ->
    exists e,
      func (attempt + rest)%nat = Raise e /\
      retry_loop func (S rest) attempt =
      {| returned := Raise e;
         calls := S rest;
         slept := map (fun a => (2 ^ Z.of_nat a)%Z) (seq attempt rest) |}.
Proof.
  induction rest as [|rest IH]; intros attempt Hfail.
  - pose proof (Hfail 0%nat ltac:(lia)) as H0. rewrite Nat.add_0_r in *.
    cbn [retry_loop]. destruct (func attempt) as [a|e]; [discriminate H0|].
    exists e. split; reflexivity.
  - pose proof (Hfail 0%nat ltac:(lia)) as H0. rewrite Nat.add_0_r in H0.
    destruct (IH (S attempt)) as [e [He Hloop]].
    { intros i Hi. replace (S attempt + i)%nat with (attempt + S i)%nat by lia.
      apply Hfail. lia. }
    exists e. split.
    + replace (attempt + S rest)%nat with (S attempt + rest)%nat by lia.
      exact He.
    + change (retry_loop func (S (S rest)) attempt) with
        (match func attempt with
         | Ok v => {| returned := Ok (Some v); calls := 1; slept := [] |}
         | Raise e0 =>
             let later := retry_loop func (S rest) (S attempt) in
             {| returned := returned later;
                calls := S (calls later);
                slept := (2 ^ Z.of_nat attempt)%Z :: slept later |}
         end).
      destruct (func attempt) as [a|e0]; [discriminate H0|].
      cbv zeta. rewrite Hloop. reflexivity.
Qed.

(** X24. [execute_with_retry]: when the call first returns at attempt [k],
    within the allowed number, its value is returned after [k + 1] calls and
    the waits between them are 1, 2, 4, ... seconds, [k] of them; later
    outcomes of the call are not looked at. *)
Theorem retry_returns_first_success {A : Type}
    (func : nat -> result A) (max_retries : Z) (k : nat) (v : A) :
  (Z.of_nat k < max_retries)%Z ->
  (forall i, (i < k)%nat -> is_ok (func i) = false) ->
  func k = Ok v ->
  execute_with_retry func max_retries =
  {| returned := Ok (Some v); calls := S k; slept := backoff k |}.
Proof.
  intros Hk Hfail Hv. unfold execute_with_retry, backoff.
  apply retry_loop_first_success; [lia | exact Hfail | exact Hv].
Qed.

(** X25. [execute_with_retry]: when every allowed attempt raises, and at
    least one is allowed, the exception of the last attempt is raised again
    after [max_retries] calls; the function has waited after every attempt
    but the last. *)
Theorem retry_exhausted_raises_last {A : Type}
    (func : nat -> result A) (max_retries : Z) :
  (0 < max_retries)%Z ->
  (forall i, (Z.of_nat i < max_retries)%Z -> is_ok (func i) = false) ->
  exists e,
    func (Z.to_nat max_retries - 1)%nat = Raise e /\
    execute_with_retry func max_retries =
    {| returned := Raise e;
       calls := Z.to_nat max_retries;
       slept := backoff (Z.to_nat max_retries - 1) |}.
Proof.
  intros Hpos Hfail. unfold execute_with_retry, backoff.
  destruct (Z.to_nat max_retries) as [|rest] eqn:En; [lia|].
  replace (S rest - 1)%nat with rest by lia.
  destruct (retry_loop_exhausted func rest 0) as [e [He Hloop]].
  - intros i Hi. apply Hfail. lia.
  - exists e. split; assumption.
Qed.

Lemma retry_loop_calls {A : Type} (func : nat -> result A) :
  forall (remaining attempt : nat),
    (calls (retry_loop func remaining attempt) <= remaining)%nat /\
    (calls (retry_loop func remaining attempt) = 0%nat -> remaining = 0%nat).
Proof.
  induction remaining as [|rest IH]; intros attempt.
  - split; [apply Nat.le_refl | reflexivity].
  - cbn [retry_loop]. destruct (func attempt) as [a|e].
    + split; [cbn; lia | discriminate].
    + destruct rest as [|rest'].
      * split; [cbn; lia | discriminate].
      * destruct (IH (S attempt)) as [Hc _].
        cbn [calls]. split; [lia | discriminate].
Qed.

(** X26. [execute_with_retry] never calls more often than [max_retries].
    It makes no call exactly when [max_retries] allows no attempt (it is
    zero or negative); the loop then falls through, nothing is waited for
    and the function returns [None] without having called. *)
Theorem retry_without_attempt_falls_through {A : Type}
    (func : nat -> result A) (max_retries : Z) :
  (Z.of_nat (calls (execute_with_retry func max_retries))
   <= Z.max 0 max_retries)%Z /\
  (calls (execute_with_retry func max_retries) = 0%nat <->
   (max_retries <= 0)%Z) /\
  ((max_retries <= 0)%Z ->
   execute_with_retry func max_retries
   = {| returned := Ok None; calls := 0; slept := [] |}).
Proof.
  unfold execute_with_retry.
  destruct (retry_loop_calls func (Z.to_nat max_retries) 0) as [Hc Hz].
  repeat split.
  - lia.
  - intros Hn. apply Hz in Hn. lia.
  - intros Hm. replace (Z.to_nat max_retries) with 0%nat by lia. reflexivity.
  - intros Hm. replace (Z.to_nat max_retries) with 0%nat by lia. reflexivity.
Qed.

(** *** Reconnecting *)

(** X27. [check_and_reconnect_api] returns [True] exactly when the first
    ping returns, or the object has the credentials the reconnection reads
    and one of the three attempts succeeds.  On the object [__init__]
    leaves, which keeps the client and not the keys, a failed ping is
    followed by three failed attempts, waits of 5, 10 and 15 seconds, and
    [False]. *)
Theorem reconnect_needs_credentials
    (ping has_credentials : bool) (reconnect : nat -> bool) :
  (fst (check_and_reconnect_api ping has_credentials reconnect) = true <->
   ping = true \/
   (has_credentials = true /\
    exists k, (k < 3)%nat /\ reconnect k = true)) /\
  check_and_reconnect_api false init_has_credentials reconnect =
  (false, [5; 10; 15]%Z).
Proof.
  split; [|reflexivity].
  unfold check_and_reconnect_api. destruct ping.
  - split; [intros _; left; reflexivity | reflexivity].
  - destruct has_credentials.
    + cbn [reconnect_loop andb].
      destruct (reconnect 0%nat) eqn:R0.
      { split; [|reflexivity]. intros _. right. split; [reflexivity|].
        exists 0%nat. split; [lia | exact R0]. }
      destruct (reconnect 1%nat) eqn:R1.
      { split; [|reflexivity]. intros _. right. split; [reflexivity|].
        exists 1%nat. split; [lia | exact R1]. }
      destruct (reconnect 2%nat) eqn:R2.
      { split; [|reflexivity]. intros _. right. split; [reflexivity|].
        exists 2%nat. split; [lia | exact R2]. }
      cbn [fst]. split; [discriminate|].
      intros [H | [_ [k [Hk Hr]]]]; [discriminate H|].
      destruct k as [|[|[|k]]]; [congruence | congruence | congruence | lia].
    + cbn. split; [discriminate|].
      intros [H | [H _]]; discriminate H.
Qed.

(** *** The frame cache *)

Lemma cache_get_set_same (cache : Cache) (key : string) (item : CacheItem) :
  cache_get (cache_set cache key item) key = Some item.
Proof.
  induction cache as [|[k old] later IH]; cbn [cache_set cache_get].
  - now rewrite String.eqb_refl.
  - destruct (String.eqb k key) eqn:E; cbn [cache_get]; rewrite E.
    + reflexivity.
    + exact IH.
Qed.

Lemma cache_get_set_other (cache : Cache) (key other : string)
    (item : CacheItem) :
  other <> key ->
  cache_get (cache_set cache key item) other = cache_get cache other.
Proof.
  intros Hne.
  induction cache as [|[k old] later IH]; cbn [cache_set cache_get].
  - destruct (String.eqb key other) eqn:E; [|reflexivity].
    apply String.eqb_eq in E. congruence.
  - destruct (String.eqb k key) eqn:E; cbn [cache_get].
    + apply String.eqb_eq in E. subst k.
      destruct (String.eqb key other) eqn:E2; [|reflexivity].
      apply String.eqb_eq in E2. congruence.
    + destruct (String.eqb k other); [reflexivity | exact IH].
Qed.

(** X28. A frame fetched by a forced call is served from the cache by a
    later call for the same symbol, interval and limit made less than 300
    seconds after it, not forced, in a trade cycle that is not a multiple of
    12: that call returns the same frame, leaves the cache as it is and does
    not depend on what a fetch would have returned. *)
Theorem cached_frame_served_within_ttl
    (cache : Cache) (trade_cycle later_cycle : Z) (symbol interval : string)
    (limit : Z) (fetch_time later_time : Q) (df : DataFrame)
    (later_fetch : result (option DataFrame)) :
  frame_empty df = false ->
  (later_cycle mod 12 <> 0)%Z ->
  later_time - fetch_time < 300 ->
  let first_call :=
    get_historical_data_with_cache cache trade_cycle symbol interval limit
      true fetch_time (Ok (Some df)) in
  fst first_call = Some df /\
  get_historical_data_with_cache (snd first_call) later_cycle symbol interval
    limit false later_time later_fetch = (Some df, snd first_call).
Proof.
  intros Hne Hcycle Httl. cbv zeta.
  assert (E : get_historical_data_with_cache cache trade_cycle symbol interval
                limit true fetch_time (Ok (Some df))
              = (Some df,
                 cache_set cache (cache_key symbol interval limit)
                   {| data := df; timestamp := fetch_time |})).
  { unfold get_historical_data_with_cache. cbn [negb andb].
    now rewrite Hne. }
  rewrite E. cbn [fst snd]. split; [reflexivity|].
  unfold get_historical_data_with_cache.
  apply Z.eqb_neq in Hcycle. rewrite Hcycle. cbn [negb andb].
  rewrite cache_get_set_same. cbn [timestamp data].
  apply ltb_true in Httl. now rewrite Httl.
Qed.

Lemma cache_set_keeps (cache : Cache) (key : string) (item : CacheItem) :
  holds_no_empty_frame cache ->
  frame_empty (data item) = false ->
  holds_no_empty_frame (cache_set cache key item).
Proof.
  unfold holds_no_empty_frame. intros Hinv Hitem.
  induction cache as [|[k old] later IH]; cbn [cache_set].
  - constructor; [exact Hitem | constructor].
  - inversion Hinv as [|? ? Hold Hlater]; subst.
    destruct (String.eqb k key); constructor; auto.
Qed.

Lemma cache_get_holds (cache : Cache) (key : string) (item : CacheItem) :
  holds_no_empty_frame cache ->
  cache_get cache key = Some item ->
  frame_empty (data item) = false.
Proof.
  unfold holds_no_empty_frame. intros Hinv.
  induction cache as [|[k old] later IH]; cbn [cache_get]; [discriminate|].
  inversion Hinv as [|? ? Hold Hlater]; subst.
  destruct (String.eqb k key); [|auto].
  intros [= <-]. exact Hold.
Qed.

(** X29. [get_historical_data_with_cache] never stores and never returns
    an empty frame: if no cached frame is empty before a call, none is after
    it, and a frame the call returns is not empty.  A call that returns
    [None] leaves the cache as it was, and a call that returns a frame leaves
    that frame in the cache under the key of the call. *)
Theorem cache_holds_no_empty_frame
    (cache : Cache) (trade_cycle : Z) (symbol interval : string) (limit : Z)
    (force_refresh : bool) (current_time : Q)
    (fetched : result (option DataFrame)) :
  holds_no_empty_frame cache ->
  let call :=
    get_historical_data_with_cache cache trade_cycle symbol interval limit
      force_refresh current_time fetched in
  holds_no_empty_frame (snd call) /\
  match fst call with
  | Some df =>
      frame_empty df = false /\
      exists item,
        cache_get (snd call) (cache_key symbol interval limit) = Some item /\
        data item = df
  | None => snd call = cache
  end.
Proof.
  intros Hinv. cbv zeta.
  assert (Hfetch :
    forall fetch,
      fetch =
      match fetched with
      | Ok (Some df) =>
          if negb (frame_empty df)
          then (Some df,
                cache_set cache (cache_key symbol interval limit)
                  {| data := df; timestamp := current_time |})
          else (None, cache)
      | Ok None => (None, cache)
      | Raise _ => (None, cache)
      end ->
      holds_no_empty_frame (snd fetch) /\
      match fst fetch with
      | Some df =>
          frame_empty df = false /\
          exists item,
            cache_get (snd fetch) (cache_key symbol interval limit)
            = Some item /\ data item = df
      | None => snd fetch = cache
      end).
  { intros fetch ->. destruct fetched as [[df|]|e]; cbn [fst snd];
      try (split; [exact Hinv | reflexivity]).
    destruct (frame_empty df) eqn:Ee; cbn [negb fst snd];
      [split; [exact Hinv | reflexivity]|].
    split; [apply cache_set_keeps; assumption|].
    split; [exact Ee|]. eexists. split; [apply cache_get_set_same|].
    reflexivity. }
  unfold get_historical_data_with_cache.
  destruct (negb force_refresh && negb (trade_cycle mod 12 =? 0)%Z)%bool;
    [|apply Hfetch; reflexivity].
  destruct (cache_get cache (cache_key symbol interval limit))
    as [cache_item|] eqn:Eg; [|apply Hfetch; reflexivity].
  destruct (ltb (current_time - timestamp cache_item) 300);
    [|apply Hfetch; reflexivity].
  cbn [fst snd]. split; [exact Hinv|].
  split; [eapply cache_get_holds; eassumption|].
  exists cache_item. split; [exact Eg | reflexivity].
Qed.

(** *** Instances of the helper properties *)

Lemma leverage_from_quality_monotone_witness :
  (2 <= calculate_leverage_from_quality 4.5)%Z /\
  (calculate_leverage_from_quality 4.5
   <= calculate_leverage_from_quality 8.2)%Z /\
  (calculate_leverage_from_quality 8.2 <= 20)%Z.
Proof.
  apply (leverage_from_quality_monotone 4.5 8.2). vm_compute. discriminate.
Defined.

Lemma dynamic_order_amount_floor_and_cap_witness :
  5 <= calculate_dynamic_order_amount 0.02 1000 /\
  calculate_dynamic_order_amount 0.02 1000 <= 1000 * 0.05.
Proof.
  destruct (dynamic_order_amount_floor_and_cap 0.02 1000)
    as [Hfloor [_ Hcap]].
  split; [exact Hfloor|].
  apply Hcap; vm_compute; discriminate.
Defined.

Lemma order_amount_limits_witness :
  5 <= place_futures_order_usdc_amount 2 40 5 /\
  place_futures_order_usdc_amount 2 40 5 <= max2 5 (40 * 0.05) /\
  (40 * 0.05 < 5 -> place_futures_order_usdc_amount 2 40 5 == 5).
Proof.
  apply (order_amount_limits 2 40 5). vm_compute. discriminate.
Defined.

Lemma margin_check_never_rejects_witness :
  margin_sufficient (place_futures_order_usdc_amount 500 40 5)
    (calculate_leverage_from_quality 4.5) 40 = Ok true.
Proof.
  apply (margin_check_never_rejects 500 40 5
           (calculate_leverage_from_quality 4.5)).
  - vm_compute. discriminate.
  - vm_compute. discriminate.
Defined.

Lemma near_resistance_characterised_witness :
  is_near_resistance 100 [120; 100.5] (Some [99.9; 80]) 0.01 =
  Ok (existsb (fun level => ltb (Qabs (100 - level)) (0.01 * 100))
        (examined_levels [120; 100.5] (Some [99.9; 80]))).
Proof.
  apply (near_resistance_characterised 100 0.01 [120; 100.5]
           (Some [99.9; 80])).
  reflexivity.
Defined.

Lemma near_support_at_zero_price_witness :
  is_near_support 0 [95] None 0.01 = Raise ZeroDivisionError.
Proof.
  exact (near_support_at_zero_price 0 0.01 [95] None (Qeq_refl 0)).
Defined.

Lemma retry_returns_first_success_witness :
  execute_with_retry
    (fun attempt =>
       if Nat.ltb attempt 2 then Raise (ExternalError "timeout") else Ok 7%Z)
    3
  = {| returned := Ok (Some 7%Z); calls := 3; slept := [1; 2]%Z |}.
Proof.
  apply (retry_returns_first_success
           (fun attempt =>
              if Nat.ltb attempt 2 then Raise (ExternalError "timeout")
              else Ok 7%Z)
           3 2 7%Z).
  - reflexivity.
  - intros i Hi. destruct i as [|[|i]]; [reflexivity | reflexivity | lia].
  - reflexivity.
Defined.

Lemma retry_exhausted_raises_last_witness :
  exists e,
    (fun _ : nat => @Raise Z (ExternalError "timeout")) (Z.to_nat 3 - 1)%nat
    = Raise e /\
    execute_with_retry (fun _ : nat => @Raise Z (ExternalError "timeout")) 3
    = {| returned := Raise e;
         calls := Z.to_nat 3;
         slept := backoff (Z.to_nat 3 - 1) |}.
Proof.
  apply (retry_exhausted_raises_last
           (fun _ : nat => @Raise Z (ExternalError "timeout")) 3).
  - reflexivity.
  - intros i _. reflexivity.
Defined.

Lemma cached_frame_served_within_ttl_witness :
  fst (get_historical_data_with_cache [] 0 "BTCUSDT" "15m" 200 true 1000
         (Ok (Some one_row_frame))) = Some one_row_frame /\
  get_historical_data_with_cache
    (snd (get_historical_data_with_cache [] 0 "BTCUSDT" "15m" 200 true 1000
            (Ok (Some one_row_frame))))
    1 "BTCUSDT" "15m" 200 false 1299.5 (Raise (ExternalError "offline"))
  = (Some one_row_frame,
     snd (get_historical_data_with_cache [] 0 "BTCUSDT" "15m" 200 true 1000
            (Ok (Some one_row_frame)))).
Proof.
  apply (cached_frame_served_within_ttl [] 0 1 "BTCUSDT" "15m" 200 1000
           1299.5 one_row_frame (Raise (ExternalError "offline"))).
  - reflexivity.
  - vm_compute. discriminate.
  - reflexivity.
Defined.

Lemma cache_holds_no_empty_frame_witness :
  holds_no_empty_frame
    (snd (get_historical_data_with_cache [] 1 "BTCUSDT" "15m" 200 false 1000
            (Ok (Some {| nrows := 0; columns := [] |})))) /\
  snd (get_historical_data_with_cache [] 1 "BTCUSDT" "15m" 200 false 1000
         (Ok (Some {| nrows := 0; columns := [] |}))) = [].
Proof.
  exact (cache_holds_no_empty_frame [] 1 "BTCUSDT" "15m" 200 false 1000
           (Ok (Some {| nrows := 0; columns := [] |}))
           (Forall_nil _)).
Defined.
